(** * MEFS storage plugin: the storage client, its configuration schema and
      the two actions built on it.

    The development follows the TypeScript sources:
    - [schemes.ts]: [storageClientEnvSchema], [validateStorageClientConfig],
      [privateKeyToAddress];
    - the storage service: [initializeStorage], [loginToMEFS],
      [getAuthHeaders], [stop], [uploadFile], [retrieveFile];
    - the actions: [getCIDsFromMessage], the STORAGE_RETRIEVE handler and the
      STORAGE_UPLOAD handler.

    Conventions of the embedding.
    - A JavaScript string is a [string] holding its UTF-8 bytes; a [Buffer]
      is a [list byte].
    - An [async] method is a function of the state it reads and writes: the
      service object ([this]) and the world outside the process.  A rejected
      promise and a [throw] are both the completion [Throw].
    - Everything that is not code of this repository is a member of the
      class [Env]: the network behind [fetch], the ethers wallet, zod's
      checks and the messages of its issues, the file system, the clock, the
      CID parser, the texts of the engine's own errors.
    - A number is an integer of [Z]; it prints as its decimal digits below
      2^53 in size, and as the environment says beyond.
    - [logger] calls are left out: they neither change the state nor the
      control flow.
    - The calls run one after the other on a service: no two methods of one
      service are in flight together. *)

From Stdlib Require Import ZArith NArith List String Ascii Bool Lia.
From Stdlib.Strings Require Import Byte.
From stdpp Require Import base option list strings pretty gmap.

Local Open Scope string_scope.
Local Open Scope list_scope.

(** ** JavaScript values and errors *)

(** [l.join(sep)] *)
Fixpoint join (sep : string) (l : list string) : string :=
  match l with
  | [] => ""
  | [x] => x
  | x :: rest => x +:+ sep +:+ join sep rest
  end.

(** The values met at the fields the client reads from a JSON reply.
    [accessToken] and [refreshToken] are declared [string | null] and [Mid]
    is returned as a [string], but each is assigned what the reply holds,
    unchecked: any JSON value, or [undefined] for a field the reply does not
    have.  A number is held by the text [String] gives it. *)
#[warnings="-register-all"] Inductive JsValue :=
| JUndefined
| JNull
| JStr (s : string)
| JBool (b : bool)
| JNum (digits : string)
| JArr (items : list JsValue)
| JObj (fields : list (string * JsValue)).

(** [!!v]: [undefined], [null], the empty string, [false], [0] and [NaN] are
    falsy; an array and an object are truthy, empty or not. *)
Definition truthy (v : JsValue) : bool :=
  match v with
  | JUndefined | JNull => false
  | JStr s => negb (String.eqb s "")
  | JBool b => b
  | JNum digits => negb (String.eqb digits "0") && negb (String.eqb digits "NaN")
  | JArr _ | JObj _ => true
  end.

(** [`${v}`], that is [String(v)]: an array prints its elements joined by
    commas, [null] and [undefined] among them as nothing; an object prints
    as [[object Object]]. *)
Fixpoint template (v : JsValue) : string :=
  match v with
  | JUndefined => "undefined"
  | JNull => "null"
  | JStr s => s
  | JBool b => if b then "true" else "false"
  | JNum digits => digits
  | JArr items =>
      join ","
        (List.map (fun item => match item with
                               | JUndefined | JNull => ""
                               | _ => template item
                               end) items)
  | JObj _ => "[object Object]"
  end.

(** The text [Array.prototype.join] gives one element. *)
Definition join_item (v : JsValue) : string :=
  match v with
  | JUndefined | JNull => ""
  | _ => template v
  end.

(** [key?: string] and the like: an optional string argument is truthy when
    it is given and not empty. *)
Definition truthy_opt (v : option string) : bool :=
  match v with
  | Some s => negb (String.eqb s "")
  | None => false
  end.

(** [a || d] on optional strings. *)
Definition or_default (v : option string) (d : string) : string :=
  if truthy_opt v then default d v else d.

Inductive JsError :=
| Error (message : string)
| TypeError (message : string)
| SyntaxError (message : string).

(** [error instanceof Error ? error.message : String(error)] *)
Definition message_of (e : JsError) : string :=
  match e with
  | Error m | TypeError m | SyntaxError m => m
  end.

(** How a call ends: with a value, or by throwing. *)
Inductive Completion (A : Type) :=
| Return (a : A)
| Throw (e : JsError).
Arguments Return {A} a.
Arguments Throw {A} e.

(** ** Strings *)

Definition is_hex_digit (c : ascii) : bool :=
  let n := nat_of_ascii c in
  (((48 <=? n) && (n <=? 57)) || ((97 <=? n) && (n <=? 102))
   || ((65 <=? n) && (n <=? 70)))%nat.

Definition is_alnum (c : ascii) : bool :=
  let n := nat_of_ascii c in
  (((48 <=? n) && (n <=? 57)) || ((97 <=? n) && (n <=? 122))
   || ((65 <=? n) && (n <=? 90)))%nat.

Definition is_digit (c : ascii) : bool :=
  let n := nat_of_ascii c in ((48 <=? n) && (n <=? 57))%nat.

Fixpoint string_forallb (p : ascii -> bool) (s : string) : bool :=
  match s with
  | EmptyString => true
  | String c s' => p c && string_forallb p s'
  end.

Fixpoint string_existsb (p : ascii -> bool) (s : string) : bool :=
  match s with
  | EmptyString => false
  | String c s' => p c || string_existsb p s'
  end.

(** [/^[a-fA-F0-9]{64}$/.test(s)] *)
Definition is_hex64 (s : string) : bool :=
  (String.length s =? 64)%nat && string_forallb is_hex_digit s.

(** [/^[0-9a-fA-F]+$/.test(s)] *)
Definition is_hex_plus (s : string) : bool :=
  negb (String.eqb s "") && string_forallb is_hex_digit s.

(** [s.startsWith('0x') ? s.slice(2) : s] *)
Definition strip0x (s : string) : string :=
  match s with
  | String "0" (String "x" rest) => rest
  | _ => s
  end.

(** [s.split('/').pop()]: the text after the last slash. *)
Fixpoint after_last_slash (s : string) : string :=
  match s with
  | EmptyString => EmptyString
  | String c s' =>
      if string_existsb (Ascii.eqb "/") s' then after_last_slash s'
      else if Ascii.eqb c "/" then s' else s
  end.

(** ** HTTP *)

(** A [URL] object as the client writes it, not as the constructor reads
    it: [input] is the text handed to [new URL(input)], [params] the
    parameters the client then sets through [searchParams.set], none at
    first.  What the constructor makes of the text is not modelled: it
    resolves dot segments, escapes characters, and takes what follows a [?]
    in the text as parameters of its own, so the address that goes out is
    the one these two determine and need not be [input] letter for letter.
    [fetch_ext] is handed the URL as written.  The texts the client writes
    begin with the [MEFS_API_URL] of the configuration, which the schema has
    checked to be a URL before a service holds it: the [TypeError] of the
    constructor for a text that is no URL is left out. *)
Record URL := {
  input : string;
  params : list (string * string)
}.

(** [new URL(s)], before any parameter is set. *)
Definition new_URL (s : string) : URL :=
  {| input := s; params := [] |}.

(** [URLSearchParams.set]: the first entry named [k] takes the value, later
    ones go, and a new entry is added at the end when there is none. *)
Fixpoint params_set (k v : string) (ps : list (string * string))
  : list (string * string) :=
  match ps with
  | [] => [(k, v)]
  | (k', v') :: ps' =>
      if String.eqb k' k
      then (k, v) :: List.filter (fun p => negb (String.eqb (fst p) k)) ps'
      else (k', v') :: params_set k v ps'
  end.

Definition URL_set (k v : string) (u : URL) : URL :=
  {| input := input u; params := params_set k v (params u) |}.

(** One entry of a [FormData]. *)
Inductive Part :=
| FilePart (name : string) (data : list byte) (filename : string)
    (type : option string)
| FieldPart (name value : string).

Inductive Body :=
| NoBody
| JsonBody (fields : list (string * string))
| FormBody (parts : list Part).

Record Request := {
  method : string;
  url : URL;
  headers : gmap string string;
  body : Body
}.

(** What [response.json()] gives: a rejection when the body is not JSON,
    [null], or a value whose properties can be read.  A JSON number, string
    or array has none of the properties the client reads and stands as an
    object without fields. *)
Inductive Json :=
| NotJson
| JsonNull
| JsonObject (fields : list (string * JsValue)).

(** A [Response], by what the client can observe of it: [status], [text()],
    [json()] and [arrayBuffer()].  The body is taken as fully received. *)
Record Response := {
  status : N;
  text : string;
  json : Json;
  arrayBuffer : list byte
}.

(** [response.ok] *)
Definition ok (r : Response) : bool :=
  (200 <=? status r)%N && (status r <=? 299)%N.

(** [obj.field] on an object read from JSON. *)
Fixpoint get_field (k : string) (fields : list (string * JsValue)) : JsValue :=
  match fields with
  | [] => JUndefined
  | (k', v) :: rest => if String.eqb k' k then v else get_field k rest
  end.

(** ** Configuration *)

Record MefsConfig := {
  MEFS_API_URL : string;
  MEFS_WALLET_ADDRESS : string;
  MEFS_PRIVATE_KEY : string;
  MEFS_CHAIN_ID : Z;
  MEFS_ORIGIN : string
}.

(** [IAgentRuntime], as far as the plugin uses it: [getSetting]. *)
Record Runtime := {
  getSetting : string -> option string
}.

Inductive ZodCode :=
| invalid_type
| invalid_url
| invalid_regex
| invalid_int.

(** What zod finds at a field: a string, a number, [NaN], [undefined], or
    what the runtime gives for a setting it does not have ([null] or
    [undefined]). *)
Inductive ZodInput :=
| InMissing
| InUndefined
| InString (s : string)
| InNumber (n : Z)
| InNaN.

Inductive FormDataImpl :=
| GlobalFormData
| PackageFormData
| NoFormData.

(** ** The environment *)

Class Env := {
  (** the world outside the process: remote store, file system, clock *)
  Ext : Type;
  (** [fetch] *)
  fetch_ext : Request -> Ext -> Completion Response * Ext;
  (** [await import("ethers")], then its [ethers] member: present or not *)
  import_ethers : Completion bool;
  (** [new ethers.Wallet(key).address] *)
  Wallet_address : string -> Completion string;
  (** [await new ethers.Wallet(key).signMessage(message)] *)
  Wallet_signMessage : string -> string -> Completion string;
  (** which [FormData] the process has *)
  FormData_impl : FormDataImpl;
  (** the boundary the form-data package draws for a form *)
  FormData_boundary : string;
  (** zod's [.url()] check *)
  zod_url : string -> bool;
  (** zod's [.int()] check *)
  zod_int : Z -> bool;
  (** the message zod gives an issue: it goes by the field, the code and
      what the field held *)
  zod_message : string -> ZodCode -> ZodInput -> string;
  (** [String(n)] of an integer [n] of 2^53 and more in size: the shortest
      digits that give the number back, with an exponent from 1e21 on *)
  Number_toString_large : Z -> string;
  (** the message of the [SyntaxError] of [response.json()], by the body *)
  JSON_error_message : string -> string;
  (** the message of the [TypeError] of reading a property of [null], by
      the name of the property *)
  null_read_message : string -> string;
  (** [parseInt(s, 10)]; [None] is [NaN] *)
  parseInt10 : string -> option Z;
  (** [fs.readFileSync] *)
  fs_readFileSync : string -> Ext -> Completion (list byte);
  (** [Date.now()] *)
  Date_now : Ext -> N;
  (** [CID.parse(s)]: the version and [toString()] of the parsed CID *)
  CID_parse : string -> option (N * string);
  (** [buffer.toString('utf-8')] and [buffer.toString('base64')] *)
  Buffer_toString_utf8 : list byte -> string;
  Buffer_toString_base64 : list byte -> string
}.

Definition nl : string := String (ascii_of_nat 10) EmptyString.

(** ** [schemes.ts] *)

Section Client.
Context `{E : Env}.

(** [String(n)] and [n.toString()] of an integer: its decimal digits below
    2^53 in size, where every integer is a number of JavaScript. *)
Definition Number_toString (n : Z) : string :=
  if (Z.abs n <? 2 ^ 53)%Z then pretty n else Number_toString_large n.

(** [privateKeyToAddress] *)
Definition privateKeyToAddress (privateKeyHex : string) : Completion string :=
  if String.eqb privateKeyHex "" then
    Throw (Error "Private key cannot be empty")
  else
    let cleanKey := strip0x privateKeyHex in
    if negb (is_hex_plus cleanKey) then
      Throw (Error "Invalid hex format for private key")
    else
      match Wallet_address ("0x" +:+ cleanKey) with
      | Return address => Return address
      | Throw e =>
          Throw (Error ("Failed to convert private key to address: "
                        +:+ message_of e))
      end.

(** The object handed to [storageClientEnvSchema.parse]. *)
Record RawConfig := {
  raw_API_URL : string;
  raw_PRIVATE_KEY : option string;
  raw_CHAIN_ID : option Z;
  raw_ORIGIN : string
}.

(** The issues zod collects, field by field in the order of the schema. *)
Definition schema_issues (c : RawConfig) : list (string * ZodCode) :=
  (if zod_url (raw_API_URL c) then [] else [("MEFS_API_URL", invalid_url)])
  ++ match raw_PRIVATE_KEY c with
     | None => [("MEFS_PRIVATE_KEY", invalid_type)]
     | Some k =>
         if is_hex64 k then [] else [("MEFS_PRIVATE_KEY", invalid_regex)]
     end
  ++ match raw_CHAIN_ID c with
     | None => [("MEFS_CHAIN_ID", invalid_type)]
     | Some n => if zod_int n then [] else [("MEFS_CHAIN_ID", invalid_int)]
     end
  ++ (if zod_url (raw_ORIGIN c) then [] else [("MEFS_ORIGIN", invalid_url)]).

(** [storageClientEnvSchema.parse]: the issues of a [ZodError], or the
    parsed fields. *)
Definition storageClientEnvSchema_parse (c : RawConfig)
  : list (string * ZodCode) + (string * string * Z * string) :=
  match schema_issues c, raw_PRIVATE_KEY c, raw_CHAIN_ID c with
  | [], Some k, Some n => inr (raw_API_URL c, k, n, raw_ORIGIN c)
  | issues, _, _ => inl issues
  end.

(** What the field [name] of [c] holds. *)
Definition raw_input (c : RawConfig) (name : string) : ZodInput :=
  if String.eqb name "MEFS_API_URL" then InString (raw_API_URL c)
  else if String.eqb name "MEFS_PRIVATE_KEY" then
    match raw_PRIVATE_KEY c with Some k => InString k | None => InMissing end
  else if String.eqb name "MEFS_CHAIN_ID" then
    match raw_CHAIN_ID c with Some n => InNumber n | None => InNaN end
  else if String.eqb name "MEFS_ORIGIN" then InString (raw_ORIGIN c)
  else InUndefined.

(** [`${err.path.join(".")}: ${err.message}`] *)
Definition issue_line (c : RawConfig) (i : string * ZodCode) : string :=
  fst i +:+ ": " +:+ zod_message (fst i) (snd i) (raw_input c (fst i)).

(** [validateStorageClientConfig] *)
Definition validateStorageClientConfig (rt : Runtime) : Completion MefsConfig :=
  let chainIdStr := getSetting rt "MEFS_CHAIN_ID" in
  let config :=
    {| raw_API_URL :=
         or_default (getSetting rt "MEFS_API_URL")
                    "https://api.mefs.io:10000/produce";
       raw_PRIVATE_KEY := getSetting rt "MEFS_PRIVATE_KEY";
       raw_CHAIN_ID :=
         if truthy_opt chainIdStr then parseInt10 (default "" chainIdStr)
         else Some 985%Z;
       raw_ORIGIN := or_default (getSetting rt "MEFS_ORIGIN") "https://memo.io"
    |} in
  match storageClientEnvSchema_parse config with
  | inl issues =>
      Throw (Error ("Storage client configuration validation failed:" +:+ nl
                    +:+ join nl (List.map (issue_line config) issues)))
  | inr (api, key, chain, origin) =>
      match (if negb (String.eqb key "") then privateKeyToAddress key
             else Return "") with
      | Throw e =>
          Throw (Error ("Failed to convert private key to address: "
                        +:+ message_of e))
      | Return address =>
          Return {| MEFS_API_URL := api;
                    MEFS_WALLET_ADDRESS := address;
                    MEFS_PRIVATE_KEY := key;
                    MEFS_CHAIN_ID := chain;
                    MEFS_ORIGIN := origin |}
      end
  end.

(** ** The storage service *)

(** What the process does to the outside, in order. *)
Inductive Event :=
| EvFetch (req : Request) (res : Completion Response)
| EvCallback (text : string).

Record World := {
  ext : Ext;
  trace : list Event
}.

(** The fields of a [StorageService] object. *)
Record StorageService := {
  runtime : option Runtime;
  mefsConfig : option MefsConfig;
  accessToken : JsValue;
  refreshToken : JsValue
}.

Definition set_config (c : option MefsConfig) (this : StorageService)
  : StorageService :=
  {| runtime := runtime this; mefsConfig := c;
     accessToken := accessToken this; refreshToken := refreshToken this |}.

Definition set_tokens (a r : JsValue) (this : StorageService) : StorageService :=
  {| runtime := runtime this; mefsConfig := mefsConfig this;
     accessToken := a; refreshToken := r |}.

(** [new StorageService(runtime)] *)
Definition new_StorageService (rt : Runtime) : StorageService :=
  {| runtime := Some rt; mefsConfig := None;
     accessToken := JNull; refreshToken := JNull |}.

(** A method of the service: it runs on [this] and the world, ends with a
    value or a throw, and leaves both as it changed them. *)
Definition M (A : Type) : Type :=
  StorageService * World -> Completion A * (StorageService * World).

Definition ret {A} (a : A) : M A := fun s => (Return a, s).

Definition bind {A B} (m : M A) (k : A -> M B) : M B :=
  fun s =>
    match m s with
    | (Return a, s') => k a s'
    | (Throw e, s') => (Throw e, s')
    end.

Definition throw {A} (e : JsError) : M A := fun s => (Throw e, s).

(** [try { m } catch (error) { h error }] *)
Definition catch {A} (m : M A) (h : JsError -> M A) : M A :=
  fun s =>
    match m s with
    | (Throw e, s') => h e s'
    | r => r
    end.

Definition lift {A} (c : Completion A) : M A := fun s => (c, s).

Definition get_this : M StorageService := fun s => (Return (fst s), s).

Definition set_this (this : StorageService) : M unit :=
  fun s => (Return tt, (this, snd s)).

(** [await fetch(url.toString(), init)] *)
Definition fetch (req : Request) : M Response :=
  fun s =>
    let (res, x) := fetch_ext req (ext (snd s)) in
    (res, (fst s, {| ext := x; trace := trace (snd s) ++ [EvFetch req res] |})).

(** [await response.json()]: [None] is the value [null]. *)
Definition response_json (r : Response) : M (option (list (string * JsValue))) :=
  match json r with
  | NotJson => throw (SyntaxError (JSON_error_message (text r)))
  | JsonNull => ret None
  | JsonObject fields => ret (Some fields)
  end.

(** [result.k] on what [response.json()] gave. *)
Definition read_field (result : option (list (string * JsValue))) (k : string)
  : M JsValue :=
  match result with
  | None => throw (TypeError (null_read_message k))
  | Some fields => ret (get_field k fields)
  end.

End Client.

Notation "'let*' x ':=' m 'in' k" := (bind m (fun x => k))
  (at level 10, x name, m at level 100, k at level 200).

Section Service.
Context `{E : Env}.

(** The challenge request of [loginToMEFS]. *)
Definition challenge_request (cfg : MefsConfig) : Request :=
  {| method := "GET";
     url :=
       URL_set "chainid" (Number_toString (MEFS_CHAIN_ID cfg))
         (URL_set "address" (MEFS_WALLET_ADDRESS cfg)
            (new_URL (MEFS_API_URL cfg +:+ "/challenge")));
     headers :=
       {[ "Origin" := if String.eqb (MEFS_ORIGIN cfg) "" then MEFS_API_URL cfg
                      else MEFS_ORIGIN cfg ]};
     body := NoBody |}.

(** The exchange request of [loginToMEFS]. *)
Definition login_request (cfg : MefsConfig) (challengeMessage signature : string)
  : Request :=
  {| method := "POST";
     url := new_URL (MEFS_API_URL cfg +:+ "/login");
     headers := {[ "Content-Type" := "application/json" ]};
     body := JsonBody [("message", challengeMessage); ("signature", signature)]
  |}.

(** [`${what}: ${response.status} ${errorText}`] *)
Definition failure_message (what : string) (r : Response) : string :=
  what +:+ ": " +:+ pretty (status r) +:+ " " +:+ text r.

(** [loginToMEFS] *)
Definition loginToMEFS : M unit :=
  let* this := get_this in
  match mefsConfig this with
  | None => throw (Error "Storage config not initialized")
  | Some cfg =>
      catch
        (let* challengeResponse := fetch (challenge_request cfg) in
         if negb (ok challengeResponse) then
           throw (Error (failure_message "Failed to get challenge"
                           challengeResponse))
         else
           let challengeMessage := text challengeResponse in
           let* ethers := lift import_ethers in
           if negb ethers then
             throw (Error "ethers module not found. Please install ethers package: npm install ethers")
           else
             let* signature :=
               lift (Wallet_signMessage (MEFS_PRIVATE_KEY cfg) challengeMessage) in
             let* loginResponse :=
               fetch (login_request cfg challengeMessage signature) in
             if negb (ok loginResponse) then
               throw (Error (failure_message "Failed to login" loginResponse))
             else
               let* loginResult := response_json loginResponse in
               let* access := read_field loginResult "accessToken" in
               let* this1 := get_this in
               let* _ := set_this (set_tokens access (refreshToken this1) this1) in
               let* refresh := read_field loginResult "refreshToken" in
               let* this2 := get_this in
               set_this (set_tokens (accessToken this2) refresh this2))
        (fun error => throw error)
  end.

(** [getAuthHeaders] *)
Definition getAuthHeaders : M (gmap string string) :=
  let* this := get_this in
  if negb (truthy (accessToken this)) then
    throw (Error "Not authenticated. Please initialize storage first.")
  else
    ret {[ "Authorization" := "Bearer " +:+ template (accessToken this) ]}.

(** [stop] *)
Definition stop : M unit :=
  let* this := get_this in
  set_this (set_config None this).

(** [getConfig] *)
Definition getConfig : M MefsConfig :=
  let* this := get_this in
  match mefsConfig this with
  | None => throw (Error "Storage client not initialized")
  | Some cfg => ret cfg
  end.

(** [initializeStorage] *)
Definition initializeStorage : M unit :=
  catch
    (let* this := get_this in
     if bool_decide (is_Some (mefsConfig this)) && truthy (accessToken this)
     then ret tt
     else
       match runtime this with
       | None => throw (Error "Runtime not available")
       | Some rt =>
           let* cfg := lift (validateStorageClientConfig rt) in
           let* this' := get_this in
           let* _ := set_this (set_config (Some cfg) this') in
           loginToMEFS
       end)
    (fun error => throw error).

(** The entries [uploadFile] appends to its [FormData]. *)
Definition upload_parts (isGlobalFormData : bool) (buffer : list byte)
    (filename : string) (publicFile : bool) (key : option string) : list Part :=
  [FilePart "file" buffer filename
     (if isGlobalFormData then Some "application/octet-stream" else None)]
  ++ (if publicFile then [FieldPart "public" "true"]
      else if truthy_opt key then [FieldPart "key" (default "" key)]
      else []).

(** [formData.getHeaders()] of the form-data package. *)
Definition FormData_getHeaders : gmap string string :=
  {[ "content-type" := "multipart/form-data; boundary=" +:+ FormData_boundary ]}.

(** The headers of the upload request, [{ ...headers, ...formHeaders }] with
    the form-data package: the headers of the form are spread over the
    authentication headers. *)
Definition upload_headers (isGlobalFormData : bool)
    (headers : gmap string string) : gmap string string :=
  if isGlobalFormData then headers
  else FormData_getHeaders ∪ headers.

Definition upload_request (cfg : MefsConfig) (isGlobalFormData : bool)
    (headers : gmap string string) (buffer : list byte) (filename : string)
    (publicFile : bool) (key : option string) : Request :=
  {| method := "POST";
     url := new_URL (MEFS_API_URL cfg +:+ "/mefs/");
     headers := upload_headers isGlobalFormData headers;
     body := FormBody (upload_parts isGlobalFormData buffer filename
                         publicFile key) |}.

(** [uploadFile] *)
Definition uploadFile (buffer : list byte) (filename : string)
    (publicFile : bool) (key : option string) : M JsValue :=
  let* this := get_this in
  match mefsConfig this with
  | None => throw (Error "Storage config not initialized")
  | Some cfg =>
      let* _ := (if negb (truthy (accessToken this)) then loginToMEFS
                 else ret tt) in
      catch
        (match FormData_impl with
         | NoFormData =>
             throw (Error "FormData is not available. Please install 'form-data' package or use Node.js 18+")
         | impl =>
             let isGlobalFormData :=
               match impl with GlobalFormData => true | _ => false end in
             let* headers := getAuthHeaders in
             let* response :=
               fetch (upload_request cfg isGlobalFormData headers buffer
                        filename publicFile key) in
             if negb (ok response) then
               throw (Error (failure_message "Failed to upload file" response))
             else
               let* result := response_json response in
               read_field result "Mid"
         end)
        (fun error => throw error)
  end.

Definition retrieve_url (cfg : MefsConfig) (cid : string) (key : option string)
  : URL :=
  let retrieveUrl := new_URL (MEFS_API_URL cfg +:+ "/mefs/" +:+ cid) in
  if truthy_opt key then URL_set "key" (default "" key) retrieveUrl
  else retrieveUrl.

Definition retrieve_request (cfg : MefsConfig) (headers : gmap string string)
    (cid : string) (key : option string) : Request :=
  {| method := "GET";
     url := retrieve_url cfg cid key;
     headers := headers;
     body := NoBody |}.

(** [retrieveFile] *)
Definition retrieveFile (cid : string) (key : option string) : M (list byte) :=
  let* this := get_this in
  match mefsConfig this with
  | None => throw (Error "Storage config not initialized")
  | Some cfg =>
      let* _ := (if negb (truthy (accessToken this)) then loginToMEFS
                 else ret tt) in
      catch
        (let* headers := getAuthHeaders in
         let* response := fetch (retrieve_request cfg headers cid key) in
         if negb (ok response) then
           throw (Error (failure_message "Failed to retrieve file" response))
         else ret (arrayBuffer response))
        (fun error => throw error)
  end.

(** [StorageService.start] *)
Definition start (rt : Runtime) (w : World)
  : Completion unit * (StorageService * World) :=
  initializeStorage (new_StorageService rt, w).

End Service.

(** ** The actions *)

(** A [Media] attachment, a [Memory] and an [ActionResult], by the fields the
    handlers use. *)
Record Attachment := {
  att_url : string;
  att_title : option string
}.

Record Memory := {
  content_text : option string;
  content_attachments : option (list Attachment)
}.

Record RetrievedFile := {
  file_cid : string;
  file_content : string;
  file_size : nat
}.

Inductive Values :=
| VError (error : string)
| VRetrievedFiles (retrievedFiles : list RetrievedFile)
| VCidList (cidList : string).

Record ActionResult := {
  success : bool;
  result_text : string;
  actions : list string;
  values : Values
}.

(** *** [getCIDsFromMessage] *)

Fixpoint take_alnum (s : string) : string :=
  match s with
  | String c s' => if is_alnum c then String c (take_alnum s') else ""
  | EmptyString => ""
  end.

(** [Qm[a-zA-Z0-9]{44}] at the start of [s]. *)
Definition match_v0 (s : string) : option string :=
  match s with
  | String "Q" (String "m" rest) =>
      let t := String.substring 0 44 rest in
      if (String.length t =? 44)%nat && string_forallb is_alnum t
      then Some ("Qm" +:+ t) else None
  | _ => None
  end.

(** [b[a-zA-Z0-9]{1,}] at the start of [s], as long as it goes. *)
Definition match_v1 (s : string) : option string :=
  match s with
  | String "b" rest =>
      let t := take_alnum rest in
      if String.eqb t "" then None else Some (String "b" t)
  | _ => None
  end.

Definition match_here (s : string) : option string :=
  match match_v0 s with
  | Some m => Some m
  | None => match_v1 s
  end.

(** [text.match(cidPattern)] with the [g] flag: the matches from left to
    right, each search resuming after the previous match; [skip] counts the
    characters of the last match still to pass. *)
Fixpoint scan (skip : nat) (s : string) : list string :=
  match s with
  | EmptyString => []
  | String c s' =>
      match skip with
      | S k => scan k s'
      | O =>
          match match_here s with
          | Some m => m :: scan (String.length m - 1) s'
          | None => scan 0 s'
          end
      end
  end.

Section Actions.
Context `{E : Env}.

Definition parse_cid (m : string) : option string :=
  match CID_parse m with
  | Some (version, str) =>
      if (version =? 0)%N || (version =? 1)%N then Some str else None
  | None => None
  end.

Fixpoint parse_cids (matches : list string) : list string :=
  match matches with
  | [] => []
  | m :: rest =>
      match parse_cid m with
      | Some str => str :: parse_cids rest
      | None => parse_cids rest
      end
  end.

Definition getCIDsFromMessage (message : Memory) : list string :=
  if truthy_opt (content_text message)
  then parse_cids (scan 0 (default "" (content_text message)))
  else [].

(** [await callback?.({ text })]; a callback that is passed returns
    normally. *)
Definition emit (callback : bool) (text : string) (w : World) : World :=
  if callback
  then {| ext := ext w; trace := trace w ++ [EvCallback text] |}
  else w.

Definition do_callback (callback : bool) (text : string) : M unit :=
  fun s => (Return tt, (fst s, emit callback text (snd s))).

Definition failed (action text error : string) : ActionResult :=
  {| success := false; result_text := text; actions := [action];
     values := VError error |}.

(** *** STORAGE_RETRIEVE *)

(** [/[\x00-\x08\x0E-\x1F]/] *)
Definition is_control (c : ascii) : bool :=
  let n := nat_of_ascii c in
  ((n <=? 8) || ((14 <=? n) && (n <=? 31)))%nat.

Definition binary_text (fileBuffer : list byte) : string :=
  "[Binary file, size: " +:+ pretty (length fileBuffer) +:+ " bytes]" +:+ nl
  +:+ "Base64: " +:+ Buffer_toString_base64 fileBuffer.

Definition decode_content (fileBuffer : list byte) : string :=
  let fileContent := Buffer_toString_utf8 fileBuffer in
  if string_existsb is_control fileContent && (0 <? length fileBuffer)%nat
  then binary_text fileBuffer
  else fileContent.

(** One turn of the loop over [cids]: the file goes to [retrievedFiles], or
    the CID to [notFoundFiles] when [retrieveFile] throws. *)
Definition retrieve_one (cid : string)
    (acc : list RetrievedFile * list string)
  : M (list RetrievedFile * list string) :=
  catch
    (let* fileBuffer := retrieveFile cid None in
     ret (fst acc ++ [{| file_cid := cid;
                         file_content := decode_content fileBuffer;
                         file_size := length fileBuffer |}],
          snd acc))
    (fun error => ret (fst acc, snd acc ++ [cid])).

Fixpoint retrieve_loop (cids : list string)
    (acc : list RetrievedFile * list string)
  : M (list RetrievedFile * list string) :=
  match cids with
  | [] => ret acc
  | cid :: rest =>
      let* acc' := retrieve_one cid acc in
      retrieve_loop rest acc'
  end.

Fixpoint files_text (idx : nat) (files : list RetrievedFile) : string :=
  match files with
  | [] => ""
  | file :: rest =>
      "=== File " +:+ pretty (idx + 1)%nat +:+ " (CID: " +:+ file_cid file
      +:+ ", Size: " +:+ pretty (file_size file) +:+ " bytes) ===" +:+ nl
      +:+ file_content file +:+ nl +:+ nl +:+ files_text (S idx) rest
  end.

Definition retrieved_text (retrievedFiles : list RetrievedFile)
    (notFoundFiles : list string) : string :=
  "Retrieved " +:+ pretty (length retrievedFiles) +:+ " file(s) from MEFS:"
  +:+ nl +:+ nl +:+ files_text 0 retrievedFiles
  +:+ (if (0 <? length notFoundFiles)%nat
       then nl +:+ "Failed to retrieve files for the following CIDs: " +:+ nl
            +:+ join nl notFoundFiles
       else "").

Definition none_found_text (notFoundFiles : list string) : string :=
  "No files found for the given CIDs: " +:+ nl +:+ join nl notFoundFiles.

(** The [try] block of the handler, once the service is at hand. *)
Definition retrieve_body (cids : list string) (callback : bool)
  : M ActionResult :=
  let* _ := initializeStorage in
  let* found := retrieve_loop cids ([], []) in
  let retrievedFiles := fst found in
  let notFoundFiles := snd found in
  if (length retrievedFiles =? 0)%nat then
    let* _ := do_callback callback (none_found_text notFoundFiles) in
    ret (failed "STORAGE_RETRIEVE" (none_found_text notFoundFiles)
           "No files found for the given CIDs")
  else
    let responseText := retrieved_text retrievedFiles notFoundFiles in
    let* _ := do_callback callback responseText in
    ret {| success := true; result_text := responseText;
           actions := ["STORAGE_RETRIEVE"];
           values := VRetrievedFiles retrievedFiles |}.

(** [retrieveAction.handler]; [service] is what
    [runtime.getService("storage")] gives, [callback] tells whether a
    callback was passed. *)
Definition retrieve_handler (service : option StorageService)
    (message : Memory) (callback : bool) (w : World)
  : ActionResult * (option StorageService * World) :=
  let cids := getCIDsFromMessage message in
  if (length cids =? 0)%nat then
    (failed "STORAGE_RETRIEVE"
       "You didn't provide any CID values to retrieve files."
       "No CID values provided",
     (service,
      emit callback "You didn't provide any CID values to retrieve files." w))
  else
    match service with
    | None =>
        (failed "STORAGE_RETRIEVE"
           "Storage service is not available in runtime."
           "Storage service not available in runtime",
         (None, emit callback "Storage service is not available in runtime." w))
    | Some storageService =>
        match retrieve_body cids callback (storageService, w) with
        | (Return result, (this, w')) => (result, (Some this, w'))
        | (Throw error, (this, w')) =>
            let t := "Error during retrieve file(s) from MEFS: "
                     +:+ message_of error in
            (failed "STORAGE_RETRIEVE" t
               "Error during retrieve file(s) from MEFS",
             (Some this, emit callback t w'))
        end
    end.

(** *** STORAGE_UPLOAD *)

Definition read_file (path : string) : M (list byte) :=
  fun s => (fs_readFileSync path (ext (snd s)), s).

Definition now : M N :=
  fun s => (Return (Date_now (ext (snd s))), s).

(** [attached.title || attached.url.split('/').pop() || 'file'] *)
Definition attachment_filename (attached : Attachment) : string :=
  if truthy_opt (att_title attached) then default "" (att_title attached)
  else
    let last := after_last_slash (att_url attached) in
    if String.eqb last "" then "file" else last.

Fixpoint upload_attachments (attachments : list Attachment)
    (cidResults : list JsValue) : M (list JsValue) :=
  match attachments with
  | [] => ret cidResults
  | attached :: rest =>
      let* cid :=
        catch
          (let* fileContent := read_file (att_url attached) in
           uploadFile fileContent (attachment_filename attached) false None)
          (fun error => throw error) in
      upload_attachments rest (cidResults ++ [cid])
  end.

Fixpoint upload_responses (responses : list Memory) (cidResults : list JsValue)
  : M (list JsValue) :=
  match responses with
  | [] => ret cidResults
  | response :: rest =>
      if truthy_opt (content_text response) then
        let* cid :=
          catch
            (let textBuffer :=
               list_byte_of_string (default "" (content_text response)) in
             let* t := now in
             uploadFile textBuffer ("response_" +:+ pretty t +:+ ".txt")
               false None)
            (fun error => throw error) in
        upload_responses rest (cidResults ++ [cid])
      else upload_responses rest cidResults
  end.

Fixpoint cid_lines (idx : nat) (cidResults : list JsValue) : list string :=
  match cidResults with
  | [] => []
  | cid :: rest =>
      ("File " +:+ pretty (idx + 1)%nat +:+ ": " +:+ template cid)
      :: cid_lines (S idx) rest
  end.

Definition uploaded_text (cidResults : list JsValue) : string :=
  "File(s) uploaded to MEFS successfully!" +:+ nl +:+ nl +:+ "File CIDs:"
  +:+ nl +:+ join nl (cid_lines 0 cidResults).

(** The [try] block of the handler, once the service is at hand. *)
Definition upload_body (attachments : option (list Attachment))
    (responses : option (list Memory)) (callback : bool) : M ActionResult :=
  let* _ := initializeStorage in
  let* uploaded := upload_attachments (default [] attachments) [] in
  let* cidResults := upload_responses (default [] responses) uploaded in
  let cidList := join ", " (List.map join_item cidResults) in
  let* _ := do_callback callback (uploaded_text cidResults) in
  ret {| success := true; result_text := uploaded_text cidResults;
         actions := ["STORAGE_UPLOAD"]; values := VCidList cidList |}.

(** [uploadAction.handler] *)
Definition upload_handler (service : option StorageService)
    (message : Memory) (callback : bool) (responses : option (list Memory))
    (w : World) : ActionResult * (option StorageService * World) :=
  let attachments := content_attachments message in
  if match attachments with Some [] => true | _ => false end then
    (failed "STORAGE_UPLOAD"
       "Looks like you didn't attach any files. Please attach a file and try again."
       "No file to upload",
     (service,
      emit callback
        "Looks like you didn't attach any files. Please attach a file and try again."
        w))
  else
    let w1 := emit callback "OK! Uploading file(s) to MEFS..." w in
    match service with
    | None =>
        (failed "STORAGE_UPLOAD"
           "I'm sorry, the Storage service is not available. Please try again later."
           "Storage service not available in runtime",
         (None,
          emit callback
            "I'm sorry, the Storage service is not available. Please try again later."
            w1))
    | Some storageService =>
        match upload_body attachments responses callback (storageService, w1)
        with
        | (Return result, (this, w')) => (result, (Some this, w'))
        | (Throw error, (this, w')) =>
            (failed "STORAGE_UPLOAD"
               "Sorry, failed to upload file(s) to MEFS. Please try again later."
               (message_of error),
             (Some this,
              emit callback
                "Sorry, failed to upload file(s) to MEFS. Please try again later."
                w'))
        end
    end.

End Actions.

(** ** Observations on a run *)

(** The events a run added to the trace. *)
Definition new_events `{E : Env} (w w' : World) : list Event :=
  drop (length (trace w)) (trace w').

(** A request to the store proper: its URL is written under
    [{apiUrl}/mefs/]. *)
Definition storage_request (cfg : MefsConfig) (req : Request) : Prop :=
  exists rest, input (url req) = MEFS_API_URL cfg +:+ "/mefs/" +:+ rest.

(** The request carries [Authorization: Bearer t] with [t] not empty. *)
Definition bearer_token (req : Request) : Prop :=
  exists t, headers req !! "Authorization" = Some ("Bearer " +:+ t) /\ t <> "".

(** The request carries [token] as its bearer token: its [Authorization]
    header is [Bearer] and what [token] prints as. *)
Definition bears (token : JsValue) (req : Request) : Prop :=
  headers req !! "Authorization" = Some ("Bearer " +:+ template token).

(** [x] occurs in [s]. *)
Definition occurs (x s : string) : Prop :=
  exists before after, s = before +:+ x +:+ after.

(** A reply with a status outside 200..299 came back for [ev]. *)
Definition rejected (ev : Event) : Prop :=
  exists req r, ev = EvFetch req (Return r) /\ ok r = false.


Definition has_field (name : string) (parts : list Part) : Prop :=
  exists v, In (FieldPart name v) parts.

(** The remote store answers a download of what it just stored under the
    CID it gave: after an upload of [data] answered with [Mid = c], a [GET]
    of the upload URL followed by [c], with the same authorization, gives
    [data] when it succeeds. *)
Definition content_addressed `{E : Env} : Prop :=
  forall req x resp x1 data filename type rest fields c req2 resp2 x2,
    fetch_ext req x = (Return resp, x1) ->
    body req = FormBody (FilePart "file" data filename type :: rest) ->
    ok resp = true ->
    json resp = JsonObject fields ->
    get_field "Mid" fields = JStr c ->
    fetch_ext req2 x1 = (Return resp2, x2) ->
    method req2 = "GET" ->
    body req2 = NoBody ->
    input (url req2) = input (url req) +:+ c ->
    headers req2 !! "Authorization" = headers req !! "Authorization" ->
    ok resp2 = true ->
    arrayBuffer resp2 = data.

(** Every CID of a batch tried in turn, whatever the earlier ones gave, each
    with its own outcome. *)
Fixpoint attempt_all `{E : Env} (cids : list string) (s : StorageService * World)
  : list (string * Completion (list byte)) * (StorageService * World) :=
  match cids with
  | [] => ([], s)
  | cid :: rest =>
      let (r, s') := retrieveFile cid None s in
      let (rs, s'') := attempt_all rest s' in
      ((cid, r) :: rs, s'')
  end.

Fixpoint retrieved_of `{E : Env} (outcomes : list (string * Completion (list byte)))
  : list RetrievedFile :=
  match outcomes with
  | [] => []
  | (cid, Return fileBuffer) :: rest =>
      {| file_cid := cid; file_content := decode_content fileBuffer;
         file_size := length fileBuffer |} :: retrieved_of rest
  | (_, Throw _) :: rest => retrieved_of rest
  end.

Fixpoint failed_of (outcomes : list (string * Completion (list byte)))
  : list string :=
  match outcomes with
  | [] => []
  | (_, Return _) :: rest => failed_of rest
  | (cid, Throw _) :: rest => cid :: failed_of rest
  end.

(** How [uploadFile] and [retrieveFile] end, from what [fetch] gave. *)
Definition upload_result `{E : Env} (r : Completion Response)
  : Completion JsValue :=
  match r with
  | Throw e => Throw e
  | Return response =>
      if ok response then
        match json response with
        | NotJson => Throw (SyntaxError (JSON_error_message (text response)))
        | JsonNull => Throw (TypeError (null_read_message "Mid"))
        | JsonObject fields => Return (get_field "Mid" fields)
        end
      else Throw (Error (failure_message "Failed to upload file" response))
  end.

Definition retrieve_result (r : Completion Response)
  : Completion (list byte) :=
  match r with
  | Throw e => Throw e
  | Return response =>
      if ok response then Return (arrayBuffer response)
      else Throw (Error (failure_message "Failed to retrieve file" response))
  end.

(** The headers [getAuthHeaders] gives a service that holds a token. *)
Definition auth_headers (this : StorageService) : gmap string string :=
  {[ "Authorization" := "Bearer " +:+ template (accessToken this) ]}.

Definition sent `{E : Env} (req : Request) (r : Completion Response) (x : Ext)
    (w : World) : World :=
  {| ext := x; trace := trace w ++ [EvFetch req r] |}.

(** The token discipline of a storage call that ran from [this], [w] to
    [this'], [w']: every storage request it sent bears the token the
    service holds, a truthy value, which is a text that is not empty when
    the token is a string; started without a token, it sent a storage
    request only after a challenge and an exchange that both succeeded;
    ending without a token, it failed and sent no storage request. *)
Definition authenticated_call `{E : Env} (cfg : MefsConfig)
    (this : StorageService) (w : World) (failed : Prop)
    (this' : StorageService) (w' : World) : Prop :=
  let evs := new_events w w' in
  (forall req r, In (EvFetch req r) evs -> storage_request cfg req ->
     truthy (accessToken this') = true
     /\ bears (accessToken this') req
     /\ (forall t, accessToken this' = JStr t -> bearer_token req))
  /\ (truthy (accessToken this) = false ->
      forall req r, In (EvFetch req r) evs -> storage_request cfg req ->
      exists cr signature lr,
        ok cr = true /\ ok lr = true
        /\ Wallet_signMessage (MEFS_PRIVATE_KEY cfg) (text cr) = Return signature
        /\ evs = [EvFetch (challenge_request cfg) (Return cr);
                  EvFetch (login_request cfg (text cr) signature) (Return lr);
                  EvFetch req r])
  /\ (truthy (accessToken this') = false ->
      failed
      /\ forall req r, In (EvFetch req r) evs -> ~ storage_request cfg req).

Definition not_authenticated : JsError :=
  Error "Not authenticated. Please initialize storage first.".

(** A storage call that ran from [this], [w] to [this'], [w'] on the token
    [this] held: the service is as it was; every request made is a storage
    request and bears that token, so none is a request of the login; and a
    reply outside 200..299 made the call throw the failure of [what] with
    the status and the body of the reply. *)
Definition call_on_held_token `{E : Env} {A} (cfg : MefsConfig)
    (this : StorageService) (w : World) (what : string) (res : Completion A)
    (this' : StorageService) (w' : World) : Prop :=
  this' = this
  /\ (forall req r, In (EvFetch req r) (new_events w w') ->
      storage_request cfg req /\ bears (accessToken this) req)
  /\ (forall req response,
        In (EvFetch req (Return response)) (new_events w w') ->
        ok response = false ->
        res = Throw (Error (failure_message what response))).

(** ** Runs *)

Section Runs.
Context `{E : Env}.

(** What one call of [loginToMEFS] on a configured service can be: how it
    ends, the service it leaves and the requests it made. *)
Inductive login_run (cfg : MefsConfig) (this : StorageService)
  : Completion unit -> StorageService -> list Event -> Prop :=
| login_no_challenge e r1 :
    (forall cr, r1 = Return cr -> ok cr = false) ->
    login_run cfg this (Throw e) this [EvFetch (challenge_request cfg) r1]
| login_no_signature e cr :
    ok cr = true ->
    login_run cfg this (Throw e) this
      [EvFetch (challenge_request cfg) (Return cr)]
| login_no_exchange e cr signature r2 :
    ok cr = true ->
    Wallet_signMessage (MEFS_PRIVATE_KEY cfg) (text cr) = Return signature ->
    login_run cfg this (Throw e) this
      [EvFetch (challenge_request cfg) (Return cr);
       EvFetch (login_request cfg (text cr) signature) r2]
| login_done cr signature lr fields :
    ok cr = true ->
    Wallet_signMessage (MEFS_PRIVATE_KEY cfg) (text cr) = Return signature ->
    ok lr = true ->
    json lr = JsonObject fields ->
    login_run cfg this (Return tt)
      (set_tokens (get_field "accessToken" fields)
         (get_field "refreshToken" fields) this)
      [EvFetch (challenge_request cfg) (Return cr);
       EvFetch (login_request cfg (text cr) signature) (Return lr)].

(** What one call of [uploadFile] or [retrieveFile] on a configured service
    can be: the service it leaves, the requests it made and, when the
    storage request [mk] was sent, what came back for it. *)
Inductive call_run (cfg : MefsConfig) (this : StorageService)
    (mk : StorageService -> Request)
  : StorageService -> list Event -> option (Completion Response) -> Prop :=
| run_sent r :
    truthy (accessToken this) = true ->
    call_run cfg this mk this [EvFetch (mk this) r] (Some r)
| run_not_sent :
    truthy (accessToken this) = true ->
    FormData_impl = NoFormData ->
    call_run cfg this mk this [] None
| run_login_failed e evs :
    truthy (accessToken this) = false ->
    login_run cfg this (Throw e) this evs ->
    call_run cfg this mk this evs None
| run_login_no_token this1 evs :
    truthy (accessToken this) = false ->
    login_run cfg this (Return tt) this1 evs ->
    truthy (accessToken this1) = false ->
    call_run cfg this mk this1 evs None
| run_login_sent this1 evs r :
    truthy (accessToken this) = false ->
    login_run cfg this (Return tt) this1 evs ->
    truthy (accessToken this1) = true ->
    call_run cfg this mk this1 (evs ++ [EvFetch (mk this1) r]) (Some r)
| run_login_not_sent this1 evs :
    truthy (accessToken this) = false ->
    login_run cfg this (Return tt) this1 evs ->
    truthy (accessToken this1) = true ->
    FormData_impl = NoFormData ->
    call_run cfg this mk this1 evs None.

End Runs.

(** ** A small remote store to run the client against *)

Module Demo.

Record Store := {
  files : list (string * list byte);
  mefs_reject : bool;
  challenge_status : N;
  login_status : N;
  login_token : JsValue;
  clock : N
}.

Definition reply (st : N) (t : string) (j : Json) (b : list byte) : Response :=
  {| status := st; text := t; json := j; arrayBuffer := b |}.

Definition cid_of (data : list byte) : string :=
  "bafy" +:+ string_of_list_byte data.

Fixpoint lookup_file (u : string) (fs : list (string * list byte))
  : option (list byte) :=
  match fs with
  | [] => None
  | (u', data) :: rest =>
      if String.eqb u' u then Some data else lookup_file u rest
  end.

Definition put_file (u : string) (data : list byte) (x : Store) : Store :=
  {| files := (u, data) :: files x; mefs_reject := mefs_reject x;
     challenge_status := challenge_status x; login_status := login_status x;
     login_token := login_token x; clock := clock x |}.

Definition serve (req : Request) (x : Store) : Completion Response * Store :=
  match body req with
  | FormBody (FilePart _ data _ _ :: _) =>
      if mefs_reject x then (Return (reply 401 "unauthorized" NotJson []), x)
      else
        (Return (reply 200 "" (JsonObject [("Mid", JStr (cid_of data))]) []),
         put_file (input (url req) +:+ cid_of data) data x)
  | FormBody _ => (Return (reply 400 "no file" NotJson []), x)
  | JsonBody _ =>
      (Return (reply (login_status x) "login"
                 (JsonObject [("accessToken", login_token x);
                              ("refreshToken", JStr "ref1")]) []), x)
  | NoBody =>
      match lookup_file (input (url req)) (files x) with
      | Some data =>
          if mefs_reject x
          then (Return (reply 401 "unauthorized" NotJson []), x)
          else (Return (reply 200 "" NotJson data), x)
      | None =>
          if String.eqb (input (url req)) "https://api.example/challenge"
          then (Return (reply (challenge_status x) "sign-this-xyz" NotJson []), x)
          else (Return (reply 404 "not found" NotJson []), x)
      end
  end.

Definition wallet_address (key : string) : Completion string :=
  if is_hex64 (strip0x key) then Return "0xA11CE"
  else Throw (Error "invalid private key").

Definition parse_cid_text (s : string) : option (N * string) :=
  match s with
  | String "b" (String "a" (String "f" (String "y" _))) => Some (1%N, s)
  | _ => None
  end.

#[local] Instance env : Env := {|
  Ext := Store;
  fetch_ext := serve;
  import_ethers := Return true;
  Wallet_address := wallet_address;
  Wallet_signMessage := fun key message => Return ("sig:" +:+ message);
  FormData_impl := GlobalFormData;
  FormData_boundary := "----boundary";
  zod_url := fun s => String.prefix "http" s;
  zod_int := fun _ => true;
  zod_message := fun _ _ _ => "Invalid";
  Number_toString_large := fun n => pretty n;
  JSON_error_message := fun _ => "Unexpected token in JSON";
  null_read_message :=
    fun k => "Cannot read properties of null (reading '" +:+ k +:+ "')";
  parseInt10 := fun _ => Some 985%Z;
  fs_readFileSync := fun _ _ => Throw (Error "ENOENT");
  Date_now := clock;
  CID_parse := parse_cid_text;
  Buffer_toString_utf8 := string_of_list_byte;
  Buffer_toString_base64 := fun _ => ""
|}.

Definition key_a : string :=
  "aaaaaaaaaaaaaaaaaaaaaaaaaaaaaaaaaaaaaaaaaaaaaaaaaaaaaaaaaaaaaaaa".

Definition settings (key : string) : Runtime :=
  {| getSetting := fun name =>
       if String.eqb name "MEFS_API_URL" then Some "https://api.example"
       else if String.eqb name "MEFS_PRIVATE_KEY" then Some key
       else if String.eqb name "MEFS_CHAIN_ID" then Some "985"
       else if String.eqb name "MEFS_ORIGIN" then Some "https://origin.example"
       else None |}.

Definition config : MefsConfig :=
  {| MEFS_API_URL := "https://api.example";
     MEFS_WALLET_ADDRESS := "0xA11CE";
     MEFS_PRIVATE_KEY := key_a;
     MEFS_CHAIN_ID := 985;
     MEFS_ORIGIN := "https://origin.example" |}.

Definition store0 : Store :=
  {| files := []; mefs_reject := false; challenge_status := 200;
     login_status := 200;
     login_token := JStr "tok1"; clock := 1700000000000 |}.

Definition world (x : Store) : World := {| ext := x; trace := [] |}.

(** A fresh service, a service holding a configuration but no token, and a
    service logged in. *)
Definition fresh : StorageService := new_StorageService (settings key_a).

Definition configured : StorageService := set_config (Some config) fresh.

Definition logged_in : StorageService :=
  set_tokens (JStr "tok1") (JStr "ref1") configured.

Definition hi : list byte := [x48; x49].

Definition text_message (t : string) : Memory :=
  {| content_text := Some t; content_attachments := None |}.

(** A store that answers the challenge with 500, and one that rejects every
    token. *)
Definition store_down : Store :=
  {| files := []; mefs_reject := false; challenge_status := 500;
     login_status := 200;
     login_token := JStr "tok1"; clock := 1700000000000 |}.

(** A store whose exchange answers with an empty array for a token. *)
Definition store_array : Store :=
  {| files := [("https://api.example/mefs/bafyHI", hi)]; mefs_reject := false;
     challenge_status := 200; login_status := 200; login_token := JArr [];
     clock := 1700000000000 |}.

Definition store_rejecting : Store :=
  {| files := []; mefs_reject := true; challenge_status := 200;
     login_status := 200;
     login_token := JStr "tok1"; clock := 1700000000000 |}.


Definition no_attachments : Memory :=
  {| content_text := Some "store this"; content_attachments := None |}.

(** The store after the upload of [HI]. *)
Definition store_hi : Store :=
  ext (snd (snd (uploadFile hi "hi.txt" false None (logged_in, world store0)))).

End Demo.

(** ** [plugin.ts]: [init] *)

(** A value of the [config] object handed to [init]: a string as declared,
    the number the plugin's own [config] block puts for a missing chain id,
    or nothing. *)
Inductive ConfigValue :=
| CfgUndefined
| CfgString (s : string)
| CfgNumber (n : Z).

Section Plugin.
Context `{E : Env}.

(** A [z.string().url().default(d)] field.  A default goes through the
    check like a given value; with a default that passes, leaving the check
    out gives the same. *)
Definition parse_url_field (d : string) (v : ConfigValue) : ZodCode + string :=
  match v with
  | CfgUndefined => if zod_url d then inr d else inl invalid_url
  | CfgString s => if zod_url s then inr s else inl invalid_url
  | CfgNumber _ => inl invalid_type
  end.

(** The [z.string().regex(/^[a-fA-F0-9]{64}$/)] field. *)
Definition parse_key_field (v : ConfigValue) : ZodCode + string :=
  match v with
  | CfgString s => if is_hex64 s then inr s else inl invalid_regex
  | _ => inl invalid_type
  end.

(** The [z.number().int().default(985)] field. *)
Definition parse_chain_field (v : ConfigValue) : ZodCode + Z :=
  match v with
  | CfgUndefined => if zod_int 985 then inr 985%Z else inl invalid_int
  | CfgNumber n => if zod_int n then inr n else inl invalid_int
  | CfgString _ => inl invalid_type
  end.

Definition field_issue {A} (name : string) (r : ZodCode + A)
  : list (string * ZodCode) :=
  match r with
  | inl code => [(name, code)]
  | inr _ => []
  end.

(** The issues of [storageClientEnvSchema.parseAsync(config)]. *)
Definition plugin_issues (config : string -> ConfigValue)
  : list (string * ZodCode) :=
  field_issue "MEFS_API_URL"
    (parse_url_field "https://api.mefs.io:10000/produce" (config "MEFS_API_URL"))
  ++ field_issue "MEFS_PRIVATE_KEY" (parse_key_field (config "MEFS_PRIVATE_KEY"))
  ++ field_issue "MEFS_CHAIN_ID" (parse_chain_field (config "MEFS_CHAIN_ID"))
  ++ field_issue "MEFS_ORIGIN"
       (parse_url_field "https://memo.io" (config "MEFS_ORIGIN")).

Definition config_input (v : ConfigValue) : ZodInput :=
  match v with
  | CfgUndefined => InUndefined
  | CfgString s => InString s
  | CfgNumber n => InNumber n
  end.

(** [error.issues?.map((e) => e.message)?.join(', ') || 'Unknown validation error'] *)
Definition plugin_error_messages (config : string -> ConfigValue)
    (issues : list (string * ZodCode)) : string :=
  let errorMessages :=
    join ", "
      (List.map (fun i => zod_message (fst i) (snd i) (config_input (config (fst i))))
         issues) in
  if String.eqb errorMessages "" then "Unknown validation error"
  else errorMessages.

(** [storagePlugin.init], on [process.env]. *)
Definition plugin_init (config : string -> ConfigValue)
    (process_env : gmap string string)
  : Completion unit * gmap string string :=
  match parse_url_field "https://api.mefs.io:10000/produce"
          (config "MEFS_API_URL"),
        parse_key_field (config "MEFS_PRIVATE_KEY"),
        parse_chain_field (config "MEFS_CHAIN_ID"),
        parse_url_field "https://memo.io" (config "MEFS_ORIGIN") with
  | inr api, inr key, inr chain, inr origin =>
      (Return tt,
       <["MEFS_ORIGIN" := origin]>
         (<["MEFS_CHAIN_ID" := Number_toString chain]>
            (<["MEFS_PRIVATE_KEY" := key]>
               (<["MEFS_API_URL" := api]> process_env))))
  | _, _, _, _ =>
      (Throw (Error ("Invalid plugin configuration: "
                     +:+ plugin_error_messages config (plugin_issues config))),
       process_env)
  end.

End Plugin.

(** ** What the added properties speak of *)

(** [s.slice(n)] *)
Fixpoint string_drop (n : nat) (s : string) : string :=
  match n, s with
  | O, _ => s
  | S n', String _ s' => string_drop n' s'
  | S _, EmptyString => EmptyString
  end.

(** The text made of gaps and matches in turn: a gap, a match, a gap, ...,
    ending with a gap. *)
Fixpoint weave (gaps matches : list string) : string :=
  match gaps, matches with
  | g :: gaps', m :: matches' => g +:+ m +:+ weave gaps' matches'
  | g :: _, [] => g
  | [], _ => ""
  end.

(** What [cidPattern] can match: letters and digits only, and either [Qm]
    and 44 more, or [b] and one or more. *)
Definition candidate (m : string) : bool :=
  string_forallb is_alnum m
  && ((String.prefix "Qm" m && (String.length m =? 46)%nat)
      || (String.prefix "b" m && (2 <=? String.length m)%nat)).

Definition is_upload_event `{E : Env} (ev : Event) : bool :=
  match ev with
  | EvFetch req _ =>
      match body req with
      | FormBody _ => true
      | _ => false
      end
  | EvCallback _ => false
  end.

(** The upload requests among some events. *)
Definition count_uploads `{E : Env} (evs : list Event) : nat :=
  length (List.filter is_upload_event evs).

Definition has_text (response : Memory) : bool :=
  truthy_opt (content_text response).

(** Upload requests that hold the file part and nothing else. *)
Definition only_file_part `{E : Env} (evs : list Event) : Prop :=
  forall req r parts,
    In (EvFetch req r) evs -> body req = FormBody parts ->
    exists data filename type, parts = [FilePart "file" data filename type].

Section MoreRuns.
Context `{E : Env}.

(** The object [validateStorageClientConfig] hands to the schema. *)
Definition raw_config_of (rt : Runtime) : RawConfig :=
  {| raw_API_URL :=
       or_default (getSetting rt "MEFS_API_URL")
                  "https://api.mefs.io:10000/produce";
     raw_PRIVATE_KEY := getSetting rt "MEFS_PRIVATE_KEY";
     raw_CHAIN_ID :=
       if truthy_opt (getSetting rt "MEFS_CHAIN_ID")
       then parseInt10 (default "" (getSetting rt "MEFS_CHAIN_ID"))
       else Some 985%Z;
     raw_ORIGIN := or_default (getSetting rt "MEFS_ORIGIN") "https://memo.io"
  |}.

(** Whether the field [name] of [c] passes its check of the schema. *)
Definition field_ok (c : RawConfig) (name : string) : bool :=
  if String.eqb name "MEFS_API_URL" then zod_url (raw_API_URL c)
  else if String.eqb name "MEFS_PRIVATE_KEY" then
    match raw_PRIVATE_KEY c with Some k => is_hex64 k | None => false end
  else if String.eqb name "MEFS_CHAIN_ID" then
    match raw_CHAIN_ID c with Some n => zod_int n | None => false end
  else if String.eqb name "MEFS_ORIGIN" then zod_url (raw_ORIGIN c)
  else true.

Definition schema_fields : list string :=
  ["MEFS_API_URL"; "MEFS_PRIVATE_KEY"; "MEFS_CHAIN_ID"; "MEFS_ORIGIN"].

(** One turn of the loop over the attachments: read the file, upload it. *)
Definition upload_attachment (attached : Attachment) : M JsValue :=
  let* fileContent := read_file (att_url attached) in
  uploadFile fileContent (attachment_filename attached) false None.

(** One turn of the loop over the responses that have a text. *)
Definition upload_response (response : Memory) : M JsValue :=
  let textBuffer := list_byte_of_string (default "" (content_text response)) in
  let* t := now in
  uploadFile textBuffer ("response_" +:+ pretty t +:+ ".txt") false None.

(** A request the retrieve handler may make for the CIDs [cids] on the
    configuration [cfg]: of the login, or the download of one of them. *)
Definition retrieve_handler_request (cfg : MefsConfig) (cids : list string)
    (req : Request) : Prop :=
  req = challenge_request cfg
  \/ (exists message signature, req = login_request cfg message signature)
  \/ (exists headers cid,
        In cid cids /\ req = retrieve_request cfg headers cid None).

(** A run that began with a login: the first two of its requests [evs] are
    the challenge and the exchange, both answered with a status in 200..299,
    and the service [this'] is [this] with, for tokens, the [accessToken]
    and [refreshToken] fields of the JSON object the exchange was answered
    with. *)
Definition logged_in_by (cfg : MefsConfig) (this : StorageService)
    (evs : list Event) (this' : StorageService) : Prop :=
  exists cr signature lr fields rest,
    evs = EvFetch (challenge_request cfg) (Return cr)
          :: EvFetch (login_request cfg (text cr) signature) (Return lr)
          :: rest
    /\ ok cr = true /\ ok lr = true
    /\ json lr = JsonObject fields
    /\ this' = set_tokens (get_field "accessToken" fields)
                 (get_field "refreshToken" fields) this.

End MoreRuns.

(** ** More of the demonstration *)

Module DemoMore.
Import Demo.

Definition good_config (name : string) : ConfigValue :=
  if String.eqb name "MEFS_PRIVATE_KEY" then CfgString key_a
  else if String.eqb name "MEFS_API_URL" then CfgString "https://api.example"
  else CfgUndefined.

(** The configuration as environment variables give it: the chain id is a
    string. *)
Definition env_config (name : string) : ConfigValue :=
  if String.eqb name "MEFS_CHAIN_ID" then CfgString "985"
  else good_config name.

Definition attachment (url : string) : Attachment :=
  {| att_url := url; att_title := None |}.

Definition with_attachments (l : list Attachment) : Memory :=
  {| content_text := Some "store these"; content_attachments := Some l |}.

Definition response (t : string) : Memory :=
  {| content_text := Some t; content_attachments := None |}.

Definition silent : Memory :=
  {| content_text := None; content_attachments := None |}.

(** A store whose exchange answers 403. *)
Definition store_forbidden : Store :=
  {| files := []; mefs_reject := false; challenge_status := 200;
     login_status := 403;
     login_token := JStr "tok1"; clock := 1700000000000 |}.

(** Settings that give the key and nothing else. *)
Definition settings_key_only (key : string) : Runtime :=
  {| getSetting := fun name =>
       if String.eqb name "MEFS_PRIVATE_KEY" then Some key else None |}.

Definition zero_key : string :=
  "0000000000000000000000000000000000000000000000000000000000000000".

(** A wallet library that refuses the key zero, and a disk with one file. *)
Definition strict_wallet (key : string) : Completion string :=
  if String.eqb (strip0x key) zero_key
  then Throw (Error "invalid private key")
  else wallet_address key.

Definition read_disk (path : string) (x : Store) : Completion (list byte) :=
  if String.eqb path "/data/hi.txt" then Return hi
  else Throw (Error "ENOENT: no such file or directory").

#[local] Instance env2 : Env := {|
  Ext := Store;
  fetch_ext := serve;
  import_ethers := Return true;
  Wallet_address := strict_wallet;
  Wallet_signMessage := fun key message => Return ("sig:" +:+ message);
  FormData_impl := PackageFormData;
  FormData_boundary := "----boundary";
  zod_url := fun s => String.prefix "http" s;
  zod_int := fun _ => true;
  zod_message := fun _ _ _ => "Invalid";
  Number_toString_large := fun n => pretty n;
  JSON_error_message := fun _ => "Unexpected token in JSON";
  null_read_message :=
    fun k => "Cannot read properties of null (reading '" +:+ k +:+ "')";
  parseInt10 := fun _ => Some 985%Z;
  fs_readFileSync := read_disk;
  Date_now := clock;
  CID_parse := parse_cid_text;
  Buffer_toString_utf8 := string_of_list_byte;
  Buffer_toString_base64 := fun _ => ""
|}.

(** The world of the second environment. *)
Definition world2 (x : Store) : @World env2 := @Build_World env2 x [].

(** A message with three attachments, the second of which is not on the
    disk. *)
Definition three_files : Memory :=
  with_attachments [attachment "/data/hi.txt"; attachment "/data/missing.txt";
                    attachment "/data/hi.txt"].

End DemoMore.

(** * Properties *)

(** ** Strings and numbers *)

Lemma append_nil_l (s : string) : "" +:+ s = s.
Proof. reflexivity. Qed.

Lemma append_cons (c : ascii) (a s : string) :
  String c a +:+ s = String c (a +:+ s).
Proof. reflexivity. Qed.

Lemma append_inv_head (s a b : string) : s +:+ a = s +:+ b -> a = b.
Proof.
  induction s as [|c s IH]; simpl; [auto|].
  intros H. injection H as H. auto.
Qed.

Lemma append_assoc (a b c : string) : (a +:+ b) +:+ c = a +:+ (b +:+ c).
Proof.
  induction a as [|x a IH]; [reflexivity|].
  change (String x ((a +:+ b) +:+ c) = String x (a +:+ (b +:+ c))).
  now f_equal.
Qed.

Lemma eqb_empty_false (s : string) : String.eqb s "" = false <-> s <> "".
Proof.
  split.
  - intros H ->. discriminate.
  - intros H. destruct s; [congruence | reflexivity].
Qed.

Lemma truthy_JStr (s : string) : truthy (JStr s) = true -> s <> "".
Proof.
  simpl. intros H. apply eqb_empty_false. now apply negb_true_iff.
Qed.

Lemma occurs_refl (x : string) : occurs x x.
Proof.
  exists "", "". rewrite append_nil_l.
  induction x as [|c x IH]; [reflexivity|].
  rewrite append_cons. now f_equal.
Qed.

Lemma occurs_app_l (x a b : string) : occurs x a -> occurs x (a +:+ b).
Proof.
  intros (before & after & ->). exists before, (after +:+ b).
  now rewrite !append_assoc.
Qed.

Lemma occurs_app_r (x a b : string) : occurs x b -> occurs x (a +:+ b).
Proof.
  intros (before & after & ->). exists (a +:+ before), after.
  now rewrite !append_assoc.
Qed.

Lemma occurs_join (sep x : string) (l : list string) :
  In x l -> occurs x (join sep l).
Proof.
  induction l as [|y l IH]; [intros []|].
  intros [->|Hin].
  - destruct l as [|z l]; [apply occurs_refl|].
    change (join sep (x :: z :: l)) with (x +:+ sep +:+ join sep (z :: l)).
    apply occurs_app_l, occurs_refl.
  - destruct l as [|z l]; [destruct Hin|].
    change (join sep (y :: z :: l)) with (y +:+ sep +:+ join sep (z :: l)).
    apply occurs_app_r, occurs_app_r, IH, Hin.
Qed.

Lemma pretty_N_char_digit (x : N) : is_digit (pretty_N_char x) = true.
Proof. unfold pretty_N_char. repeat case_match; reflexivity. Qed.

Lemma pretty_N_go_digits (x : N) (s : string) :
  string_forallb is_digit s = true ->
  string_forallb is_digit (pretty_N_go x s) = true.
Proof.
  revert s. induction (N.lt_wf_0 x) as [x _ IH]. intros s Hs.
  assert (x = 0 \/ 0 < x)%N as [->|Hpos] by lia.
  - now rewrite pretty_N_go_0.
  - rewrite pretty_N_go_step by assumption. apply IH.
    + now apply N.div_lt.
    + simpl. now rewrite pretty_N_char_digit.
Qed.

Lemma pretty_N_digits (n : N) : string_forallb is_digit (pretty n) = true.
Proof.
  unfold pretty, pretty_N. case_decide; [reflexivity|].
  now apply pretty_N_go_digits.
Qed.

(** A run of digits followed by a space splits in one way only. *)
Lemma digits_space_split (a b t t' : string) :
  string_forallb is_digit a = true ->
  string_forallb is_digit b = true ->
  a +:+ " " +:+ t = b +:+ " " +:+ t' -> a = b /\ t = t'.
Proof.
  revert b. induction a as [|c a IH]; intros [|c' b] Ha Hb H; simpl in *;
    rewrite ?append_cons, ?append_nil_l in H.
  - injection H as ->. now split.
  - injection H as <- _. discriminate Hb.
  - injection H as -> _. discriminate Ha.
  - injection H as -> H.
    apply andb_prop in Ha as [_ Ha]. apply andb_prop in Hb as [_ Hb].
    destruct (IH b Ha Hb H) as [-> ->]. now split.
Qed.

Lemma failure_message_inj (what : string) (r r' : Response) :
  failure_message what r = failure_message what r' ->
  status r = status r' /\ text r = text r'.
Proof.
  unfold failure_message. intros H.
  apply append_inv_head in H.
  rewrite !append_cons, !append_nil_l in H. injection H as H.
  apply digits_space_split in H as [Hs Ht]; auto using pretty_N_digits.
  split; [|assumption]. now apply (inj pretty).
Qed.

Section Proofs.
Context `{E : Env}.

Lemma new_events_app (w w' : World) (evs : list Event) :
  trace w' = trace w ++ evs -> new_events w w' = evs.
Proof. unfold new_events. intros ->. apply drop_app_length. Qed.

(** ** The login protocol, run by run *)

Lemma loginToMEFS_run this w cfg res this' w' :
  mefsConfig this = Some cfg ->
  loginToMEFS (this, w) = (res, (this', w')) ->
  exists evs, login_run cfg this res this' evs /\ trace w' = trace w ++ evs.
Proof.
  intros Hcfg. unfold loginToMEFS, bind, get_this. simpl. rewrite Hcfg.
  unfold catch, bind, fetch, throw. simpl.
  destruct (fetch_ext (challenge_request cfg) (ext w)) as [[cr|e1] x1] eqn:Hch;
    simpl.
  2:{ intros [= <- <- <-]. eexists. split; [|reflexivity].
      apply login_no_challenge. discriminate. }
  destruct (ok cr) eqn:Hok; simpl.
  2:{ intros [= <- <- <-]. eexists. split; [|reflexivity].
      apply login_no_challenge. now intros ? [= <-]. }
  unfold lift. destruct import_ethers as [[|]|e2]; simpl.
  2,3: intros [= <- <- <-]; eexists; (split; [|reflexivity]);
       now apply login_no_signature.
  destruct (Wallet_signMessage (MEFS_PRIVATE_KEY cfg) (text cr))
    as [signature|e3] eqn:Hsig; simpl.
  2:{ intros [= <- <- <-]. eexists. split; [|reflexivity].
      now apply login_no_signature. }
  destruct (fetch_ext (login_request cfg (text cr) signature) x1)
    as [[lr|e4] x2] eqn:Hlg; simpl.
  2:{ intros [= <- <- <-]. eexists. rewrite <- List.app_assoc. simpl.
      split; [|reflexivity]. now eapply login_no_exchange. }
  destruct (ok lr) eqn:Hok2; simpl.
  2:{ intros [= <- <- <-]. eexists. rewrite <- List.app_assoc. simpl.
      split; [|reflexivity]. now eapply login_no_exchange. }
  unfold response_json, read_field, set_this, ret, throw.
  destruct (json lr) as [| |fields] eqn:Hjson; simpl.
  1,2: intros [= <- <- <-]; eexists; rewrite <- List.app_assoc; simpl;
       (split; [|reflexivity]); now eapply login_no_exchange.
  intros [= <- <- <-].
  exists [EvFetch (challenge_request cfg) (Return cr);
          EvFetch (login_request cfg (text cr) signature) (Return lr)].
  split; [|simpl; now rewrite <- List.app_assoc].
  exact (login_done cfg this cr signature lr fields Hok Hsig Hok2 Hjson).
Qed.

(** ** The two storage calls on a service that holds a token *)

Lemma uploadFile_authenticated this w cfg buffer filename publicFile key :
  mefsConfig this = Some cfg ->
  truthy (accessToken this) = true ->
  uploadFile buffer filename publicFile key (this, w) =
  match FormData_impl with
  | NoFormData =>
      (Throw (Error "FormData is not available. Please install 'form-data' package or use Node.js 18+"),
       (this, w))
  | impl =>
      let req :=
        upload_request cfg
          match impl with GlobalFormData => true | _ => false end
          (auth_headers this) buffer filename publicFile key in
      let (r, x) := fetch_ext req (ext w) in
      (upload_result r, (this, sent req r x w))
  end.
Proof.
  intros Hcfg Htok.
  unfold uploadFile, bind, get_this. simpl. rewrite Hcfg, Htok. simpl.
  unfold catch, bind, getAuthHeaders, bind, get_this, throw. simpl.
  destruct FormData_impl; simpl; try reflexivity;
    rewrite Htok; simpl;
    unfold fetch, auth_headers, sent; simpl;
    match goal with
    | |- context [fetch_ext ?q ?x] => destruct (fetch_ext q x) as [[resp|e] x']
    end; simpl; try reflexivity;
    unfold upload_result; destruct (ok resp); simpl; try reflexivity;
    unfold response_json, read_field, ret, throw;
    destruct (json resp); reflexivity.
Qed.

Lemma retrieveFile_authenticated this w cfg cid key :
  mefsConfig this = Some cfg ->
  truthy (accessToken this) = true ->
  retrieveFile cid key (this, w) =
  let req := retrieve_request cfg (auth_headers this) cid key in
  let (r, x) := fetch_ext req (ext w) in
  (retrieve_result r, (this, sent req r x w)).
Proof.
  intros Hcfg Htok.
  unfold retrieveFile, bind, get_this. simpl. rewrite Hcfg, Htok. simpl.
  unfold catch, bind, getAuthHeaders, bind, get_this, throw. simpl.
  rewrite Htok. simpl.
  unfold fetch, auth_headers, sent; simpl.
  match goal with
  | |- context [fetch_ext ?q ?x] => destruct (fetch_ext q x) as [[resp|e] x']
  end; simpl; try reflexivity.
  destruct (ok resp); reflexivity.
Qed.

(** Without a token, the call is the login followed by the same call on
    what the login left, and it stops at [getAuthHeaders] when the login
    returned without a token. *)
Lemma uploadFile_unauthenticated this w cfg buffer filename publicFile key :
  mefsConfig this = Some cfg ->
  truthy (accessToken this) = false ->
  uploadFile buffer filename publicFile key (this, w) =
  match loginToMEFS (this, w) with
  | (Throw e, s) => (Throw e, s)
  | (Return _, (this1, w1)) =>
      if truthy (accessToken this1)
      then uploadFile buffer filename publicFile key (this1, w1)
      else
        match FormData_impl with
        | NoFormData =>
            (Throw (Error "FormData is not available. Please install 'form-data' package or use Node.js 18+"),
             (this1, w1))
        | _ =>
            (Throw (Error "Not authenticated. Please initialize storage first."),
             (this1, w1))
        end
  end.
Proof.
  intros Hcfg Htok.
  destruct (loginToMEFS (this, w)) as [res [this1 w1]] eqn:Hlogin.
  destruct (loginToMEFS_run _ _ _ _ _ _ Hcfg Hlogin) as (evs & Hrun & _).
  assert (Hcfg1 : mefsConfig this1 = Some cfg) by (inversion Hrun; now subst).
  destruct res as [[]|e].
  - destruct (truthy (accessToken this1)) eqn:Htok1.
    + rewrite (uploadFile_authenticated this1 w1 cfg) by assumption.
      unfold uploadFile at 1. unfold bind at 1. unfold get_this. simpl.
      rewrite Hcfg, Htok. simpl. unfold bind at 1. rewrite Hlogin.
      unfold catch, bind, getAuthHeaders, bind, get_this, throw. simpl.
      destruct FormData_impl; simpl; try reflexivity;
        rewrite Htok1; simpl;
        unfold fetch, auth_headers, sent; simpl;
        match goal with
        | |- context [fetch_ext ?q ?x] =>
            destruct (fetch_ext q x) as [[resp|e] x']
        end; simpl; try reflexivity;
        unfold upload_result; destruct (ok resp); simpl; try reflexivity;
        unfold response_json, read_field, ret, throw;
        destruct (json resp); reflexivity.
    + unfold uploadFile, bind at 1. unfold get_this. simpl.
      rewrite Hcfg, Htok. simpl. unfold bind at 1. rewrite Hlogin.
      unfold catch, bind, getAuthHeaders, bind, get_this, throw. simpl.
      destruct FormData_impl; simpl; try reflexivity;
        rewrite Htok1; reflexivity.
  - unfold uploadFile, bind at 1. unfold get_this. simpl.
    rewrite Hcfg, Htok. simpl. unfold bind at 1. now rewrite Hlogin.
Qed.

Lemma retrieveFile_unauthenticated this w cfg cid key :
  mefsConfig this = Some cfg ->
  truthy (accessToken this) = false ->
  retrieveFile cid key (this, w) =
  match loginToMEFS (this, w) with
  | (Throw e, s) => (Throw e, s)
  | (Return _, (this1, w1)) =>
      if truthy (accessToken this1)
      then retrieveFile cid key (this1, w1)
      else
        (Throw (Error "Not authenticated. Please initialize storage first."),
         (this1, w1))
  end.
Proof.
  intros Hcfg Htok.
  destruct (loginToMEFS (this, w)) as [res [this1 w1]] eqn:Hlogin.
  destruct (loginToMEFS_run _ _ _ _ _ _ Hcfg Hlogin) as (evs & Hrun & _).
  assert (Hcfg1 : mefsConfig this1 = Some cfg) by (inversion Hrun; now subst).
  destruct res as [[]|e].
  - destruct (truthy (accessToken this1)) eqn:Htok1.
    + rewrite (retrieveFile_authenticated this1 w1 cfg) by assumption.
      unfold retrieveFile at 1. unfold bind at 1. unfold get_this. simpl.
      rewrite Hcfg, Htok. simpl. unfold bind at 1. rewrite Hlogin.
      unfold catch, bind, getAuthHeaders, bind, get_this, throw. simpl.
      rewrite Htok1. simpl.
      unfold fetch, auth_headers, sent; simpl.
      match goal with
      | |- context [fetch_ext ?q ?x] =>
          destruct (fetch_ext q x) as [[resp|e] x']
      end; simpl; try reflexivity.
      destruct (ok resp); reflexivity.
    + unfold retrieveFile, bind at 1. unfold get_this. simpl.
      rewrite Hcfg, Htok. simpl. unfold bind at 1. rewrite Hlogin.
      unfold catch, bind, getAuthHeaders, bind, get_this, throw. simpl.
      now rewrite Htok1.
  - unfold retrieveFile, bind at 1. unfold get_this. simpl.
    rewrite Hcfg, Htok. simpl. unfold bind at 1. now rewrite Hlogin.
Qed.

(** ** A storage call, run by run *)

Lemma login_run_throw_same cfg this e this' evs :
  login_run cfg this (Throw e) this' evs -> this' = this.
Proof. now inversion 1. Qed.

Lemma login_run_config cfg this res this' evs :
  mefsConfig this = Some cfg ->
  login_run cfg this res this' evs -> mefsConfig this' = Some cfg.
Proof. intros Hcfg Hrun. inversion Hrun; now subst. Qed.

Lemma uploadFile_run this w cfg buffer filename publicFile key res this' w' :
  mefsConfig this = Some cfg ->
  uploadFile buffer filename publicFile key (this, w) = (res, (this', w')) ->
  exists isGlobalFormData evs o,
    call_run cfg this
      (fun t => upload_request cfg isGlobalFormData (auth_headers t) buffer
                  filename publicFile key) this' evs o
    /\ trace w' = trace w ++ evs
    /\ match o with
       | Some r => res = upload_result r
       | None => exists e, res = Throw e
       end.
Proof.
  intros Hcfg.
  destruct (truthy (accessToken this)) eqn:Htok.
  - rewrite (uploadFile_authenticated _ _ _ _ _ _ _ Hcfg Htok).
    destruct FormData_impl eqn:Himpl; simpl.
    3:{ intros [= <- <- <-]. exists true, [], None.
        split; [(eapply run_not_sent; eassumption)|].
        split; [now rewrite List.app_nil_r | eauto]. }
    all: match goal with
         | |- context [fetch_ext (upload_request _ ?b _ _ _ _ _) ?x] =>
             destruct (fetch_ext
                         (upload_request cfg b (auth_headers this) buffer
                            filename publicFile key) x) as [r x1];
             intros [= <- <- <-];
             exists b, [EvFetch (upload_request cfg b (auth_headers this)
                                   buffer filename publicFile key) r], (Some r);
             (split; [|split; reflexivity]);
             exact (run_sent cfg this
                      (fun t => upload_request cfg b (auth_headers t) buffer
                                  filename publicFile key) r Htok)
         end.
  - rewrite (uploadFile_unauthenticated _ _ _ _ _ _ _ Hcfg Htok).
    destruct (loginToMEFS (this, w)) as [lres [this1 w1]] eqn:Hlogin.
    destruct (loginToMEFS_run _ _ _ _ _ _ Hcfg Hlogin) as (evs & Hrun & Htr).
    destruct lres as [[]|e].
    2:{ intros [= <- <- <-]. exists true, evs, None.
        assert (this1 = this) as -> by (eapply login_run_throw_same; eassumption).
        split; [(eapply run_login_failed; eassumption)|]. split; [assumption | eauto]. }
    destruct (truthy (accessToken this1)) eqn:Htok1.
    2:{ destruct FormData_impl; intros [= <- <- <-]; exists true, evs, None;
        (split; [(eapply run_login_no_token; eassumption)|]);
        (split; [assumption | eauto]). }
    pose proof (login_run_config _ _ _ _ _ Hcfg Hrun) as Hcfg1.
    rewrite (uploadFile_authenticated _ _ _ _ _ _ _ Hcfg1 Htok1).
    destruct FormData_impl eqn:Himpl; simpl.
    3:{ intros [= <- <- <-]. exists true, evs, None.
        split; [(eapply run_login_not_sent; eassumption)|].
        split; [assumption | eauto]. }
    all: match goal with
         | |- context [fetch_ext (upload_request _ ?b _ _ _ _ _) ?x] =>
             destruct (fetch_ext
                         (upload_request cfg b (auth_headers this1) buffer
                            filename publicFile key) x) as [r x1];
             intros [= <- <- <-];
             exists b, (evs ++ [EvFetch (upload_request cfg b
                                           (auth_headers this1) buffer
                                           filename publicFile key) r]),
               (Some r);
             (split;
              [|split; [simpl; rewrite Htr; now rewrite <- List.app_assoc
                       |reflexivity]]);
             exact (run_login_sent cfg this
                      (fun t => upload_request cfg b (auth_headers t) buffer
                                  filename publicFile key) this1 evs r Htok
                      Hrun Htok1)
         end.
Qed.

Lemma retrieveFile_run this w cfg cid key res this' w' :
  mefsConfig this = Some cfg ->
  retrieveFile cid key (this, w) = (res, (this', w')) ->
  exists evs o,
    call_run cfg this
      (fun t => retrieve_request cfg (auth_headers t) cid key) this' evs o
    /\ trace w' = trace w ++ evs
    /\ match o with
       | Some r => res = retrieve_result r
       | None => exists e, res = Throw e
       end.
Proof.
  intros Hcfg.
  destruct (truthy (accessToken this)) eqn:Htok.
  - rewrite (retrieveFile_authenticated _ _ _ _ _ Hcfg Htok). simpl.
    match goal with
    | |- context [fetch_ext ?q ?x] => destruct (fetch_ext q x) as [r x1]
    end. intros [= <- <- <-].
    eexists _, (Some r). split; [|split; reflexivity].
    exact (run_sent cfg this
             (fun t => retrieve_request cfg (auth_headers t) cid key) r Htok).
  - rewrite (retrieveFile_unauthenticated _ _ _ _ _ Hcfg Htok).
    destruct (loginToMEFS (this, w)) as [lres [this1 w1]] eqn:Hlogin.
    destruct (loginToMEFS_run _ _ _ _ _ _ Hcfg Hlogin) as (evs & Hrun & Htr).
    destruct lres as [[]|e].
    2:{ intros [= <- <- <-]. exists evs, None.
        assert (this1 = this) as -> by (eapply login_run_throw_same; eassumption).
        split; [(eapply run_login_failed; eassumption)|]. split; [assumption | eauto]. }
    destruct (truthy (accessToken this1)) eqn:Htok1.
    2:{ intros [= <- <- <-]. exists evs, None.
        split; [(eapply run_login_no_token; eassumption)|].
        split; [assumption | eauto]. }
    pose proof (login_run_config _ _ _ _ _ Hcfg Hrun) as Hcfg1.
    rewrite (retrieveFile_authenticated _ _ _ _ _ Hcfg1 Htok1). simpl.
    match goal with
    | |- context [fetch_ext ?q ?x] => destruct (fetch_ext q x) as [r x1]
    end. intros [= <- <- <-].
    eexists _, (Some r).
    split; [|split; [simpl; rewrite Htr; now rewrite <- List.app_assoc
                    |reflexivity]].
    exact (run_login_sent cfg this
             (fun t => retrieve_request cfg (auth_headers t) cid key) this1
             evs r Htok Hrun Htok1).
Qed.

Lemma challenge_not_storage cfg : ~ storage_request cfg (challenge_request cfg).
Proof.
  intros [rest H]. simpl in H. apply append_inv_head in H. discriminate.
Qed.

Lemma login_not_storage cfg m sg : ~ storage_request cfg (login_request cfg m sg).
Proof.
  intros [rest H]. simpl in H. apply append_inv_head in H. discriminate.
Qed.

Lemma login_run_not_storage cfg this res this' evs req r :
  login_run cfg this res this' evs ->
  In (EvFetch req r) evs -> ~ storage_request cfg req.
Proof.
  intros Hrun Hin. inversion Hrun; subst; simpl in Hin;
    repeat match goal with
           | H : _ \/ _ |- _ => destruct H
           | H : EvFetch _ _ = EvFetch _ _ |- _ => injection H as <- <-
           | H : False |- _ => destruct H
           end;
    auto using challenge_not_storage, login_not_storage.
Qed.

(** The headers of [getAuthHeaders] give the token of the service, in an
    upload as in a download. *)
Lemma auth_headers_bears this isGlobalFormData :
  upload_headers isGlobalFormData (auth_headers this) !! "Authorization"
  = Some ("Bearer " +:+ template (accessToken this))
  /\ auth_headers this !! "Authorization"
     = Some ("Bearer " +:+ template (accessToken this)).
Proof.
  unfold auth_headers, upload_headers, FormData_getHeaders.
  assert (Hl : ({[ "Authorization" := "Bearer " +:+ template (accessToken this) ]}
                : gmap string string)
               !! "Authorization"
               = Some ("Bearer " +:+ template (accessToken this)))
    by apply lookup_singleton_eq.
  split; [|assumption].
  destruct isGlobalFormData; [assumption|].
  rewrite lookup_union_r; [assumption|].
  now apply lookup_singleton_ne.
Qed.

Lemma bears_string token req t :
  truthy token = true -> bears token req -> token = JStr t -> bearer_token req.
Proof.
  intros Htok Hb ->. exists t. split; [exact Hb|]. now apply truthy_JStr.
Qed.

(** The token discipline, for any storage call whose request is under
    [/mefs/] and carries the headers of [getAuthHeaders]. *)
Lemma call_run_authenticated cfg this mk this' evs o w w' (failed : Prop) :
  (forall t, storage_request cfg (mk t)) ->
  (forall t, bears (accessToken t) (mk t)) ->
  call_run cfg this mk this' evs o ->
  trace w' = trace w ++ evs ->
  (o = None -> failed) ->
  authenticated_call cfg this w failed this' w'.
Proof.
  intros Hst Hbear Hrun Htr Hfail. unfold authenticated_call.
  rewrite (new_events_app _ _ _ Htr).
  destruct Hrun as [r Htok|Htok Himpl|e evs Htok Hl|this1 evs Htok Hl Htok1
                   |this1 evs r Htok Hl Htok1|this1 evs Htok Hl Htok1 Himpl].
  - split; [|split]; try congruence.
    intros req r0 [[= <- <-]|[]] _.
    split; [assumption|]. split; [apply Hbear|].
    intros t. now apply bears_string.
  - split; [|split]; try congruence. intros req r0 [].
  - split; [|split].
    + intros req r0 Hin Hs. now destruct (login_run_not_storage _ _ _ _ _ _ _ Hl Hin).
    + intros _ req r0 Hin Hs.
      now destruct (login_run_not_storage _ _ _ _ _ _ _ Hl Hin).
    + intros _. split; [auto|]. intros req r0 Hin.
      exact (login_run_not_storage _ _ _ _ _ _ _ Hl Hin).
  - split; [|split].
    + intros req r0 Hin Hs. now destruct (login_run_not_storage _ _ _ _ _ _ _ Hl Hin).
    + intros _ req r0 Hin Hs.
      now destruct (login_run_not_storage _ _ _ _ _ _ _ Hl Hin).
    + intros _. split; [auto|]. intros req r0 Hin.
      exact (login_run_not_storage _ _ _ _ _ _ _ Hl Hin).
  - split; [|split]; try congruence.
    + intros req r0 Hin Hs. apply in_app_or in Hin as [Hin|[[= <- <-]|[]]].
      * now destruct (login_run_not_storage _ _ _ _ _ _ _ Hl Hin).
      * split; [assumption|]. split; [apply Hbear|].
        intros t. now apply bears_string.
    + intros _ req r0 Hin Hs. apply in_app_or in Hin as [Hin|[[= <- <-]|[]]].
      * now destruct (login_run_not_storage _ _ _ _ _ _ _ Hl Hin).
      * inversion Hl; subst. now exists cr, signature, lr.
  - split; [|split]; try congruence.
    + intros req r0 Hin Hs. now destruct (login_run_not_storage _ _ _ _ _ _ _ Hl Hin).
    + intros _ req r0 Hin Hs.
      now destruct (login_run_not_storage _ _ _ _ _ _ _ Hl Hin).
Qed.

(** ** The session *)

(** C5. [initializeStorage] on a service that already holds a configuration
    and an access token returns at once: no request is made, and the service
    and the world are left exactly as they were. *)
Theorem initializeStorage_idempotent this w :
  is_Some (mefsConfig this) ->
  truthy (accessToken this) = true ->
  initializeStorage (this, w) = (Return tt, (this, w)).
Proof.
  intros Hcfg Htok. unfold initializeStorage, catch, bind, get_this. simpl.
  rewrite bool_decide_eq_true_2 by assumption. now rewrite Htok.
Qed.

Lemma loginToMEFS_unconfigured this w :
  mefsConfig this = None ->
  loginToMEFS (this, w)
  = (Throw (Error "Storage config not initialized"), (this, w)).
Proof.
  intros Hcfg. unfold loginToMEFS, bind, get_this. simpl. now rewrite Hcfg.
Qed.

Lemma new_events_same (w : World) : new_events w w = [].
Proof. unfold new_events. apply drop_all. Qed.

Lemma login_run_starts cfg this res this' evs :
  login_run cfg this res this' evs ->
  exists r rest, evs = EvFetch (challenge_request cfg) r :: rest.
Proof. inversion 1; subst; eauto. Qed.

(** C4. When the challenge request or the login exchange of a
    [loginToMEFS] call is answered with a status outside 200..299, the call
    throws and leaves the service as it was -- [accessToken] and
    [refreshToken] included -- and whatever the world then is, the next
    [loginToMEFS] starts again with the challenge request. *)
Theorem loginToMEFS_failure_keeps_session this w res this' w' :
  loginToMEFS (this, w) = (res, (this', w')) ->
  Exists rejected (new_events w w') ->
  (exists e, res = Throw e)
  /\ this' = this
  /\ accessToken this' = accessToken this
  /\ refreshToken this' = refreshToken this
  /\ forall w2 res2 this2 w2',
       loginToMEFS (this', w2) = (res2, (this2, w2')) ->
       exists cfg r rest,
         mefsConfig this' = Some cfg
         /\ new_events w2 w2' = EvFetch (challenge_request cfg) r :: rest.
Proof.
  intros Hlogin Hrej.
  destruct (mefsConfig this) as [cfg|] eqn:Hcfg.
  2:{ rewrite (loginToMEFS_unconfigured _ _ Hcfg) in Hlogin.
      injection Hlogin as <- <- <-. rewrite new_events_same in Hrej.
      inversion Hrej. }
  destruct (loginToMEFS_run _ _ _ _ _ _ Hcfg Hlogin) as (evs & Hrun & Htr).
  rewrite (new_events_app _ _ _ Htr) in Hrej.
  assert (Hthrow : (exists e, res = Throw e) /\ this' = this).
  { inversion Hrun; subst; try (split; [eauto|reflexivity]).
    exfalso. apply List.Exists_exists in Hrej as (ev & Hin & req & r & -> & Hno).
    destruct Hin as [[= <- <-]|[[= <- <-]|[]]]; congruence. }
  destruct Hthrow as [Hthrow ->]. repeat split; try assumption.
  intros w2 res2 this2 w2' Hlogin2.
  destruct (loginToMEFS_run _ _ _ _ _ _ Hcfg Hlogin2) as (evs2 & Hrun2 & Htr2).
  destruct (login_run_starts _ _ _ _ _ Hrun2) as (r & rest & ->).
  exists cfg, r, rest. split; [assumption|]. now apply new_events_app.
Qed.

(** C2, as the code has it. On a configured service, every request
    [uploadFile] or [retrieveFile] sends to the store carries
    [Authorization: Bearer] followed by what the access token of the
    service prints as, and that token is truthy; when it is a string, as the
    service declares it, the request carries a bearer token that is not
    empty.  A call started without a token sends its storage request only
    after a challenge fetch, a signature and an exchange that all succeeded;
    and a call that ends without a token failed and sent no storage request
    -- when the login returned without giving a token, the call throws the
    not-authenticated error at once ([uploadFile] looks for a [FormData]
    implementation first). *)
Theorem storage_requests_carry_token this w cfg :
  mefsConfig this = Some cfg ->
  (forall buffer filename publicFile key res this' w',
     uploadFile buffer filename publicFile key (this, w) = (res, (this', w')) ->
     authenticated_call cfg this w (exists e, res = Throw e) this' w'
     /\ forall this1 w1,
         truthy (accessToken this) = false ->
         loginToMEFS (this, w) = (Return tt, (this1, w1)) ->
         truthy (accessToken this1) = false ->
         FormData_impl <> NoFormData ->
         res = Throw not_authenticated /\ this' = this1 /\ w' = w1)
  /\ (forall cid key res this' w',
        retrieveFile cid key (this, w) = (res, (this', w')) ->
        authenticated_call cfg this w (exists e, res = Throw e) this' w'
        /\ forall this1 w1,
            truthy (accessToken this) = false ->
            loginToMEFS (this, w) = (Return tt, (this1, w1)) ->
            truthy (accessToken this1) = false ->
            res = Throw not_authenticated /\ this' = this1 /\ w' = w1).
Proof.
  intros Hcfg. split.
  - intros buffer filename publicFile key res this' w' Hcall. split.
    + destruct (uploadFile_run _ _ _ _ _ _ _ _ _ _ Hcfg Hcall)
        as (isG & evs & o & Hrun & Htr & Hres).
      eapply call_run_authenticated; try eassumption.
      * intros t. now exists "".
      * intros t. exact (proj1 (auth_headers_bears t isG)).
      * intros ->. assumption.
    + intros this1 w1 Htok Hlogin Htok1 Himpl.
      rewrite (uploadFile_unauthenticated _ _ _ _ _ _ _ Hcfg Htok) in Hcall.
      rewrite Hlogin, Htok1 in Hcall.
      destruct FormData_impl; try congruence;
        now injection Hcall as <- <- <-.
  - intros cid key res this' w' Hcall. split.
    + destruct (retrieveFile_run _ _ _ _ _ _ _ _ Hcfg Hcall)
        as (evs & o & Hrun & Htr & Hres).
      eapply call_run_authenticated; try eassumption.
      * intros t. unfold retrieve_request, retrieve_url, storage_request.
        exists cid. now destruct (truthy_opt key).
      * intros t. exact (proj2 (auth_headers_bears t true)).
      * intros ->. assumption.
    + intros this1 w1 Htok Hlogin Htok1.
      rewrite (retrieveFile_unauthenticated _ _ _ _ _ Hcfg Htok) in Hcall.
      rewrite Hlogin, Htok1 in Hcall. now injection Hcall as <- <- <-.
Qed.

(** ** The upload request *)

Lemma upload_parts_fields isGlobalFormData buffer filename publicFile key :
  let parts := upload_parts isGlobalFormData buffer filename publicFile key in
  (In (FieldPart "public" "true") parts <-> publicFile = true)
  /\ (has_field "public" parts <-> publicFile = true)
  /\ (has_field "key" parts
      <-> publicFile = false /\ exists k, key = Some k /\ k <> "")
  /\ (forall v, In (FieldPart "key" v) parts -> key = Some v)
  /\ ~ (has_field "public" parts /\ has_field "key" parts).
Proof.
  unfold upload_parts, has_field. simpl.
  destruct publicFile, key as [k|]; simpl;
    try destruct (String.eqb_spec k ""); simpl; subst;
    repeat split; unfold not; intros;
    repeat match goal with
           | H : _ /\ _ |- _ => destruct H
           | H : exists _, _ |- _ => destruct H
           | H : _ \/ _ |- _ => destruct H
           | H : False |- _ => destruct H
           | H : FilePart _ _ _ _ = FieldPart _ _ |- _ => discriminate H
           | H : FieldPart _ _ = FieldPart _ _ |- _ => injection H as H
           | H : Some _ = Some _ |- _ => injection H as H
           end;
    subst; try discriminate; try congruence; eauto 6.
Qed.

Lemma login_run_no_form cfg this res this' evs req r parts :
  login_run cfg this res this' evs ->
  In (EvFetch req r) evs -> body req <> FormBody parts.
Proof.
  intros Hrun Hin. inversion Hrun; subst; simpl in Hin;
    repeat match goal with
           | H : _ \/ _ |- _ => destruct H
           | H : EvFetch _ _ = EvFetch _ _ |- _ => injection H as <- <-
           | H : False |- _ => destruct H
           end; discriminate.
Qed.

Lemma uploadFile_unconfigured this w buffer filename publicFile key :
  mefsConfig this = None ->
  uploadFile buffer filename publicFile key (this, w)
  = (Throw (Error "Storage config not initialized"), (this, w)).
Proof.
  intros Hcfg. unfold uploadFile, bind, get_this. simpl. now rewrite Hcfg.
Qed.

Lemma retrieveFile_unconfigured this w cid key :
  mefsConfig this = None ->
  retrieveFile cid key (this, w)
  = (Throw (Error "Storage config not initialized"), (this, w)).
Proof.
  intros Hcfg. unfold retrieveFile, bind, get_this. simpl. now rewrite Hcfg.
Qed.

(** C7. Whatever [uploadFile] is called with, the multipart body of the
    request it sends has a [public] field, of value [true], exactly when
    [publicFile] is true, and a [key] field exactly when [publicFile] is
    false and a key is given (a string that is not empty); the two fields
    never come together, so a key given with [publicFile] true is not sent.
    A call that returns did send such a body. *)
Theorem upload_public_key_exclusive this w buffer filename publicFile key
    res this' w' :
  uploadFile buffer filename publicFile key (this, w) = (res, (this', w')) ->
  (forall req r parts,
     In (EvFetch req r) (new_events w w') ->
     body req = FormBody parts ->
     (In (FieldPart "public" "true") parts <-> publicFile = true)
     /\ (has_field "public" parts <-> publicFile = true)
     /\ (has_field "key" parts
         <-> publicFile = false /\ exists k, key = Some k /\ k <> "")
     /\ (forall v, In (FieldPart "key" v) parts -> key = Some v)
     /\ ~ (has_field "public" parts /\ has_field "key" parts))
  /\ (forall cid, res = Return cid ->
      exists req r parts,
        In (EvFetch req r) (new_events w w') /\ body req = FormBody parts).
Proof.
  intros Hcall.
  destruct (mefsConfig this) as [cfg|] eqn:Hcfg.
  2:{ rewrite (uploadFile_unconfigured _ _ _ _ _ _ Hcfg) in Hcall.
      injection Hcall as <- <- <-. rewrite new_events_same.
      split; [intros ? ? ? []|discriminate]. }
  destruct (uploadFile_run _ _ _ _ _ _ _ _ _ _ Hcfg Hcall)
    as (isG & evs & o & Hrun & Htr & Hres).
  rewrite (new_events_app _ _ _ Htr). split.
  - intros req r parts Hin Hbody.
    assert (Hparts : parts = upload_parts isG buffer filename publicFile key).
    { destruct Hrun; simpl in Hin;
        try (now destruct (login_run_no_form _ _ _ _ _ _ _ parts H0 Hin));
        try (apply in_app_or in Hin as [Hin|Hin];
             [now destruct (login_run_no_form _ _ _ _ _ _ _ parts H0 Hin)|]);
        try destruct Hin as [[= <- <-]|[]]; try destruct Hin;
        simpl in Hbody; congruence. }
    subst parts. apply upload_parts_fields.
  - intros cid ->. destruct Hrun; try (destruct Hres; discriminate).
    + eexists _, _, _. split; [now left | reflexivity].
    + eexists _, _, _. split; [apply in_or_app; right; now left | reflexivity].
Qed.

(** ** Failures of the storage calls *)

Lemma call_run_storage_event cfg this mk this' evs o req r :
  call_run cfg this mk this' evs o ->
  In (EvFetch req r) evs ->
  storage_request cfg req ->
  o = Some r /\ req = mk this'.
Proof.
  intros Hrun Hin Hs.
  destruct Hrun; simpl in Hin;
    try (now destruct (login_run_not_storage _ _ _ _ _ _ _ H0 Hin));
    try (apply in_app_or in Hin as [Hin|Hin];
         [now destruct (login_run_not_storage _ _ _ _ _ _ _ H0 Hin)|]);
    try destruct Hin as [[= <- <-]|[]]; try destruct Hin; now split.
Qed.

(** C9. When the reply to the storage request of [uploadFile] or
    [retrieveFile] has a status outside 200..299, the call throws -- the
    error reaches the caller -- an [Error] whose message is
    [Failed to upload file: <status> <body>], respectively
    [Failed to retrieve file: <status> <body>]; status and body can be read
    back from the message, and the two messages are never the same. *)
Theorem storage_failure_reported this w cfg :
  mefsConfig this = Some cfg ->
  (forall buffer filename publicFile key res this' w' req response,
     uploadFile buffer filename publicFile key (this, w) = (res, (this', w')) ->
     In (EvFetch req (Return response)) (new_events w w') ->
     storage_request cfg req ->
     ok response = false ->
     res = Throw (Error ("Failed to upload file: " +:+ pretty (status response)
                         +:+ " " +:+ text response)))
  /\ (forall cid key res this' w' req response,
        retrieveFile cid key (this, w) = (res, (this', w')) ->
        In (EvFetch req (Return response)) (new_events w w') ->
        storage_request cfg req ->
        ok response = false ->
        res = Throw (Error ("Failed to retrieve file: "
                            +:+ pretty (status response)
                            +:+ " " +:+ text response)))
  /\ (forall what r r',
        failure_message what r = failure_message what r' ->
        status r = status r' /\ text r = text r')
  /\ (forall r r',
        failure_message "Failed to upload file" r
        <> failure_message "Failed to retrieve file" r').
Proof.
  intros Hcfg. split; [|split; [|split]].
  - intros buffer filename publicFile key res this' w' req response
      Hcall Hin Hs Hno.
    destruct (uploadFile_run _ _ _ _ _ _ _ _ _ _ Hcfg Hcall)
      as (isG & evs & o & Hrun & Htr & Hres).
    rewrite (new_events_app _ _ _ Htr) in Hin.
    destruct (call_run_storage_event _ _ _ _ _ _ _ _ Hrun Hin Hs) as [-> _].
    rewrite Hres. simpl. now rewrite Hno.
  - intros cid key res this' w' req response Hcall Hin Hs Hno.
    destruct (retrieveFile_run _ _ _ _ _ _ _ _ Hcfg Hcall)
      as (evs & o & Hrun & Htr & Hres).
    rewrite (new_events_app _ _ _ Htr) in Hin.
    destruct (call_run_storage_event _ _ _ _ _ _ _ _ Hrun Hin Hs) as [-> _].
    rewrite Hres. simpl. now rewrite Hno.
  - apply failure_message_inj.
  - intros r r' H. unfold failure_message in H. simpl in H. discriminate H.
Qed.

(** ** Round trip through the store *)

Lemma upload_retrieve_authenticated this w cfg buffer filename c this1 w1
    buffer' this2 w2 :
  content_addressed ->
  mefsConfig this = Some cfg ->
  truthy (accessToken this) = true ->
  uploadFile buffer filename false None (this, w)
  = (Return (JStr c), (this1, w1)) ->
  retrieveFile c None (this1, w1) = (Return buffer', (this2, w2)) ->
  buffer' = buffer.
Proof.
  intros Hstore Hcfg Htok.
  rewrite (uploadFile_authenticated _ _ _ _ _ _ _ Hcfg Htok).
  pose proof (proj2 (auth_headers_bears this true)) as Hauth.
  pose proof (fun isG => proj1 (auth_headers_bears this isG)) as Hup.
  destruct FormData_impl eqn:Himpl; [| |discriminate]; simpl;
    match goal with
    | |- context [fetch_ext ?q ?x] =>
        destruct (fetch_ext q x) as [[resp|e] x1] eqn:Hfetch
    end; simpl; try discriminate;
    (destruct (ok resp) eqn:Hok; [|discriminate]);
    (destruct (json resp) as [| |fields] eqn:Hjson; try discriminate);
    intros [= Hmid <- <-];
    rewrite (retrieveFile_authenticated _ _ _ _ _ Hcfg Htok); simpl;
    match goal with
    | |- context [fetch_ext ?q ?x] =>
        destruct (fetch_ext q x) as [[resp2|e2] x2] eqn:Hfetch2
    end; simpl; try discriminate;
    (destruct (ok resp2) eqn:Hok2; [|discriminate]);
    intros [= <- _ _];
    (eapply Hstore;
     [exact Hfetch | reflexivity | exact Hok | exact Hjson | exact Hmid
     | exact Hfetch2 | reflexivity | reflexivity
     | simpl; now rewrite append_assoc
     | transitivity (Some ("Bearer " +:+ template (accessToken this)));
       [exact Hauth | symmetry; first [exact (Hup true) | exact (Hup false)]]
     | exact Hok2]).
Qed.

(** C1. Against a content-addressed store: when [uploadFile] of [buffer]
    under [filename], private and without a key, returns the CID [c] and the
    [retrieveFile] of [c] that follows returns, the bytes it returns are
    [buffer]. *)
Theorem upload_retrieve_roundtrip this w buffer filename c this1 w1 buffer'
    this2 w2 :
  content_addressed ->
  uploadFile buffer filename false None (this, w)
  = (Return (JStr c), (this1, w1)) ->
  retrieveFile c None (this1, w1) = (Return buffer', (this2, w2)) ->
  buffer' = buffer.
Proof.
  intros Hstore Hup Hget.
  destruct (mefsConfig this) as [cfg|] eqn:Hcfg.
  2:{ rewrite (uploadFile_unconfigured _ _ _ _ _ _ Hcfg) in Hup.
      discriminate. }
  destruct (truthy (accessToken this)) eqn:Htok.
  { eapply upload_retrieve_authenticated; eassumption. }
  rewrite (uploadFile_unauthenticated _ _ _ _ _ _ _ Hcfg Htok) in Hup.
  destruct (loginToMEFS (this, w)) as [lres [thisL wL]] eqn:Hlogin.
  destruct (loginToMEFS_run _ _ _ _ _ _ Hcfg Hlogin) as (evs & Hrun & _).
  destruct lres as [[]|e]; [|discriminate].
  pose proof (login_run_config _ _ _ _ _ Hcfg Hrun) as HcfgL.
  destruct (truthy (accessToken thisL)) eqn:HtokL.
  - eapply upload_retrieve_authenticated; eassumption.
  - destruct FormData_impl; discriminate.
Qed.

(** ** Stopping, and replies that reject the token *)

Lemma catch_rethrow {A} (m : M A) s : catch m (fun error => throw error) s = m s.
Proof. unfold catch, throw. now destruct (m s) as [[a|e] s']. Qed.

Lemma call_run_keeps cfg this mk this' evs o :
  truthy (accessToken this) = true ->
  call_run cfg this mk this' evs o ->
  this' = this
  /\ forall req r, In (EvFetch req r) evs -> req = mk this.
Proof.
  intros Htok Hrun. destruct Hrun; try congruence.
  - split; [reflexivity|]. now intros req r0 [[= <- <-]|[]].
  - split; [reflexivity|]. intros req r0 [].
Qed.

Lemma uploadFile_on_held_token this w cfg buffer filename publicFile key res
    this' w' :
  mefsConfig this = Some cfg ->
  truthy (accessToken this) = true ->
  uploadFile buffer filename publicFile key (this, w) = (res, (this', w')) ->
  call_on_held_token cfg this w "Failed to upload file" res this' w'.
Proof.
  intros Hcfg Htok Hcall.
  destruct (uploadFile_run _ _ _ _ _ _ _ _ _ _ Hcfg Hcall)
    as (isG & evs & o & Hrun & Htr & Hres).
  destruct (call_run_keeps _ _ _ _ _ _ Htok Hrun) as [-> Hev].
  unfold call_on_held_token. rewrite (new_events_app _ _ _ Htr).
  assert (Hst : forall req r, In (EvFetch req r) evs -> storage_request cfg req).
  { intros req r Hin. rewrite (Hev _ _ Hin). now exists "". }
  split; [reflexivity|]. split.
  - intros req r Hin. split; [exact (Hst _ _ Hin)|].
    rewrite (Hev _ _ Hin). exact (proj1 (auth_headers_bears this isG)).
  - intros req response Hin Hno.
    destruct (call_run_storage_event _ _ _ _ _ _ _ _ Hrun Hin (Hst _ _ Hin))
      as [-> _].
    rewrite Hres. simpl. now rewrite Hno.
Qed.

Lemma retrieveFile_on_held_token this w cfg cid key res this' w' :
  mefsConfig this = Some cfg ->
  truthy (accessToken this) = true ->
  retrieveFile cid key (this, w) = (res, (this', w')) ->
  call_on_held_token cfg this w "Failed to retrieve file" res this' w'.
Proof.
  intros Hcfg Htok Hcall.
  destruct (retrieveFile_run _ _ _ _ _ _ _ _ Hcfg Hcall)
    as (evs & o & Hrun & Htr & Hres).
  destruct (call_run_keeps _ _ _ _ _ _ Htok Hrun) as [-> Hev].
  unfold call_on_held_token. rewrite (new_events_app _ _ _ Htr).
  assert (Hst : forall req r, In (EvFetch req r) evs -> storage_request cfg req).
  { intros req r Hin. rewrite (Hev _ _ Hin). exists cid. simpl.
    unfold retrieve_url. now destruct (truthy_opt key). }
  split; [reflexivity|]. split.
  - intros req r Hin. split; [exact (Hst _ _ Hin)|].
    rewrite (Hev _ _ Hin). exact (proj2 (auth_headers_bears this true)).
  - intros req response Hin Hno.
    destruct (call_run_storage_event _ _ _ _ _ _ _ _ Hrun Hin (Hst _ _ Hin))
      as [-> _].
    rewrite Hres. simpl. now rewrite Hno.
Qed.

(** C3, as the code has it. [stop] clears the configuration and nothing
    else: both tokens stay, [uploadFile] and [retrieveFile] then throw
    [Storage config not initialized] without a request, and the next
    [initializeStorage] validates the configuration again and runs the whole
    login.  A storage call made with a token held leaves the service as it
    was whatever the store replies; every request it makes is a storage
    request bearing the held token, none a request of the login; a reply
    outside 200..299 -- a rejection of the token included -- makes the call
    throw the failure with the status and the body of the reply; and the
    call that comes next, upload or download, again bears the same token
    and makes no login request. *)
Theorem stop_and_rejection_keep_tokens this w :
  stop (this, w) = (Return tt, (set_config None this, w))
  /\ accessToken (set_config None this) = accessToken this
  /\ refreshToken (set_config None this) = refreshToken this
  /\ (forall buffer filename publicFile key,
        uploadFile buffer filename publicFile key (set_config None this, w)
        = (Throw (Error "Storage config not initialized"),
           (set_config None this, w)))
  /\ (forall cid key,
        retrieveFile cid key (set_config None this, w)
        = (Throw (Error "Storage config not initialized"),
           (set_config None this, w)))
  /\ (forall rt cfg,
        runtime this = Some rt ->
        validateStorageClientConfig rt = Return cfg ->
        initializeStorage (set_config None this, w)
        = loginToMEFS (set_config (Some cfg) this, w))
  /\ (forall cfg,
        mefsConfig this = Some cfg ->
        truthy (accessToken this) = true ->
        (forall buffer filename publicFile key res this' w',
           uploadFile buffer filename publicFile key (this, w)
           = (res, (this', w')) ->
           call_on_held_token cfg this w "Failed to upload file" res this' w'
           /\ (forall buffer2 filename2 publicFile2 key2 res2 this2 w2,
                 uploadFile buffer2 filename2 publicFile2 key2 (this', w')
                 = (res2, (this2, w2)) ->
                 call_on_held_token cfg this w' "Failed to upload file" res2
                   this2 w2)
           /\ (forall cid2 key2 res2 this2 w2,
                 retrieveFile cid2 key2 (this', w') = (res2, (this2, w2)) ->
                 call_on_held_token cfg this w' "Failed to retrieve file" res2
                   this2 w2))
        /\ (forall cid key res this' w',
              retrieveFile cid key (this, w) = (res, (this', w')) ->
              call_on_held_token cfg this w "Failed to retrieve file" res
                this' w'
              /\ (forall buffer2 filename2 publicFile2 key2 res2 this2 w2,
                    uploadFile buffer2 filename2 publicFile2 key2 (this', w')
                    = (res2, (this2, w2)) ->
                    call_on_held_token cfg this w' "Failed to upload file"
                      res2 this2 w2)
              /\ (forall cid2 key2 res2 this2 w2,
                    retrieveFile cid2 key2 (this', w') = (res2, (this2, w2)) ->
                    call_on_held_token cfg this w' "Failed to retrieve file"
                      res2 this2 w2))).
Proof.
  split; [reflexivity|]. split; [reflexivity|]. split; [reflexivity|].
  split; [intros; now apply uploadFile_unconfigured|].
  split; [intros; now apply retrieveFile_unconfigured|].
  split.
  - intros rt cfg Hrt Hval. unfold initializeStorage.
    rewrite catch_rethrow. unfold bind at 1. unfold get_this. simpl.
    rewrite Hrt. unfold bind at 1. unfold lift. rewrite Hval.
    reflexivity.
  - intros cfg Hcfg Htok. split.
    + intros buffer filename publicFile key res this' w' Hcall.
      pose proof (uploadFile_on_held_token _ _ _ _ _ _ _ _ _ _ Hcfg Htok Hcall)
        as Hfirst.
      split; [exact Hfirst|]. destruct Hfirst as [-> _]. split.
      * intros buffer2 filename2 publicFile2 key2 res2 this2 w2 Hnext.
        exact (uploadFile_on_held_token _ _ _ _ _ _ _ _ _ _ Hcfg Htok Hnext).
      * intros cid2 key2 res2 this2 w2 Hnext.
        exact (retrieveFile_on_held_token _ _ _ _ _ _ _ _ Hcfg Htok Hnext).
    + intros cid key res this' w' Hcall.
      pose proof (retrieveFile_on_held_token _ _ _ _ _ _ _ _ Hcfg Htok Hcall)
        as Hfirst.
      split; [exact Hfirst|]. destruct Hfirst as [-> _]. split.
      * intros buffer2 filename2 publicFile2 key2 res2 this2 w2 Hnext.
        exact (uploadFile_on_held_token _ _ _ _ _ _ _ _ _ _ Hcfg Htok Hnext).
      * intros cid2 key2 res2 this2 w2 Hnext.
        exact (retrieveFile_on_held_token _ _ _ _ _ _ _ _ Hcfg Htok Hnext).
Qed.

(** ** The private key *)

Lemma strip0x_cases (k : string) :
  strip0x k = k \/ exists rest, k = String "0" (String "x" rest).
Proof.
  destruct k as [|a k]; [now left|].
  destruct (Ascii.eqb_spec a "0") as [->|Ha].
  - destruct k as [|b k]; [now left|].
    destruct (Ascii.eqb_spec b "x") as [->|Hb]; [right; eauto|].
    left. destruct b as [[] [] [] [] [] [] [] []]; try reflexivity.
    now destruct Hb.
  - left. destruct a as [[] [] [] [] [] [] [] []]; try reflexivity.
    now destruct Ha.
Qed.

Lemma is_hex64_strip0x (k : string) : is_hex64 k = true -> strip0x k = k.
Proof.
  intros H. destruct (strip0x_cases k) as [Hk|(rest & ->)]; [exact Hk|].
  unfold is_hex64 in H. apply andb_prop in H as [_ H]. simpl in H.
  discriminate H.
Qed.

Lemma is_hex64_not_empty (k : string) : is_hex64 k = true -> k <> "".
Proof. intros H ->. discriminate H. Qed.



Lemma privateKeyToAddress_return (key address : string) :
  privateKeyToAddress key = Return address
  <-> is_hex_plus (strip0x key) = true
      /\ Wallet_address ("0x" +:+ strip0x key) = Return address.
Proof.
  unfold privateKeyToAddress. split.
  - destruct (String.eqb key ""); [discriminate|].
    destruct (is_hex_plus (strip0x key)); simpl; [|discriminate].
    destruct (Wallet_address ("0x" +:+ strip0x key)); [|discriminate].
    intros [= ->]. now split.
  - intros [Hhex Hw].
    destruct (String.eqb_spec key "") as [->|_]; [discriminate Hhex|].
    now rewrite Hhex, Hw.
Qed.





(** ** The retrieve action *)

(** The loop of the handler is the batch tried CID by CID, the files of the
    attempts that returned and the CIDs of those that threw. *)
Lemma retrieve_loop_attempts cids acc s :
  retrieve_loop cids acc s
  = (Return (fst acc ++ retrieved_of (fst (attempt_all cids s)),
             snd acc ++ failed_of (fst (attempt_all cids s))),
     snd (attempt_all cids s)).
Proof.
  revert acc s. induction cids as [|cid rest IH]; intros acc s; simpl.
  - unfold ret. rewrite !List.app_nil_r. now destruct acc.
  - unfold bind at 1. unfold retrieve_one, catch. unfold bind at 1.
    destruct (retrieveFile cid None s) as [[fileBuffer|e] s1]; simpl;
      rewrite IH; destruct (attempt_all rest s1) as [outcomes s2]; simpl;
      now rewrite <- !List.app_assoc.
Qed.

Lemma attempt_all_cids cids s : List.map fst (fst (attempt_all cids s)) = cids.
Proof.
  revert s. induction cids as [|cid rest IH]; intros s; simpl; [reflexivity|].
  destruct (retrieveFile cid None s) as [r s1]. specialize (IH s1).
  destruct (attempt_all rest s1) as [outcomes s2]. simpl in *. now f_equal.
Qed.

Lemma failed_of_spec outcomes cid :
  In cid (failed_of outcomes) <-> exists e, In (cid, Throw e) outcomes.
Proof.
  induction outcomes as [|[c [b|e]] rest IH]; simpl.
  - split; [intros []|intros [e []]].
  - rewrite IH. split.
    + intros [e H]. eauto.
    + intros [e [H|H]]; [discriminate|eauto].
  - rewrite IH. split.
    + intros [->|[e' H]]; eauto.
    + intros [e' [[= -> ->]|H]]; eauto.
Qed.

Lemma retrieved_of_spec outcomes cid :
  (exists file, In file (retrieved_of outcomes) /\ file_cid file = cid)
  <-> exists fileBuffer, In (cid, Return fileBuffer) outcomes.
Proof.
  induction outcomes as [|[c [b|e]] rest IH]; simpl.
  - split; [intros (f & [] & _)|intros [b []]].
  - split.
    + intros (f & [<-|Hin] & Hc); simpl in *.
      * subst. eauto.
      * destruct (proj1 IH (ex_intro _ f (conj Hin Hc))) as (b' & H). eauto.
    + intros (b' & [[= -> ->]|Hin]).
      * eexists. split; [now left|reflexivity].
      * destruct (proj2 IH (ex_intro _ b' Hin)) as (f & H1 & H2). eauto.
  - rewrite IH. split.
    + intros [b' H]. eauto.
    + intros [b' [H|H]]; [discriminate|eauto].
Qed.

Lemma retrieved_of_nil outcomes :
  retrieved_of outcomes = []
  <-> ~ exists cid fileBuffer, In (cid, Return fileBuffer) outcomes.
Proof.
  induction outcomes as [|[c [b|e]] rest IH]; simpl.
  - split; [intros _ (c & b & [])|reflexivity].
  - split; [discriminate|]. intros H. destruct H. eauto.
  - rewrite IH. split.
    + intros H (c' & b & [Heq|Hin]); [discriminate|]. apply H. eauto.
    + intros H (c' & b & Hin). apply H. eauto.
Qed.

(** With a token held, the attempts leave the service as it was: a failed
    retrieval changes nothing for the CIDs that follow. *)
Lemma attempt_all_keeps cids this w :
  truthy (accessToken this) = true ->
  fst (snd (attempt_all cids (this, w))) = this.
Proof.
  intros Htok. revert w. induction cids as [|cid rest IH]; intros w; simpl;
    [reflexivity|].
  destruct (retrieveFile cid None (this, w)) as [r [this1 w1]] eqn:Hcall.
  assert (this1 = this) as ->.
  { destruct (mefsConfig this) as [cfg|] eqn:Hcfg.
    - destruct (retrieveFile_run _ _ _ _ _ _ _ _ Hcfg Hcall)
        as (evs & o & Hrun & _).
      now destruct (call_run_keeps _ _ _ _ _ _ Htok Hrun).
    - rewrite (retrieveFile_unconfigured _ _ _ _ Hcfg) in Hcall. congruence. }
  specialize (IH w1). destruct (attempt_all rest (this, w1)) as [outcomes s2].
  exact IH.
Qed.

Lemma files_text_occurs (idx : nat) (files : list RetrievedFile) file :
  In file files ->
  occurs (file_cid file) (files_text idx files)
  /\ occurs (file_content file) (files_text idx files).
Proof.
  revert idx. induction files as [|f rest IH]; intros idx; [intros []|].
  intros [->|Hin].
  - cbn [files_text]. split.
    + apply occurs_app_r, occurs_app_r, occurs_app_r, occurs_app_l,
        occurs_refl.
    + do 8 apply occurs_app_r. apply occurs_app_l, occurs_refl.
  - cbn [files_text]. destruct (IH (S idx) Hin) as [Hc Ht].
    split; do 11 apply occurs_app_r; assumption.
Qed.

(** C8. Once the service is initialised, the handler tries every CID of the
    message, in order and whatever the earlier ones gave: each CID has its
    own outcome, a CID whose retrieval threw is in the not-found list, a CID
    whose retrieval returned is among the retrieved files, and the action
    succeeds exactly when at least one retrieval returned.  The text the
    handler returns reports each of them: it is the count and the files
    retrieved, followed by the list of the CIDs that failed, or the list
    alone when none was retrieved; every CID that failed occurs in it, and
    so do the CID and the content of every file retrieved.  With a token
    held, failed retrievals leave the service untouched. *)
Theorem retrieve_batch_isolated storageService message callback w this0 w0 :
  getCIDsFromMessage message <> [] ->
  initializeStorage (storageService, w) = (Return tt, (this0, w0)) ->
  let cids := getCIDsFromMessage message in
  let outcomes := fst (attempt_all cids (this0, w0)) in
  let final := snd (attempt_all cids (this0, w0)) in
  let result := retrieve_handler (Some storageService) message callback w in
  let retrievedFiles := retrieved_of outcomes in
  let notFoundFiles := failed_of outcomes in
  List.map fst outcomes = cids
  /\ (forall cid, In cid notFoundFiles <-> exists e, In (cid, Throw e) outcomes)
  /\ (forall cid,
        (exists file, In file retrievedFiles /\ file_cid file = cid)
        <-> exists fileBuffer, In (cid, Return fileBuffer) outcomes)
  /\ (success (fst result) = true
      <-> exists cid fileBuffer, In (cid, Return fileBuffer) outcomes)
  /\ (success (fst result) = true ->
      values (fst result) = VRetrievedFiles retrievedFiles
      /\ result_text (fst result)
         = "Retrieved " +:+ pretty (length retrievedFiles)
           +:+ " file(s) from MEFS:" +:+ nl +:+ nl
           +:+ files_text 0 retrievedFiles
           +:+ (if (0 <? length notFoundFiles)%nat
                then nl +:+ "Failed to retrieve files for the following CIDs: "
                     +:+ nl +:+ join nl notFoundFiles
                else ""))
  /\ (success (fst result) = false ->
      result_text (fst result)
      = "No files found for the given CIDs: " +:+ nl +:+ join nl notFoundFiles)
  /\ (forall cid, In cid notFoundFiles -> occurs cid (result_text (fst result)))
  /\ (forall file,
        In file retrievedFiles ->
        occurs (file_cid file) (result_text (fst result))
        /\ occurs (file_content file) (result_text (fst result)))
  /\ fst (snd result) = Some (fst final)
  /\ (truthy (accessToken this0) = true -> fst final = this0).
Proof.
  intros Hcids Hinit cids outcomes final result retrievedFiles notFoundFiles.
  split; [apply attempt_all_cids|].
  split; [apply failed_of_spec|].
  split; [apply retrieved_of_spec|].
  assert (Hres : result
                 = if (length retrievedFiles =? 0)%nat
                   then (failed "STORAGE_RETRIEVE"
                           (none_found_text notFoundFiles)
                           "No files found for the given CIDs",
                         (Some (fst final),
                          emit callback (none_found_text notFoundFiles)
                            (snd final)))
                   else ({| success := true;
                            result_text :=
                              retrieved_text retrievedFiles notFoundFiles;
                            actions := ["STORAGE_RETRIEVE"];
                            values := VRetrievedFiles retrievedFiles |},
                         (Some (fst final),
                          emit callback
                            (retrieved_text retrievedFiles notFoundFiles)
                            (snd final)))).
  { unfold result, retrieve_handler. fold cids.
    destruct cids as [|c0 cs] eqn:Hc; [now destruct Hcids|].
    change (length (c0 :: cs) =? 0)%nat with false. cbv iota.
    unfold retrieve_body. unfold bind at 1. rewrite Hinit.
    unfold bind at 1. rewrite retrieve_loop_attempts.
    fold outcomes final retrievedFiles notFoundFiles.
    cbn [fst snd app].
    destruct (length retrievedFiles =? 0)%nat; unfold bind, do_callback, ret;
      simpl; now destruct final. }
  rewrite Hres.
  assert (Hfailed : forall cid files failures,
             In cid failures -> occurs cid (retrieved_text files failures)).
  { intros cid files failures Hin. unfold retrieved_text.
    destruct failures as [|c cs]; [destruct Hin|].
    change (0 <? length (c :: cs))%nat with true. cbv iota.
    do 9 apply occurs_app_r. now apply occurs_join. }
  destruct retrievedFiles as [|f fs] eqn:Hr.
  - change (length (@nil RetrievedFile) =? 0)%nat with true. cbv iota.
    cbn [fst snd success result_text values failed].
    apply retrieved_of_nil in Hr.
    split; [split; [discriminate|]|].
    { intros (cid & b & H). destruct Hr. eauto. }
    split; [discriminate|]. split; [reflexivity|].
    split.
    { intros cid Hin. unfold none_found_text.
      apply occurs_app_r, occurs_app_r. now apply occurs_join. }
    split; [intros file []|]. split; [reflexivity|].
    intros Htok. apply attempt_all_keeps. assumption.
  - change (length (f :: fs) =? 0)%nat with false. cbv iota.
    cbn [fst snd success result_text values].
    assert (Hex : exists cid fileBuffer, In (cid, Return fileBuffer) outcomes).
    { destruct (proj1 (retrieved_of_spec outcomes (file_cid f))) as (b & H).
      - exists f. fold retrievedFiles. rewrite Hr. split; [now left|reflexivity].
      - eauto. }
    split; [split; auto|]. split; [split; reflexivity|].
    split; [discriminate|].
    split; [intros cid Hin; now apply Hfailed|].
    split.
    { intros file Hin. unfold retrieved_text.
      destruct (files_text_occurs 0 (f :: fs) file Hin) as [Hc Ht].
      split; do 5 apply occurs_app_r; apply occurs_app_l; assumption. }
    split; [reflexivity|].
    intros Htok. apply attempt_all_keeps. assumption.
Qed.

(** ** The upload action *)

Lemma initializeStorage_events this w res this' w' :
  initializeStorage (this, w) = (res, (this', w')) ->
  exists evs,
    trace w' = trace w ++ evs
    /\ forall req r parts, In (EvFetch req r) evs -> body req <> FormBody parts.
Proof.
  unfold initializeStorage. rewrite catch_rethrow.
  unfold bind at 1. unfold get_this. simpl.
  destruct (bool_decide (is_Some (mefsConfig this)) && truthy (accessToken this)).
  { intros [= <- <- <-]. exists []. split; [now rewrite List.app_nil_r|].
    intros ? ? ? []. }
  destruct (runtime this) as [rt|].
  2:{ intros [= <- <- <-]. exists []. split; [now rewrite List.app_nil_r|].
      intros ? ? ? []. }
  unfold bind at 1. unfold lift.
  destruct (validateStorageClientConfig rt) as [cfg|e].
  2:{ intros [= <- <- <-]. exists []. split; [now rewrite List.app_nil_r|].
      intros ? ? ? []. }
  intros Hlogin.
  change (loginToMEFS (set_config (Some cfg) this, w) = (res, (this', w')))
    in Hlogin.
  destruct (loginToMEFS_run (set_config (Some cfg) this) w cfg res this' w'
              eq_refl Hlogin) as (evs & Hrun & Htr).
  exists evs. split; [assumption|]. intros req r parts Hin.
  exact (login_run_no_form _ _ _ _ _ _ _ parts Hrun Hin).
Qed.

Lemma upload_responses_nothing responses cidResults s :
  Forall (fun response => truthy_opt (content_text response) = false)
    responses ->
  upload_responses responses cidResults s = (Return cidResults, s).
Proof.
  induction 1 as [|response rest Hr _ IH]; simpl; [reflexivity|].
  now rewrite Hr.
Qed.

Lemma emit_trace callback t w :
  exists evs, trace (emit callback t w) = trace w ++ evs
              /\ forall req r, ~ In (EvFetch req r) evs.
Proof.
  destruct callback; simpl.
  - exists [EvCallback t]. split; [reflexivity|].
    intros req r [H|[]]. discriminate H.
  - exists []. split; [now rewrite List.app_nil_r|]. intros req r [].
Qed.

(** C10, as the code has it. For a message without an [attachments] field
    and with no response text to upload, the missing-file guard does not
    fire and the handler goes on; it sends no upload request; when the
    storage service is there and [initializeStorage] returns, the action
    returns [success: true] with an empty CID list, and when the service is
    missing or [initializeStorage] throws it returns [success: false]. *)
Theorem upload_without_attachments service message callback responses w :
  content_attachments message = None ->
  Forall (fun response => truthy_opt (content_text response) = false)
    (default [] responses) ->
  let result := upload_handler service message callback responses w in
  let w1 := emit callback "OK! Uploading file(s) to MEFS..." w in
  result_text (fst result)
  <> "Looks like you didn't attach any files. Please attach a file and try again."
  /\ (exists evs,
        trace (snd (snd result)) = trace w1 ++ evs
        /\ forall req r parts,
            In (EvFetch req r) evs -> body req <> FormBody parts)
  /\ (forall storageService s',
        service = Some storageService ->
        initializeStorage (storageService, w1) = (Return tt, s') ->
        fst result
        = {| success := true; result_text := uploaded_text [];
             actions := ["STORAGE_UPLOAD"]; values := VCidList "" |})
  /\ (service = None -> success (fst result) = false)
  /\ (forall storageService e s',
        service = Some storageService ->
        initializeStorage (storageService, w1) = (Throw e, s') ->
        success (fst result) = false).
Proof.
  intros Hatt Hresp result w1.
  assert (Hres :
    result
    = match service with
      | None =>
          (failed "STORAGE_UPLOAD"
             "I'm sorry, the Storage service is not available. Please try again later."
             "Storage service not available in runtime",
           (None,
            emit callback
              "I'm sorry, the Storage service is not available. Please try again later."
              w1))
      | Some storageService =>
          match initializeStorage (storageService, w1) with
          | (Return _, (this1, w2)) =>
              ({| success := true; result_text := uploaded_text [];
                  actions := ["STORAGE_UPLOAD"]; values := VCidList "" |},
               (Some this1, emit callback (uploaded_text []) w2))
          | (Throw e, (this1, w2)) =>
              (failed "STORAGE_UPLOAD"
                 "Sorry, failed to upload file(s) to MEFS. Please try again later."
                 (message_of e),
               (Some this1,
                emit callback
                  "Sorry, failed to upload file(s) to MEFS. Please try again later."
                  w2))
          end
      end).
  { unfold result, upload_handler. rewrite Hatt. cbv iota. fold w1.
    destruct service as [storageService|]; [|reflexivity].
    unfold upload_body. unfold bind at 1.
    destruct (initializeStorage (storageService, w1)) as [[[]|e] [this1 w2]];
      [|reflexivity].
    unfold bind at 1. simpl upload_attachments. unfold ret at 1.
    unfold bind at 1. rewrite (upload_responses_nothing _ _ _ Hresp).
    reflexivity. }
  rewrite Hres. clear Hres.
  destruct service as [storageService|].
  2:{ simpl. split; [discriminate|]. split; [|repeat split; discriminate].
      destruct (emit_trace callback
                  "I'm sorry, the Storage service is not available. Please try again later."
                  w1) as (evs & Htr & Hno).
      exists evs. split; [assumption|]. intros req r parts Hin.
      now destruct (Hno req r). }
  destruct (initializeStorage (storageService, w1)) as [[[]|e] [this1 w2]]
    eqn:Hinit;
    destruct (initializeStorage_events _ _ _ _ _ Hinit) as (evs & Htr & Hno).
  - split; [discriminate|].
    split; [|split; [reflexivity|split; [discriminate|]];
             intros s0 e0 s0' [= <-] Hinit'; congruence].
    destruct (emit_trace callback (uploaded_text []) w2) as (evs2 & Htr2 & Hno2).
    exists (evs ++ evs2). split.
    + cbn [fst snd]. rewrite Htr2, Htr. now rewrite <- List.app_assoc.
    + intros req r parts Hin. apply in_app_or in Hin as [Hin|Hin];
        [now apply (Hno req r) | now destruct (Hno2 req r)].
  - split; [discriminate|].
    split; [|split; [intros s0 s0' [= <-] Hinit'; congruence
                    |split; [discriminate|reflexivity]]].
    destruct (emit_trace callback
                "Sorry, failed to upload file(s) to MEFS. Please try again later."
                w2) as (evs2 & Htr2 & Hno2).
    exists (evs ++ evs2). split.
    + cbn [fst snd]. rewrite Htr2, Htr. now rewrite <- List.app_assoc.
    + intros req r parts Hin. apply in_app_or in Hin as [Hin|Hin];
        [now apply (Hno req r) | now destruct (Hno2 req r)].
Qed.

End Proofs.

(** * The client against the demonstration store *)

Module DemoFacts.
Import Demo.
#[local] Existing Instance env.

(** The scenario of the specification: login, upload of [HI], download. *)
Example scenario_login :
  let run := start (settings key_a) (world store0) in
  fst run = Return tt
  /\ mefsConfig (fst (snd run)) = Some config
  /\ accessToken (fst (snd run)) = JStr "tok1"
  /\ refreshToken (fst (snd run)) = JStr "ref1".
Proof. vm_compute. repeat split. Qed.

Example scenario_roundtrip :
  let up := uploadFile hi "hi.txt" false None (logged_in, world store0) in
  fst up = Return (JStr "bafyHI")
  /\ fst (retrieveFile "bafyHI" None (snd up)) = Return hi.
Proof. vm_compute. repeat split. Qed.

(** A batch of three CIDs, the second unknown to the store. *)
Example scenario_batch :
  let result :=
    retrieve_handler (Some logged_in)
      (text_message "get bafyHI, bafyNO and bafyHI again") true
      (world store_hi) in
  success (fst result) = true
  /\ values (fst result)
     = VRetrievedFiles
         [{| file_cid := "bafyHI"; file_content := "HI"; file_size := 2 |};
          {| file_cid := "bafyHI"; file_content := "HI"; file_size := 2 |}]
  /\ List.map (fun ev => match ev with
                         | EvFetch req (Return r) => Some (status r)
                         | _ => None
                         end)
       (trace (snd (snd result)))
     = [Some 200%N; Some 404%N; Some 200%N; None].
Proof. vm_compute. repeat split. Qed.

Lemma serve_content_addressed : content_addressed.
Proof.
  unfold content_addressed. simpl fetch_ext.
  intros req x resp x1 data filename type rest fields c req2 resp2 x2
    Hput Hbody Hok Hjson Hmid Hget Hm Hb2 Hinput Hauth Hok2.
  unfold serve in Hput. rewrite Hbody in Hput.
  destruct (mefs_reject x) eqn:Hrej; injection Hput as <- <-;
    [discriminate Hok|].
  simpl in Hjson. injection Hjson as <-. simpl in Hmid. injection Hmid as <-.
  unfold serve in Hget. rewrite Hb2, Hinput in Hget. simpl in Hget.
  rewrite String.eqb_refl, Hrej in Hget. now injection Hget as <- <-.
Qed.

Lemma upload_retrieve_roundtrip_witness :
  let up := uploadFile hi "hi.txt" false None (configured, world store0) in
  let down := retrieveFile "bafyHI" None (snd up) in
  content_addressed
  /\ up = (Return (JStr "bafyHI"), snd up)
  /\ down = (Return hi, snd down)
  /\ hi = hi.
Proof.
  intros up down.
  assert (Hup : up = (Return (JStr "bafyHI"), (fst (snd up), snd (snd up))))
    by (vm_compute; reflexivity).
  assert (Hdown : retrieveFile "bafyHI" None (fst (snd up), snd (snd up))
                  = (Return hi, (fst (snd down), snd (snd down))))
    by (vm_compute; reflexivity).
  split; [exact serve_content_addressed|].
  split; [vm_compute; reflexivity|].
  split; [vm_compute; reflexivity|].
  exact (upload_retrieve_roundtrip configured (world store0) hi "hi.txt"
           "bafyHI" _ _ hi _ _ serve_content_addressed Hup Hdown).
Defined.

Lemma storage_requests_carry_token_witness :
  let up := uploadFile hi "hi.txt" false None (configured, world store0) in
  let req := upload_request config true (auth_headers logged_in) hi "hi.txt"
               false None in
  let r := Return (reply 200 "" (JsonObject [("Mid", JStr "bafyHI")]) []) in
  mefsConfig configured = Some config
  /\ accessToken (fst (snd up)) = JStr "tok1"
  /\ In (EvFetch req r) (new_events (world store0) (snd (snd up)))
  /\ headers req !! "Authorization" = Some "Bearer tok1"
  /\ bearer_token req.
Proof.
  intros up req r.
  assert (Hup : uploadFile hi "hi.txt" false None (configured, world store0)
                = (fst up, (fst (snd up), snd (snd up))))
    by (vm_compute; reflexivity).
  assert (Htok : accessToken (fst (snd up)) = JStr "tok1")
    by (vm_compute; reflexivity).
  assert (Hin : In (EvFetch req r) (new_events (world store0) (snd (snd up))))
    by (vm_compute; right; right; left; reflexivity).
  destruct (proj1 (proj1 (storage_requests_carry_token configured
                            (world store0) config eq_refl)
                     hi "hi.txt" false None _ _ _ Hup))
    as (Hbearer & _ & _).
  destruct (Hbearer req r Hin (ex_intro _ "" eq_refl))
    as (_ & Hbears & Hstring).
  split; [reflexivity|]. split; [exact Htok|]. split; [exact Hin|].
  split; [rewrite Htok in Hbears; exact Hbears|].
  exact (Hstring "tok1" Htok).
Defined.

Lemma stop_and_rejection_keep_tokens_witness :
  let up := uploadFile hi "hi.txt" false None
              (logged_in, world store_rejecting) in
  let req := upload_request config true (auth_headers logged_in) hi "hi.txt"
               false None in
  let r := reply 401 "unauthorized" NotJson [] in
  stop (logged_in, world store0)
  = (Return tt, (set_config None logged_in, world store0))
  /\ accessToken (set_config None logged_in) = JStr "tok1"
  /\ new_events (world store_rejecting) (snd (snd up)) = [EvFetch req (Return r)]
  /\ headers req !! "Authorization" = Some "Bearer tok1"
  /\ fst up = Throw (Error "Failed to upload file: 401 unauthorized")
  /\ fst (snd up) = logged_in.
Proof.
  intros up req r.
  assert (Hup : uploadFile hi "hi.txt" false None
                  (logged_in, world store_rejecting)
                = (fst up, (fst (snd up), snd (snd up))))
    by (vm_compute; reflexivity).
  assert (Hevs : new_events (world store_rejecting) (snd (snd up))
                 = [EvFetch req (Return r)]) by (vm_compute; reflexivity).
  pose proof (stop_and_rejection_keep_tokens logged_in (world store_rejecting))
    as (_ & _ & _ & _ & _ & _ & Hheld).
  destruct (Hheld config eq_refl eq_refl) as [Hupload _].
  destruct (Hupload hi "hi.txt" false None _ _ _ Hup)
    as ((Hsame & Hbears & Hfail) & _).
  split; [exact (proj1 (stop_and_rejection_keep_tokens logged_in
                          (world store0)))|].
  split; [reflexivity|]. split; [exact Hevs|].
  split; [refine (proj2 (Hbears req (Return r) _)); rewrite Hevs; now left|].
  split; [|exact Hsame].
  refine (Hfail req r _ eq_refl). rewrite Hevs. now left.
Defined.

Lemma loginToMEFS_failure_keeps_session_witness :
  let run := loginToMEFS (configured, world store_down) in
  Exists rejected (new_events (world store_down) (snd (snd run)))
  /\ (exists e, fst run = Throw e)
  /\ fst (snd run) = configured.
Proof.
  intros run.
  assert (Hrej : Exists rejected
                   (new_events (world store_down) (snd (snd run)))).
  { vm_compute. apply Exists_cons_hd. eexists _, _. split; reflexivity. }
  split; [exact Hrej|].
  assert (Hrun : loginToMEFS (configured, world store_down)
                 = (fst run, (fst (snd run), snd (snd run))))
    by (vm_compute; reflexivity).
  destruct (loginToMEFS_failure_keeps_session _ _ _ _ _ Hrun Hrej)
    as (Hthrow & Hsame & _).
  split; assumption.
Defined.

Lemma initializeStorage_idempotent_witness :
  is_Some (mefsConfig logged_in)
  /\ truthy (accessToken logged_in) = true
  /\ initializeStorage (logged_in, world store0)
     = (Return tt, (logged_in, world store0)).
Proof.
  assert (Hcfg : is_Some (mefsConfig logged_in)) by (eexists; reflexivity).
  split; [exact Hcfg|]. split; [reflexivity|].
  exact (initializeStorage_idempotent logged_in (world store0) Hcfg eq_refl).
Defined.


Lemma upload_public_key_exclusive_witness :
  let up := uploadFile hi "hi.txt" true (Some "k") (logged_in, world store0) in
  fst up = Return (JStr "bafyHI")
  /\ exists req r parts,
       In (EvFetch req r) (new_events (world store0) (snd (snd up)))
       /\ body req = FormBody parts
       /\ has_field "public" parts
       /\ ~ has_field "key" parts.
Proof.
  intros up.
  assert (Hup : uploadFile hi "hi.txt" true (Some "k") (logged_in, world store0)
                = (fst up, (fst (snd up), snd (snd up))))
    by (vm_compute; reflexivity).
  assert (Hres : fst up = Return (JStr "bafyHI")) by (vm_compute; reflexivity).
  split; [exact Hres|].
  destruct (upload_public_key_exclusive _ _ _ _ _ _ _ _ _ Hup)
    as [Hfields Hsent].
  destruct (Hsent _ Hres) as (req & r & parts & Hin & Hbody).
  destruct (Hfields req r parts Hin Hbody) as (_ & Hpub & _ & _ & Hex).
  exists req, r, parts. split; [exact Hin|]. split; [exact Hbody|].
  split; [now apply Hpub|]. intros Hkey. apply Hex.
  split; [now apply Hpub | exact Hkey].
Defined.

Lemma storage_failure_reported_witness :
  let up := uploadFile hi "hi.txt" false None
              (logged_in, world store_rejecting) in
  mefsConfig logged_in = Some config
  /\ fst up = Throw (Error "Failed to upload file: 401 unauthorized").
Proof.
  intros up. split; [reflexivity|].
  assert (Hup : uploadFile hi "hi.txt" false None
                  (logged_in, world store_rejecting)
                = (fst up, (fst (snd up), snd (snd up))))
    by (vm_compute; reflexivity).
  refine (proj1 (storage_failure_reported logged_in (world store_rejecting)
                   config eq_refl)
            hi "hi.txt" false None _ _ _
            (upload_request config true (auth_headers logged_in) hi "hi.txt"
               false None)
            (reply 401 "unauthorized" NotJson []) Hup _ _ eq_refl).
  - vm_compute. left. reflexivity.
  - now exists "".
Defined.

Lemma retrieve_batch_isolated_witness :
  let message := text_message "get bafyHI, bafyNO and bafyHI again" in
  let result :=
    retrieve_handler (Some logged_in) message true (world store_hi) in
  getCIDsFromMessage message = ["bafyHI"; "bafyNO"; "bafyHI"]
  /\ success (fst result) = true
  /\ result_text (fst result)
     = "Retrieved 2 file(s) from MEFS:" +:+ nl +:+ nl
       +:+ "=== File 1 (CID: bafyHI, Size: 2 bytes) ===" +:+ nl
       +:+ "HI" +:+ nl +:+ nl
       +:+ "=== File 2 (CID: bafyHI, Size: 2 bytes) ===" +:+ nl
       +:+ "HI" +:+ nl +:+ nl +:+ nl
       +:+ "Failed to retrieve files for the following CIDs: " +:+ nl
       +:+ "bafyNO"
  /\ occurs "bafyNO" (result_text (fst result)).
Proof.
  intros message result.
  split; [vm_compute; reflexivity|].
  assert (Hne : getCIDsFromMessage message <> []) by (vm_compute; discriminate).
  assert (Hinit : initializeStorage (logged_in, world store_hi)
                  = (Return tt, (logged_in, world store_hi)))
    by (vm_compute; reflexivity).
  destruct (retrieve_batch_isolated logged_in message true (world store_hi)
              logged_in (world store_hi) Hne Hinit)
    as (_ & _ & _ & Hsucc & _ & _ & Hfailed & _).
  split; [apply Hsucc; exists "bafyHI", hi; vm_compute; left; reflexivity|].
  split; [vm_compute; reflexivity|].
  apply Hfailed. vm_compute. left. reflexivity.
Defined.

Lemma upload_without_attachments_witness :
  let result := upload_handler (Some fresh) no_attachments true None
                  (world store0) in
  content_attachments no_attachments = None
  /\ fst result
     = {| success := true; result_text := uploaded_text [];
          actions := ["STORAGE_UPLOAD"]; values := VCidList "" |}.
Proof.
  intros result. split; [reflexivity|].
  refine (proj1 (proj2 (proj2 (upload_without_attachments (Some fresh)
                                 no_attachments true None (world store0)
                                 eq_refl (List.Forall_nil _))))
            fresh
            (snd (initializeStorage
                    (fresh,
                     emit true "OK! Uploading file(s) to MEFS..."
                       (world store0))))
            eq_refl _).
  vm_compute. reflexivity.
Defined.

(** C2 fails as stated: the store answers the exchange with an empty array
    for [accessToken]; the client holds it as its token, truthy, and sends
    the storage request with [Authorization: Bearer ] and nothing after
    it. *)
Lemma empty_bearer_counterexample :
  let down := retrieveFile "bafyHI" None (configured, world store_array) in
  fst down = Return hi
  /\ accessToken (fst (snd down)) = JArr []
  /\ exists req r,
       In (EvFetch req r) (new_events (world store_array) (snd (snd down)))
       /\ storage_request config req
       /\ headers req !! "Authorization" = Some "Bearer "
       /\ ~ bearer_token req.
Proof.
  intros down. split; [vm_compute; reflexivity|].
  split; [vm_compute; reflexivity|].
  exists (retrieve_request config (auth_headers (fst (snd down))) "bafyHI" None),
    (Return (reply 200 "" NotJson hi)).
  split; [vm_compute; right; right; left; reflexivity|].
  split; [now exists "bafyHI"|].
  assert (Hh : headers (retrieve_request config (auth_headers (fst (snd down)))
                          "bafyHI" None) !! "Authorization" = Some "Bearer ")
    by (vm_compute; reflexivity).
  split; [exact Hh|].
  intros (t & Ht & Hne). rewrite Hh in Ht. injection Ht as Ht.
  destruct t; [now destruct Hne | discriminate Ht].
Qed.

(** C3 fails as stated: after [stop], and after an upload that the store
    answered with 401, the service still holds both tokens. *)
Lemma session_not_cleared_counterexample :
  let stopped := fst (snd (stop (logged_in, world store0))) in
  let up := uploadFile hi "hi.txt" false None
              (logged_in, world store_rejecting) in
  (accessToken stopped = JStr "tok1" /\ refreshToken stopped = JStr "ref1")
  /\ fst up = Throw (Error "Failed to upload file: 401 unauthorized")
  /\ accessToken (fst (snd up)) = JStr "tok1"
  /\ refreshToken (fst (snd up)) = JStr "ref1".
Proof. vm_compute. repeat split. Qed.


(** C10 fails as stated: without a storage service, or when the login
    fails, the same message gives [success: false]. *)
Lemma upload_without_service_counterexample :
  content_attachments no_attachments = None
  /\ success (fst (upload_handler None no_attachments true None
                     (world store0))) = false
  /\ success (fst (upload_handler (Some fresh) no_attachments true None
                     (world store_down))) = false.
Proof. vm_compute. repeat split. Qed.

End DemoFacts.

(** * More properties *)

Section MoreProofs.
Context `{E : Env}.

(** ** The configuration *)

Lemma validateStorageClientConfig_unfold rt :
  validateStorageClientConfig rt
  = match storageClientEnvSchema_parse (raw_config_of rt) with
    | inl issues =>
        Throw (Error ("Storage client configuration validation failed:" +:+ nl
                      +:+ join nl (List.map (issue_line (raw_config_of rt)) issues)))
    | inr (api, key, chain, origin) =>
        match (if negb (String.eqb key "") then privateKeyToAddress key
               else Return "") with
        | Throw e =>
            Throw (Error ("Failed to convert private key to address: "
                          +:+ message_of e))
        | Return address =>
            Return {| MEFS_API_URL := api;
                      MEFS_WALLET_ADDRESS := address;
                      MEFS_PRIVATE_KEY := key;
                      MEFS_CHAIN_ID := chain;
                      MEFS_ORIGIN := origin |}
        end
    end.
Proof. reflexivity. Qed.

Lemma schema_parse_cases (c : RawConfig) :
  match storageClientEnvSchema_parse c with
  | inl issues => issues = schema_issues c /\ issues <> []
  | inr (api, key, chain, origin) =>
      schema_issues c = []
      /\ api = raw_API_URL c /\ raw_PRIVATE_KEY c = Some key
      /\ raw_CHAIN_ID c = Some chain /\ origin = raw_ORIGIN c
  end.
Proof.
  unfold storageClientEnvSchema_parse.
  destruct (schema_issues c) as [|i rest] eqn:Hissues.
  - unfold schema_issues in Hissues.
    destruct (raw_PRIVATE_KEY c) as [k|]; destruct (raw_CHAIN_ID c) as [n|];
      try (now repeat split);
      exfalso; destruct (zod_url (raw_API_URL c)); simpl in Hissues;
      try discriminate;
      destruct k; try destruct (is_hex64 _); simpl in Hissues; discriminate.
  - destruct (raw_PRIVATE_KEY c), (raw_CHAIN_ID c); now split.
Qed.

Lemma schema_issues_nil (c : RawConfig) :
  schema_issues c = [] <->
  zod_url (raw_API_URL c) = true
  /\ (exists k, raw_PRIVATE_KEY c = Some k /\ is_hex64 k = true)
  /\ (exists n, raw_CHAIN_ID c = Some n /\ zod_int n = true)
  /\ zod_url (raw_ORIGIN c) = true.
Proof.
  unfold schema_issues. split.
  - destruct (zod_url (raw_API_URL c)); [|discriminate].
    destruct (raw_PRIVATE_KEY c) as [k|]; [|discriminate].
    destruct (is_hex64 k) eqn:Hk; [|discriminate].
    destruct (raw_CHAIN_ID c) as [n|]; [|discriminate].
    destruct (zod_int n) eqn:Hn; [|discriminate].
    destruct (zod_url (raw_ORIGIN c)); [|discriminate].
    intros _. repeat split; eauto.
  - intros (-> & (k & -> & ->) & (n & -> & ->) & ->). reflexivity.
Qed.

(** X1. [validateStorageClientConfig] returns a configuration exactly when
    the four fields read from the settings pass the schema and the wallet
    library derives an address from the key; the configuration it returns
    holds the fields as read -- defaults in place of missing or empty
    settings -- and that address. *)
Theorem validateStorageClientConfig_returns rt cfg :
  validateStorageClientConfig rt = Return cfg <->
  zod_url (raw_API_URL (raw_config_of rt)) = true
  /\ zod_url (raw_ORIGIN (raw_config_of rt)) = true
  /\ getSetting rt "MEFS_PRIVATE_KEY" = Some (MEFS_PRIVATE_KEY cfg)
  /\ is_hex64 (MEFS_PRIVATE_KEY cfg) = true
  /\ Wallet_address ("0x" +:+ MEFS_PRIVATE_KEY cfg)
     = Return (MEFS_WALLET_ADDRESS cfg)
  /\ raw_CHAIN_ID (raw_config_of rt) = Some (MEFS_CHAIN_ID cfg)
  /\ zod_int (MEFS_CHAIN_ID cfg) = true
  /\ MEFS_API_URL cfg = raw_API_URL (raw_config_of rt)
  /\ MEFS_ORIGIN cfg = raw_ORIGIN (raw_config_of rt).
Proof.
  rewrite validateStorageClientConfig_unfold.
  pose proof (schema_parse_cases (raw_config_of rt)) as Hparse.
  destruct (storageClientEnvSchema_parse (raw_config_of rt))
    as [issues|[[[api k] n] o]].
  - destruct Hparse as [-> Hne]. split; [discriminate|].
    intros (Ha & Ho & Hk & Hhex & _ & Hn & Hint & _). destruct Hne.
    apply schema_issues_nil. repeat split; eauto.
  - destruct Hparse as (Hissues & -> & Hk & Hn & ->).
    apply schema_issues_nil in Hissues
      as (Ha & (k' & Hk' & Hhex) & (n' & Hn' & Hint) & Ho).
    assert (k' = k) as -> by congruence. assert (n' = n) as -> by congruence.
    rewrite (proj2 (eqb_empty_false k) (is_hex64_not_empty k Hhex)). simpl.
    split.
    + destruct (privateKeyToAddress k) as [address|e] eqn:Haddr;
        [|discriminate].
      intros [= <-]. simpl.
      apply privateKeyToAddress_return in Haddr as [_ Haddr].
      rewrite (is_hex64_strip0x k Hhex) in Haddr. now repeat split.
    + intros (_ & _ & Hk2 & _ & Hw & Hn2 & _ & Hapi & Horigin).
      simpl in Hk. assert (MEFS_PRIVATE_KEY cfg = k) as Hkk by congruence.
      assert (MEFS_CHAIN_ID cfg = n) as Hnn by (simpl in Hn; congruence).
      rewrite Hkk in Hw.
      assert (Haddr : privateKeyToAddress k = Return (MEFS_WALLET_ADDRESS cfg)).
      { apply privateKeyToAddress_return.
        rewrite (is_hex64_strip0x k Hhex). split; [|assumption].
        unfold is_hex64 in Hhex. apply andb_prop in Hhex as [Hlen Hall].
        unfold is_hex_plus. rewrite Hall.
        now rewrite (proj2 (eqb_empty_false k) (is_hex64_not_empty k
                       (proj2 (andb_true_iff _ _) (conj Hlen Hall)))). }
      rewrite Haddr. destruct cfg. simpl in *. congruence.
Qed.

(** X2. With [MEFS_API_URL], [MEFS_CHAIN_ID] and [MEFS_ORIGIN] missing or
    empty among the settings, a configuration that is accepted has the
    default API URL, the chain id 985 and the default origin. *)
Theorem validateStorageClientConfig_defaults rt cfg :
  truthy_opt (getSetting rt "MEFS_API_URL") = false ->
  truthy_opt (getSetting rt "MEFS_CHAIN_ID") = false ->
  truthy_opt (getSetting rt "MEFS_ORIGIN") = false ->
  validateStorageClientConfig rt = Return cfg ->
  MEFS_API_URL cfg = "https://api.mefs.io:10000/produce"
  /\ MEFS_CHAIN_ID cfg = 985%Z
  /\ MEFS_ORIGIN cfg = "https://memo.io".
Proof.
  intros Hapi Hchain Horigin. rewrite validateStorageClientConfig_unfold.
  pose proof (schema_parse_cases (raw_config_of rt)) as Hparse.
  destruct (storageClientEnvSchema_parse (raw_config_of rt))
    as [issues|[[[api k] n] o]]; [discriminate|].
  destruct Hparse as (_ & -> & _ & Hn & ->).
  unfold raw_config_of, or_default in *. simpl in *.
  rewrite Hapi, Horigin. rewrite Hchain in Hn. injection Hn as <-.
  destruct (if negb (String.eqb k "") then privateKeyToAddress k else Return "");
    [|discriminate].
  intros [= <-]. now repeat split.
Qed.

(** X3. The schema reports every field that fails its check and no other,
    in the order of the schema; when one fails,
    [validateStorageClientConfig] throws the validation error with one line
    for each of them: the name of the field, a colon, and the message zod
    gives that issue, which goes by the field, the code of the issue and
    what the field held. *)
Theorem schema_reports_every_issue rt :
  List.map fst (schema_issues (raw_config_of rt))
  = List.filter (fun name => negb (field_ok (raw_config_of rt) name))
      schema_fields
  /\ (schema_issues (raw_config_of rt) <> [] ->
      validateStorageClientConfig rt
      = Throw (Error ("Storage client configuration validation failed:" +:+ nl
                      +:+ join nl (List.map (issue_line (raw_config_of rt))
                                     (schema_issues (raw_config_of rt))))))
  /\ (forall name code,
        issue_line (raw_config_of rt) (name, code)
        = name +:+ ": "
          +:+ zod_message name code (raw_input (raw_config_of rt) name)).
Proof.
  split; [|split; [|reflexivity]].
  - generalize (raw_config_of rt). intros c.
    unfold schema_issues, schema_fields, field_ok. simpl.
    destruct (zod_url (raw_API_URL c)); simpl;
      (destruct (raw_PRIVATE_KEY c) as [k|]; [destruct (is_hex64 k)|]); simpl;
      (destruct (raw_CHAIN_ID c) as [n|]; [destruct (zod_int n)|]); simpl;
      destruct (zod_url (raw_ORIGIN c)); reflexivity.
  - intros Hne. rewrite validateStorageClientConfig_unfold.
    pose proof (schema_parse_cases (raw_config_of rt)) as Hparse.
    destruct (storageClientEnvSchema_parse (raw_config_of rt))
      as [issues|[[[api k] n] o]].
    + now destruct Hparse as [-> _].
    + now destruct Hparse as [Hnil _].
Qed.

(** X4. When the fields pass the schema and the wallet library refuses the
    key, the error of [validateStorageClientConfig] carries the conversion
    prefix twice: once from [privateKeyToAddress], once from its caller. *)
Theorem validateStorageClientConfig_wallet_failure rt e :
  schema_issues (raw_config_of rt) = [] ->
  Wallet_address ("0x" +:+ default "" (getSetting rt "MEFS_PRIVATE_KEY"))
  = Throw e ->
  validateStorageClientConfig rt
  = Throw (Error ("Failed to convert private key to address: "
                  +:+ "Failed to convert private key to address: "
                  +:+ message_of e)).
Proof.
  intros Hnil Hw. rewrite validateStorageClientConfig_unfold.
  pose proof (schema_parse_cases (raw_config_of rt)) as Hparse.
  destruct (storageClientEnvSchema_parse (raw_config_of rt))
    as [issues|[[[api k] n] o]].
  { destruct Hparse as [-> Hne]. now destruct Hne. }
  destruct Hparse as (_ & _ & Hk & _).
  apply schema_issues_nil in Hnil as (_ & (k' & Hk' & Hhex) & _).
  assert (k' = k) as -> by congruence. simpl in Hk. rewrite Hk in Hw.
  simpl in Hw.
  rewrite (proj2 (eqb_empty_false k) (is_hex64_not_empty k Hhex)). simpl.
  unfold privateKeyToAddress.
  rewrite (proj2 (eqb_empty_false k) (is_hex64_not_empty k Hhex)).
  rewrite (is_hex64_strip0x k Hhex).
  assert (Hplus : is_hex_plus k = true).
  { unfold is_hex_plus.
    rewrite (proj2 (eqb_empty_false k) (is_hex64_not_empty k Hhex)).
    unfold is_hex64 in Hhex. now apply andb_prop in Hhex as [_ ->]. }
  rewrite Hplus, Hw. reflexivity.
Qed.

(** X5. [privateKeyToAddress] takes a key with or without the [0x] prefix:
    for a key that is not empty and does not itself begin with [0x], adding
    the prefix changes nothing, neither the address nor the error. *)
Theorem privateKeyToAddress_prefix_insensitive (key : string) :
  key <> "" ->
  String.prefix "0x" key = false ->
  privateKeyToAddress ("0x" +:+ key) = privateKeyToAddress key.
Proof.
  intros Hne Hpre. unfold privateKeyToAddress.
  rewrite (proj2 (eqb_empty_false key) Hne).
  assert (Hstrip : strip0x key = key).
  { destruct (strip0x_cases key) as [H|(rest & ->)]; [exact H|].
    destruct rest; vm_compute in Hpre; discriminate Hpre. }
  rewrite Hstrip. reflexivity.
Qed.

End MoreProofs.

(** ** File names of attachments *)

Lemma string_existsb_cons (p : ascii -> bool) (c : ascii) (s : string) :
  string_existsb p (String c s) = p c || string_existsb p s.
Proof. reflexivity. Qed.

Lemma after_last_slash_no_slash (s : string) :
  string_existsb (Ascii.eqb "/") (after_last_slash s) = false.
Proof.
  induction s as [|c s IH]; [reflexivity|].
  cbn [after_last_slash].
  destruct (string_existsb (Ascii.eqb "/") s) eqn:Hs; [assumption|].
  destruct (Ascii.eqb c "/") eqn:Hc; [assumption|].
  rewrite string_existsb_cons, Hs, Ascii.eqb_sym, Hc. reflexivity.
Qed.

Lemma after_last_slash_suffix (s : string) :
  exists before, s = before +:+ after_last_slash s.
Proof.
  induction s as [|c s [before IH]]; [now exists ""|].
  cbn [after_last_slash].
  destruct (string_existsb (Ascii.eqb "/") s).
  - exists (String c before). rewrite append_cons. now f_equal.
  - destruct (Ascii.eqb c "/"); [now exists (String c "")|now exists ""].
Qed.

(** X6. The file name the upload handler gives an attachment is never
    empty; when the attachment has no title it holds no slash and is the
    end of the URL after its last slash, or [file] when the URL ends with a
    slash or is empty. *)
Theorem attachment_filename_sound (attached : Attachment) :
  attachment_filename attached <> ""
  /\ (truthy_opt (att_title attached) = false ->
      string_existsb (Ascii.eqb "/") (attachment_filename attached) = false
      /\ (attachment_filename attached = "file"
          \/ exists before,
               att_url attached = before +:+ attachment_filename attached)).
Proof.
  unfold attachment_filename.
  destruct (att_title attached) as [t|]; simpl.
  - destruct (String.eqb_spec t "") as [->|Ht]; simpl.
    + destruct (String.eqb_spec (after_last_slash (att_url attached)) "")
        as [Hl|Hl]; (split; [try discriminate; assumption|]); intros _.
      * split; [reflexivity|now left].
      * split; [apply after_last_slash_no_slash|].
        right. apply after_last_slash_suffix.
    + split; [assumption|discriminate].
  - destruct (String.eqb_spec (after_last_slash (att_url attached)) "")
      as [Hl|Hl]; (split; [try discriminate; assumption|]); intros _.
    + split; [reflexivity|now left].
    + split; [apply after_last_slash_no_slash|].
      right. apply after_last_slash_suffix.
Qed.

(** ** The scan for CIDs *)

Lemma string_drop_app (a b : string) : string_drop (String.length a) (a +:+ b) = b.
Proof. induction a as [|c a IH]; [now destruct b|]. exact IH. Qed.

Lemma substring_prefix (n : nat) (s : string) :
  exists rest, s = String.substring 0 n s +:+ rest.
Proof.
  revert s. induction n as [|n IH]; intros [|c s]; simpl.
  - now exists "".
  - now exists (String c s).
  - now exists "".
  - destruct (IH s) as [rest H]. exists rest. rewrite append_cons. now f_equal.
Qed.

Lemma take_alnum_prefix (s : string) :
  string_forallb is_alnum (take_alnum s) = true
  /\ exists rest, s = take_alnum s +:+ rest.
Proof.
  induction s as [|c s [IHa [rest IH]]]; simpl; [split; [reflexivity|now exists ""]|].
  destruct (is_alnum c) eqn:Hc.
  - simpl. rewrite Hc, IHa. split; [reflexivity|].
    exists rest. rewrite append_cons. now f_equal.
  - split; [reflexivity|]. now exists (String c s).
Qed.

Lemma prefix_nil (s : string) : String.prefix "" s = true.
Proof. now destruct s. Qed.

Lemma match_here_prefix (s m : string) :
  match_here s = Some m ->
  candidate m = true /\ exists rest, s = m +:+ rest.
Proof.
  unfold match_here, match_v0, match_v1.
  destruct s as [|a s]; [discriminate|].
  destruct (Ascii.eqb_spec a "Q") as [->|Ha].
  - destruct s as [|b s]; [discriminate|].
    destruct (Ascii.eqb_spec b "m") as [->|Hb].
    + destruct (String.length (String.substring 0 44 s) =? 44)%nat eqn:Hlen;
        simpl; [|discriminate].
      destruct (string_forallb is_alnum (String.substring 0 44 s)) eqn:Hall;
        simpl; [|discriminate].
      intros [= <-]. split.
      * unfold candidate. rewrite !append_cons, append_nil_l. simpl.
        rewrite Hall, prefix_nil. apply Nat.eqb_eq in Hlen. rewrite Hlen.
        reflexivity.
      * destruct (substring_prefix 44 s) as [rest H]. exists rest.
        rewrite !append_cons, append_nil_l. now rewrite <- H.
    + destruct b as [[] [] [] [] [] [] [] []]; try discriminate.
      now destruct Hb.
  - destruct (Ascii.eqb_spec a "b") as [->|Hb].
    + destruct (String.eqb_spec (take_alnum s) "") as [He|He]; [discriminate|].
      intros [= <-]. destruct (take_alnum_prefix s) as [Hall [rest H]]. split.
      * unfold candidate. simpl. rewrite Hall, prefix_nil. simpl.
        destruct (take_alnum s); [now destruct He|reflexivity].
      * exists rest. rewrite append_cons. now f_equal.
    + destruct a as [[] [] [] [] [] [] [] []]; try discriminate;
        try (now destruct Ha); now destruct Hb.
Qed.

Lemma weave_cons_gap (c : ascii) (g : string) (gaps matches : list string) :
  weave (String c g :: gaps) matches = String c (weave (g :: gaps) matches).
Proof. destruct matches; simpl; [reflexivity|]. now rewrite append_cons. Qed.

Lemma scan_weave (s : string) (skip : nat) :
  Forall (fun m => candidate m = true) (scan skip s)
  /\ exists gaps,
       length gaps = S (length (scan skip s))
       /\ weave gaps (scan skip s) = string_drop skip s.
Proof.
  revert skip. induction s as [|c s IH]; intros skip.
  - simpl. split; [constructor|]. exists [""]. now destruct skip.
  - destruct skip as [|k].
    + simpl scan. destruct (match_here (String c s)) as [m|] eqn:Hm.
      * destruct (match_here_prefix _ _ Hm) as [Hcand [rest Hs]].
        destruct m as [|c' m']; [discriminate Hcand|].
        rewrite append_cons in Hs. injection Hs as <- Hs.
        replace (String.length (String c m') - 1) with (String.length m')
          by (simpl; lia).
        destruct (IH (String.length m')) as [Hall (gaps & Hlen & Hw)].
        split; [now constructor|].
        exists ("" :: gaps). split; [simpl; now rewrite Hlen|].
        simpl weave. rewrite append_nil_l, Hw, Hs, string_drop_app.
        simpl. now rewrite append_cons.
      * destruct (IH 0) as [Hall (gaps & Hlen & Hw)]. split; [assumption|].
        destruct gaps as [|g gaps]; [discriminate Hlen|].
        exists (String c g :: gaps). split; [assumption|].
        rewrite weave_cons_gap, Hw. reflexivity.
    + exact (IH k).
Qed.

(** X7. The matches the scan finds in a text lie in it one after the other
    without overlap -- the text is a gap, a match, a gap, and so on -- and
    each is made of letters and digits only and is either [Qm] followed by
    44 of them or [b] followed by one or more. *)
Theorem scan_matches_in_text (s : string) :
  Forall (fun m => candidate m = true) (scan 0 s)
  /\ exists gaps,
       length gaps = S (length (scan 0 s)) /\ weave gaps (scan 0 s) = s.
Proof. exact (scan_weave s 0). Qed.

Section MoreActions.
Context `{E : Env}.

Lemma parse_cids_from (matches : list string) (c : string) :
  In c (parse_cids matches) ->
  exists m version,
    In m matches /\ CID_parse m = Some (version, c)
    /\ (version = 0%N \/ version = 1%N).
Proof.
  induction matches as [|m rest IH]; simpl; [intros []|].
  unfold parse_cid. destruct (CID_parse m) as [[version str]|] eqn:Hp.
  - destruct (version =? 0)%N eqn:H0; simpl.
    + intros [<-|Hin].
      * exists m, version. apply N.eqb_eq in H0. auto.
      * destruct (IH Hin) as (m' & v' & H1 & H2). eauto.
    + destruct (version =? 1)%N eqn:H1; simpl.
      * intros [<-|Hin].
        -- exists m, version. apply N.eqb_eq in H1. auto.
        -- destruct (IH Hin) as (m' & v' & H2 & H3). eauto.
      * intros Hin. destruct (IH Hin) as (m' & v' & H2 & H3). eauto.
  - intros Hin. destruct (IH Hin) as (m' & v' & H2 & H3). eauto.
Qed.

Lemma parse_cids_length (matches : list string) :
  length (parse_cids matches) <= length matches.
Proof.
  induction matches as [|m rest IH]; simpl; [lia|].
  destruct (parse_cid m); simpl; lia.
Qed.

(** X8. [getCIDsFromMessage] gives nothing for a message without text;
    every CID it gives is the [toString()] of a version 0 or version 1 CID
    that [CID.parse] made of a match of the pattern in the text, and there
    are no more CIDs than matches. *)
Theorem getCIDsFromMessage_sound (message : Memory) :
  (truthy_opt (content_text message) = false ->
   getCIDsFromMessage message = [])
  /\ (forall c, In c (getCIDsFromMessage message) ->
      exists t m version,
        content_text message = Some t /\ In m (scan 0 t)
        /\ candidate m = true
        /\ CID_parse m = Some (version, c)
        /\ (version = 0%N \/ version = 1%N))
  /\ length (getCIDsFromMessage message)
     <= length (scan 0 (default "" (content_text message))).
Proof.
  unfold getCIDsFromMessage. split; [|split].
  - now intros ->.
  - intros c. destruct (content_text message) as [t|]; simpl;
      [|intros []].
    destruct (negb (String.eqb t "")); [|intros []].
    intros Hin. destruct (parse_cids_from _ _ Hin) as (m & v & Hm & Hp & Hv).
    exists t, m, v. repeat split; try assumption.
    destruct (scan_weave t 0) as [Hall _].
    rewrite List.Forall_forall in Hall. now apply Hall.
  - destruct (truthy_opt (content_text message)); [apply parse_cids_length|].
    simpl. lia.
Qed.

End MoreActions.

Section MoreService.
Context `{E : Env}.

(** ** The service, call by call *)

Lemma login_run_frame cfg this res this' evs :
  login_run cfg this res this' evs ->
  this' = this
  \/ (res = Return tt
      /\ exists fields,
           this' = set_tokens (get_field "accessToken" fields)
                     (get_field "refreshToken" fields) this).
Proof. inversion 1; subst; eauto. Qed.

Lemma call_run_frame cfg this mk this' evs o :
  call_run cfg this mk this' evs o ->
  this' = this
  \/ (truthy (accessToken this) = false
      /\ exists fields,
           this' = set_tokens (get_field "accessToken" fields)
                     (get_field "refreshToken" fields) this).
Proof.
  destruct 1 as [r Htok|Htok Himpl|e evs Htok Hl|this1 evs Htok Hl Htok1
                |this1 evs r Htok Hl Htok1|this1 evs Htok Hl Htok1 Himpl];
    try (now left);
    destruct (login_run_frame _ _ _ _ _ Hl) as [->|[_ Hf]]; auto.
Qed.

(** X9. A [loginToMEFS] that returns made two requests and no more: the
    challenge, answered 2xx, and the exchange, answered 2xx with a JSON
    object, whose body carries the challenge text as it came and the
    signature the wallet gave for exactly that text; the service then holds
    the [accessToken] and [refreshToken] fields of the reply, whatever they
    are, and is otherwise unchanged. *)
Theorem loginToMEFS_stores_reply this w this' w' :
  loginToMEFS (this, w) = (Return tt, (this', w')) ->
  exists cfg cr signature lr fields,
    mefsConfig this = Some cfg
    /\ new_events w w'
       = [EvFetch (challenge_request cfg) (Return cr);
          EvFetch (login_request cfg (text cr) signature) (Return lr)]
    /\ ok cr = true /\ ok lr = true
    /\ Wallet_signMessage (MEFS_PRIVATE_KEY cfg) (text cr) = Return signature
    /\ body (login_request cfg (text cr) signature)
       = JsonBody [("message", text cr); ("signature", signature)]
    /\ json lr = JsonObject fields
    /\ this' = set_tokens (get_field "accessToken" fields)
                 (get_field "refreshToken" fields) this.
Proof.
  intros Hlogin.
  destruct (mefsConfig this) as [cfg|] eqn:Hcfg.
  2:{ rewrite (loginToMEFS_unconfigured _ _ Hcfg) in Hlogin. discriminate. }
  destruct (loginToMEFS_run _ _ _ _ _ _ Hcfg Hlogin) as (evs & Hrun & Htr).
  inversion Hrun; subst.
  exists cfg, cr, signature, lr, fields.
  rewrite (new_events_app _ _ _ Htr). now repeat split.
Qed.

Lemma call_run_login cfg this mk this' evs o :
  call_run cfg this mk this' evs o ->
  this' = this
  \/ (truthy (accessToken this) = false /\ logged_in_by cfg this evs this').
Proof.
  destruct 1 as [r Htok|Htok Himpl|e evs Htok Hl|this1 evs Htok Hl Htok1
                |this1 evs r Htok Hl Htok1|this1 evs Htok Hl Htok1 Himpl];
    try (now left).
  - right. split; [assumption|]. inversion Hl; subst.
    exists cr, signature, lr, fields, []. now repeat split.
  - right. split; [assumption|]. inversion Hl; subst.
    eexists cr, signature, lr, fields, _. split; [reflexivity|].
    now repeat split.
  - right. split; [assumption|]. inversion Hl; subst.
    exists cr, signature, lr, fields, []. now repeat split.
Qed.

(** X10. [uploadFile] and [retrieveFile] never change the configuration or
    the runtime of the service, and they change the tokens in one way only:
    started without a token, by the login they run first -- the call then
    began with the challenge and the exchange, both answered 2xx, and the
    service holds the [accessToken] and [refreshToken] fields of the JSON
    object the exchange was answered with. *)
Theorem storage_calls_frame this w :
  (forall buffer filename publicFile key res this' w',
     uploadFile buffer filename publicFile key (this, w) = (res, (this', w')) ->
     mefsConfig this' = mefsConfig this /\ runtime this' = runtime this
     /\ (this' = this
         \/ (truthy (accessToken this) = false
             /\ exists cfg,
                  mefsConfig this = Some cfg
                  /\ logged_in_by cfg this (new_events w w') this')))
  /\ (forall cid key res this' w',
        retrieveFile cid key (this, w) = (res, (this', w')) ->
        mefsConfig this' = mefsConfig this /\ runtime this' = runtime this
        /\ (this' = this
            \/ (truthy (accessToken this) = false
                /\ exists cfg,
                     mefsConfig this = Some cfg
                     /\ logged_in_by cfg this (new_events w w') this'))).
Proof.
  assert (Hframe : forall this' evs,
             this' = this
             \/ (truthy (accessToken this) = false
                 /\ exists cfg,
                      mefsConfig this = Some cfg
                      /\ logged_in_by cfg this evs this') ->
             mefsConfig this' = mefsConfig this
             /\ runtime this' = runtime this).
  { intros this' evs [->|(_ & cfg & _ & cr & sg & lr & fields & rest & _ & _
                           & _ & _ & ->)]; now split. }
  split.
  - intros buffer filename publicFile key res this' w' Hcall.
    assert (H : this' = this
                \/ (truthy (accessToken this) = false
                    /\ exists cfg,
                         mefsConfig this = Some cfg
                         /\ logged_in_by cfg this (new_events w w') this')).
    { destruct (mefsConfig this) as [cfg|] eqn:Hcfg.
      - destruct (uploadFile_run _ _ _ _ _ _ _ _ _ _ Hcfg Hcall)
          as (isG & evs & o & Hrun & Htr & _).
        rewrite (new_events_app _ _ _ Htr).
        destruct (call_run_login _ _ _ _ _ _ Hrun) as [->|[Htok Hl]];
          [now left|right; eauto].
      - rewrite (uploadFile_unconfigured _ _ _ _ _ _ Hcfg) in Hcall.
        left. congruence. }
    destruct (Hframe _ _ H) as [Hc Hr]. now repeat split.
  - intros cid key res this' w' Hcall.
    assert (H : this' = this
                \/ (truthy (accessToken this) = false
                    /\ exists cfg,
                         mefsConfig this = Some cfg
                         /\ logged_in_by cfg this (new_events w w') this')).
    { destruct (mefsConfig this) as [cfg|] eqn:Hcfg.
      - destruct (retrieveFile_run _ _ _ _ _ _ _ _ Hcfg Hcall)
          as (evs & o & Hrun & Htr & _).
        rewrite (new_events_app _ _ _ Htr).
        destruct (call_run_login _ _ _ _ _ _ Hrun) as [->|[Htok Hl]];
          [now left|right; eauto].
      - rewrite (retrieveFile_unconfigured _ _ _ _ Hcfg) in Hcall.
        left. congruence. }
    destruct (Hframe _ _ H) as [Hc Hr]. now repeat split.
Qed.

Lemma initializeStorage_cases this w :
  initializeStorage (this, w)
  = if bool_decide (is_Some (mefsConfig this)) && truthy (accessToken this)
    then (Return tt, (this, w))
    else
      match runtime this with
      | None => (Throw (Error "Runtime not available"), (this, w))
      | Some rt =>
          match validateStorageClientConfig rt with
          | Throw e => (Throw e, (this, w))
          | Return cfg => loginToMEFS (set_config (Some cfg) this, w)
          end
      end.
Proof.
  unfold initializeStorage. rewrite catch_rethrow.
  unfold bind at 1. unfold get_this. simpl.
  destruct (bool_decide (is_Some (mefsConfig this)) && truthy (accessToken this));
    [reflexivity|].
  destruct (runtime this) as [rt|]; [|reflexivity].
  unfold bind at 1. unfold lift.
  destruct (validateStorageClientConfig rt); reflexivity.
Qed.

(** X11. How [initializeStorage] can end.  When it returns, the service
    holds a configuration.  When it throws, both tokens are what they were;
    either nothing was sent and nothing changed (no runtime, or the
    settings failed validation), or the settings passed, the freshly
    validated configuration stays stored and the login was started and
    failed. *)
Theorem initializeStorage_outcomes this w res this' w' :
  initializeStorage (this, w) = (res, (this', w')) ->
  runtime this' = runtime this
  /\ match res with
     | Return _ => is_Some (mefsConfig this')
     | Throw e =>
         accessToken this' = accessToken this
         /\ refreshToken this' = refreshToken this
         /\ ((this' = this /\ w' = w)
             \/ exists rt cfg,
                  runtime this = Some rt
                  /\ validateStorageClientConfig rt = Return cfg
                  /\ this' = set_config (Some cfg) this
                  /\ new_events w w' <> [])
     end.
Proof.
  rewrite initializeStorage_cases.
  destruct (bool_decide (is_Some (mefsConfig this)) && truthy (accessToken this))
    eqn:Hinit.
  { intros [= <- <- <-]. split; [reflexivity|].
    apply andb_prop in Hinit as [Hc _]. now apply bool_decide_eq_true in Hc. }
  destruct (runtime this) as [rt|] eqn:Hrt.
  2:{ intros [= <- <- <-]. split; [assumption|]. repeat split. now left. }
  destruct (validateStorageClientConfig rt) as [cfg|e] eqn:Hval.
  2:{ intros [= <- <- <-]. split; [assumption|]. repeat split. now left. }
  intros Hlogin.
  destruct (loginToMEFS_run (set_config (Some cfg) this) w cfg res this' w'
              eq_refl Hlogin) as (evs & Hrun & Htr).
  destruct (login_run_starts _ _ _ _ _ Hrun) as (r & rest & ->).
  destruct (login_run_frame _ _ _ _ _ Hrun) as [->|[-> (fields & ->)]].
  - split; [assumption|]. destruct res as [[]|e]; [now eexists|].
    repeat split. right. exists rt, cfg.
    split; [reflexivity|]. split; [assumption|]. split; [reflexivity|].
    rewrite (new_events_app _ _ _ Htr). discriminate.
  - split; [assumption|]. now eexists.
Qed.

(** X12. What [uploadFile] returns is the [Mid] field of the reply, as it
    is and without a check -- [undefined] when the reply has none: a call
    that returns ends with the upload request, made with the token the
    service then holds, answered 2xx with a JSON object. *)
Theorem uploadFile_returns_Mid buffer filename publicFile key this w v this' w' :
  uploadFile buffer filename publicFile key (this, w)
  = (Return v, (this', w')) ->
  exists cfg isGlobalFormData response fields before,
    mefsConfig this' = Some cfg
    /\ truthy (accessToken this') = true
    /\ new_events w w'
       = before
         ++ [EvFetch (upload_request cfg isGlobalFormData (auth_headers this')
                        buffer filename publicFile key) (Return response)]
    /\ ok response = true
    /\ json response = JsonObject fields
    /\ v = get_field "Mid" fields.
Proof.
  intros Hcall.
  destruct (mefsConfig this) as [cfg|] eqn:Hcfg.
  2:{ rewrite (uploadFile_unconfigured _ _ _ _ _ _ Hcfg) in Hcall.
      discriminate. }
  destruct (uploadFile_run _ _ _ _ _ _ _ _ _ _ Hcfg Hcall)
    as (isG & evs & o & Hrun & Htr & Hres).
  rewrite (new_events_app _ _ _ Htr).
  assert (Hshape : forall r, o = Some r ->
            exists response fields,
              r = Return response /\ ok response = true
              /\ json response = JsonObject fields
              /\ v = get_field "Mid" fields).
  { intros r ->. unfold upload_result in Hres.
    destruct r as [response|e]; [|discriminate].
    destruct (ok response) eqn:Hok; [|discriminate].
    destruct (json response) as [| |fields] eqn:Hjson; try discriminate.
    injection Hres as ->. eauto 6. }
  destruct Hrun as [r Htok|Htok Himpl|e evs Htok Hl|this1 evs Htok Hl Htok1
                   |this1 evs r Htok Hl Htok1|this1 evs Htok Hl Htok1 Himpl];
    try (destruct Hres; discriminate).
  - destruct (Hshape r eq_refl) as (response & fields & -> & Hok & Hjson & Hv).
    exists cfg, isG, response, fields, []. now repeat split.
  - destruct (Hshape r eq_refl) as (response & fields & -> & Hok & Hjson & Hv).
    exists cfg, isG, response, fields, evs.
    repeat split; try assumption.
    exact (login_run_config _ _ _ _ _ Hcfg Hl).
Qed.

(** X13. What [retrieveFile] returns is the body of the reply, byte for
    byte: a call that returns ends with a [GET] without body, made with the
    token the service then holds and answered 2xx.  The client writes the
    URL of that request as the text [{apiUrl}/mefs/{cid}] handed to
    [new URL], and sets on it the parameter [key], and no other, when a key
    that is not empty was given; it sets none otherwise.  (What the
    constructor makes of the text -- a [cid] with [..] or [?] in it -- is
    not part of the statement.) *)
Theorem retrieveFile_returns_body cid key this w fileBuffer this' w' :
  retrieveFile cid key (this, w) = (Return fileBuffer, (this', w')) ->
  exists cfg req response before,
    mefsConfig this' = Some cfg
    /\ truthy (accessToken this') = true
    /\ new_events w w' = before ++ [EvFetch req (Return response)]
    /\ req = retrieve_request cfg (auth_headers this') cid key
    /\ method req = "GET" /\ body req = NoBody
    /\ input (url req) = MEFS_API_URL cfg +:+ "/mefs/" +:+ cid
    /\ params (url req)
       = (if truthy_opt key then [("key", default "" key)] else [])
    /\ ok response = true
    /\ fileBuffer = arrayBuffer response.
Proof.
  intros Hcall.
  destruct (mefsConfig this) as [cfg|] eqn:Hcfg.
  2:{ rewrite (retrieveFile_unconfigured _ _ _ _ Hcfg) in Hcall.
      discriminate. }
  destruct (retrieveFile_run _ _ _ _ _ _ _ _ Hcfg Hcall)
    as (evs & o & Hrun & Htr & Hres).
  rewrite (new_events_app _ _ _ Htr).
  assert (Hshape : forall r, o = Some r ->
            exists response,
              r = Return response /\ ok response = true
              /\ fileBuffer = arrayBuffer response).
  { intros r ->. unfold retrieve_result in Hres.
    destruct r as [response|e]; [|discriminate].
    destruct (ok response) eqn:Hok; [|discriminate].
    injection Hres as ->. eauto. }
  assert (Hreq : forall t,
            method (retrieve_request cfg (auth_headers t) cid key) = "GET"
            /\ body (retrieve_request cfg (auth_headers t) cid key) = NoBody
            /\ input (url (retrieve_request cfg (auth_headers t) cid key))
               = MEFS_API_URL cfg +:+ "/mefs/" +:+ cid
            /\ params (url (retrieve_request cfg (auth_headers t) cid key))
               = (if truthy_opt key then [("key", default "" key)] else [])).
  { intros t. unfold retrieve_request, retrieve_url. simpl.
    destruct (truthy_opt key); now repeat split. }
  destruct Hrun as [r Htok|Htok Himpl|e evs Htok Hl|this1 evs Htok Hl Htok1
                   |this1 evs r Htok Hl Htok1|this1 evs Htok Hl Htok1 Himpl];
    try (destruct Hres; discriminate).
  - destruct (Hshape r eq_refl) as (response & -> & Hok & Hb).
    destruct (Hreq this) as (H1 & H2 & H3 & H4).
    exists cfg, (retrieve_request cfg (auth_headers this) cid key), response, [].
    now repeat split.
  - destruct (Hshape r eq_refl) as (response & -> & Hok & Hb).
    destruct (Hreq this1) as (H1 & H2 & H3 & H4).
    exists cfg, (retrieve_request cfg (auth_headers this1) cid key), response,
      evs.
    repeat split; try assumption.
    exact (login_run_config _ _ _ _ _ Hcfg Hl).
Qed.

End MoreService.

Section MoreHandlers.
Context `{E : Env}.

(** ** What the handlers send *)

Lemma login_run_requests cfg this res this' evs ev :
  login_run cfg this res this' evs ->
  In ev evs ->
  exists req r,
    ev = EvFetch req r
    /\ (req = challenge_request cfg
        \/ exists message signature, req = login_request cfg message signature).
Proof.
  intros Hrun Hin. inversion Hrun; subst; simpl in Hin;
    repeat match goal with
           | H : _ \/ _ |- _ => destruct H
           | H : False |- _ => destruct H
           end; subst; eauto 7.
Qed.

Lemma call_run_requests cfg this mk this' evs o ev :
  call_run cfg this mk this' evs o ->
  In ev evs ->
  exists req r,
    ev = EvFetch req r
    /\ (req = challenge_request cfg
        \/ (exists message signature, req = login_request cfg message signature)
        \/ req = mk this').
Proof.
  intros Hrun Hin.
  destruct Hrun as [r Htok|Htok Himpl|e evs Htok Hl|this1 evs Htok Hl Htok1
                   |this1 evs r Htok Hl Htok1|this1 evs Htok Hl Htok1 Himpl].
  - destruct Hin as [<-|[]]. eauto 7.
  - destruct Hin.
  - destruct (login_run_requests _ _ _ _ _ _ Hl Hin) as (req & r & -> & [H|H]);
      eauto 7.
  - destruct (login_run_requests _ _ _ _ _ _ Hl Hin) as (req & r & -> & [H|H]);
      eauto 7.
  - apply in_app_or in Hin as [Hin|[<-|[]]].
    + destruct (login_run_requests _ _ _ _ _ _ Hl Hin)
        as (req & r0 & -> & [H|H]); eauto 7.
    + eauto 7.
  - destruct (login_run_requests _ _ _ _ _ _ Hl Hin) as (req & r & -> & [H|H]);
      eauto 7.
Qed.

Lemma call_run_config cfg this mk this' evs o :
  mefsConfig this = Some cfg ->
  call_run cfg this mk this' evs o -> mefsConfig this' = Some cfg.
Proof.
  intros Hcfg Hrun.
  destruct (call_run_frame _ _ _ _ _ _ Hrun) as [->|(_ & fields & ->)];
    assumption.
Qed.

Lemma retrieve_handler_request_mono cfg cid cids req :
  retrieve_handler_request cfg cids req ->
  retrieve_handler_request cfg (cid :: cids) req.
Proof.
  intros [H|[H|(h & c & Hin & H)]]; [now left|right; now left|].
  right. right. exists h, c. split; [now right|assumption].
Qed.

Lemma attempt_all_requests cfg cids this w :
  mefsConfig this = Some cfg ->
  mefsConfig (fst (snd (attempt_all cids (this, w)))) = Some cfg
  /\ exists evs,
       trace (snd (snd (attempt_all cids (this, w)))) = trace w ++ evs
       /\ forall ev, In ev evs ->
            exists req r,
              ev = EvFetch req r /\ retrieve_handler_request cfg cids req.
Proof.
  revert this w. induction cids as [|cid rest IH]; intros this w Hcfg; simpl.
  - split; [assumption|]. exists []. split; [now rewrite List.app_nil_r|].
    intros ev [].
  - destruct (retrieveFile cid None (this, w)) as [r [this1 w1]] eqn:Hcall.
    destruct (retrieveFile_run _ _ _ _ _ _ _ _ Hcfg Hcall)
      as (evs1 & o & Hrun & Htr1 & _).
    pose proof (call_run_config _ _ _ _ _ _ Hcfg Hrun) as Hcfg1.
    destruct (IH this1 w1 Hcfg1) as (Hcfg2 & evs2 & Htr2 & Hreq2).
    destruct (attempt_all rest (this1, w1)) as [outcomes [this2 w2]].
    simpl in *. split; [assumption|].
    exists (evs1 ++ evs2). split.
    + rewrite Htr2, Htr1. now rewrite <- List.app_assoc.
    + intros ev Hin. apply in_app_or in Hin as [Hin|Hin].
      * destruct (call_run_requests _ _ _ _ _ _ _ Hrun Hin)
          as (req & r0 & -> & [H|[H|H]]); exists req, r0;
          (split; [reflexivity|]).
        -- now left.
        -- right. now left.
        -- right. right. exists (auth_headers this1), cid.
           split; [now left|assumption].
      * destruct (Hreq2 ev Hin) as (req & r0 & -> & H). exists req, r0.
        split; [reflexivity|]. now apply retrieve_handler_request_mono.
Qed.

Lemma initializeStorage_requests this w res this' w' :
  initializeStorage (this, w) = (res, (this', w')) ->
  exists evs,
    trace w' = trace w ++ evs
    /\ (evs = []
        \/ exists cfg,
             mefsConfig this' = Some cfg
             /\ forall ev, In ev evs ->
                  exists req r,
                    ev = EvFetch req r
                    /\ (req = challenge_request cfg
                        \/ exists message signature,
                             req = login_request cfg message signature)).
Proof.
  rewrite initializeStorage_cases.
  destruct (bool_decide (is_Some (mefsConfig this)) && truthy (accessToken this)).
  { intros [= <- <- <-]. exists []. split; [now rewrite List.app_nil_r|now left]. }
  destruct (runtime this) as [rt|].
  2:{ intros [= <- <- <-]. exists [].
      split; [now rewrite List.app_nil_r|now left]. }
  destruct (validateStorageClientConfig rt) as [cfg|e].
  2:{ intros [= <- <- <-]. exists [].
      split; [now rewrite List.app_nil_r|now left]. }
  intros Hlogin.
  destruct (loginToMEFS_run (set_config (Some cfg) this) w cfg res this' w'
              eq_refl Hlogin) as (evs & Hrun & Htr).
  exists evs. split; [assumption|]. right. exists cfg. split.
  - exact (login_run_config cfg (set_config (Some cfg) this) _ _ _ eq_refl
             Hrun).
  - intros ev Hin. exact (login_run_requests _ _ _ _ _ _ Hrun Hin).
Qed.

Lemma initializeStorage_outcomes_config this w this' w' :
  initializeStorage (this, w) = (Return tt, (this', w')) ->
  exists cfg, mefsConfig this' = Some cfg.
Proof.
  rewrite initializeStorage_cases.
  destruct (bool_decide (is_Some (mefsConfig this)) && truthy (accessToken this))
    eqn:Hinit.
  { intros [= <- <-]. apply andb_prop in Hinit as [Hc _].
    apply bool_decide_eq_true in Hc. destruct Hc as [cfg Hc]. eauto. }
  destruct (runtime this) as [rt|]; [|discriminate].
  destruct (validateStorageClientConfig rt) as [cfg|e]; [|discriminate].
  intros Hlogin.
  destruct (loginToMEFS_run (set_config (Some cfg) this) w cfg _ this' w'
              eq_refl Hlogin) as (evs & Hrun & _).
  exists cfg.
  exact (login_run_config cfg (set_config (Some cfg) this) _ _ _ eq_refl Hrun).
Qed.

Lemma retrieve_body_eq cids callback s :
  retrieve_body cids callback s
  = match initializeStorage s with
    | (Throw e, s1) => (Throw e, s1)
    | (Return _, s1) =>
        let final := snd (attempt_all cids s1) in
        let retrievedFiles := retrieved_of (fst (attempt_all cids s1)) in
        let notFoundFiles := failed_of (fst (attempt_all cids s1)) in
        if (length retrievedFiles =? 0)%nat
        then (Return (failed "STORAGE_RETRIEVE" (none_found_text notFoundFiles)
                        "No files found for the given CIDs"),
              (fst final,
               emit callback (none_found_text notFoundFiles) (snd final)))
        else (Return {| success := true;
                        result_text :=
                          retrieved_text retrievedFiles notFoundFiles;
                        actions := ["STORAGE_RETRIEVE"];
                        values := VRetrievedFiles retrievedFiles |},
              (fst final,
               emit callback (retrieved_text retrievedFiles notFoundFiles)
                 (snd final)))
    end.
Proof.
  unfold retrieve_body. unfold bind at 1.
  destruct (initializeStorage s) as [[[]|e] s1]; [|reflexivity].
  unfold bind at 1. rewrite retrieve_loop_attempts. cbn [fst snd app].
  destruct (length (retrieved_of (fst (attempt_all cids s1))) =? 0)%nat;
    reflexivity.
Qed.

Lemma emit_events callback t w :
  exists evs,
    trace (emit callback t w) = trace w ++ evs
    /\ forall ev, In ev evs -> ev = EvCallback t.
Proof.
  destruct callback; simpl.
  - exists [EvCallback t]. split; [reflexivity|]. now intros ev [<-|[]].
  - exists []. split; [now rewrite List.app_nil_r|]. intros ev [].
Qed.

(** X14. A request the retrieve handler makes is a request of the login or
    a [GET] of [{apiUrl}/mefs/{cid}], without key, for a CID found in the
    message, on the configuration the service holds when the handler ends:
    the handler never uploads and fetches nothing it was not asked for. *)
Theorem retrieve_handler_requests service message callback w req r :
  let run := retrieve_handler service message callback w in
  In (EvFetch req r) (new_events w (snd (snd run))) ->
  exists this' cfg,
    fst (snd run) = Some this'
    /\ mefsConfig this' = Some cfg
    /\ retrieve_handler_request cfg (getCIDsFromMessage message) req.
Proof.
  intros run. unfold run, retrieve_handler.
  destruct (length (getCIDsFromMessage message) =? 0)%nat.
  { simpl. destruct (emit_events callback
                       "You didn't provide any CID values to retrieve files." w)
      as (evs & Htr & Hev).
    rewrite (new_events_app _ _ _ Htr). intros Hin.
    now specialize (Hev _ Hin). }
  destruct service as [storageService|].
  2:{ simpl. destruct (emit_events callback
                         "Storage service is not available in runtime." w)
        as (evs & Htr & Hev).
      rewrite (new_events_app _ _ _ Htr). intros Hin.
      now specialize (Hev _ Hin). }
  rewrite retrieve_body_eq.
  destruct (initializeStorage (storageService, w)) as [[[]|e] [this0 w0]]
    eqn:Hinit.
  - destruct (initializeStorage_requests _ _ _ _ _ Hinit) as (evs0 & Htr0 & Hev0).
    assert (Hcfg0 : exists cfg, mefsConfig this0 = Some cfg).
    { destruct (initializeStorage_outcomes_config _ _ _ _ Hinit) as [cfg H].
      eauto. }
    destruct Hcfg0 as [cfg Hcfg0].
    pose proof (attempt_all_requests cfg (getCIDsFromMessage message) this0 w0
                  Hcfg0) as Hloop.
    destruct (attempt_all (getCIDsFromMessage message) (this0, w0))
      as [outcomes [this1 w1]].
    cbn [fst snd] in Hloop. destruct Hloop as (Hcfg1 & evs1 & Htr1 & Hev1).
    cbv zeta. cbn [fst snd].
    destruct (length (retrieved_of outcomes) =? 0)%nat; cbn [fst snd];
      match goal with
      | |- context [emit callback ?t w1] =>
          destruct (emit_events callback t w1) as (evs2 & Htr2 & Hev2);
          assert (Htr : trace (emit callback t w1)
                        = trace w ++ (evs0 ++ evs1 ++ evs2))
            by (rewrite Htr2, Htr1, Htr0; now rewrite <- !List.app_assoc)
      end;
      rewrite (new_events_app _ _ _ Htr); intros Hin;
      exists this1, cfg; (split; [reflexivity|]); (split; [exact Hcfg1|]);
      (apply in_app_or in Hin as [Hin|Hin];
       [|apply in_app_or in Hin as [Hin|Hin]]);
      [ destruct Hev0 as [->|(cfg' & Hcfg' & Hev0)]; [destruct Hin|];
        assert (cfg' = cfg) as -> by congruence;
        destruct (Hev0 _ Hin) as (req' & r' & [= <- <-] & [H|H]);
        [now left|right; now left]
      | destruct (Hev1 _ Hin) as (req' & r' & [= <- <-] & H); exact H
      | now specialize (Hev2 _ Hin)
      | destruct Hev0 as [->|(cfg' & Hcfg' & Hev0)]; [destruct Hin|];
        assert (cfg' = cfg) as -> by congruence;
        destruct (Hev0 _ Hin) as (req' & r' & [= <- <-] & [H|H]);
        [now left|right; now left]
      | destruct (Hev1 _ Hin) as (req' & r' & [= <- <-] & H); exact H
      | now specialize (Hev2 _ Hin) ].
  - destruct (initializeStorage_requests _ _ _ _ _ Hinit) as (evs0 & Htr0 & Hev0).
    cbn [fst snd].
    destruct (emit_events callback
                ("Error during retrieve file(s) from MEFS: " +:+ message_of e)
                w0) as (evs2 & Htr2 & Hev2).
    assert (Htr : trace (emit callback
                           ("Error during retrieve file(s) from MEFS: "
                            +:+ message_of e) w0)
                  = trace w ++ (evs0 ++ evs2)).
    { rewrite Htr2, Htr0. now rewrite <- List.app_assoc. }
    rewrite (new_events_app _ _ _ Htr). intros Hin.
    apply in_app_or in Hin as [Hin|Hin]; [|now specialize (Hev2 _ Hin)].
    destruct Hev0 as [->|(cfg & Hcfg & Hev0)]; [destruct Hin|].
    exists this0, cfg. split; [reflexivity|]. split; [assumption|].
    destruct (Hev0 _ Hin) as (req' & r' & [= <- <-] & [H|H]);
      [now left|right; now left].
Qed.

End MoreHandlers.

Section MoreUploads.
Context `{E : Env}.

(** ** The upload handler *)

Lemma count_uploads_app (a b : list Event) :
  count_uploads (a ++ b) = count_uploads a + count_uploads b.
Proof. unfold count_uploads. now rewrite List.filter_app, List.length_app. Qed.

Lemma login_run_no_upload cfg this res this' evs :
  login_run cfg this res this' evs -> count_uploads evs = 0.
Proof. inversion 1; reflexivity. Qed.

Lemma only_file_part_app (a b : list Event) :
  only_file_part a -> only_file_part b -> only_file_part (a ++ b).
Proof.
  intros Ha Hb req r parts Hin. apply in_app_or in Hin as [Hin|Hin]; eauto.
Qed.

Lemma only_file_part_nil : only_file_part [].
Proof. intros req r parts []. Qed.

Lemma only_file_part_callbacks evs t :
  (forall ev, In ev evs -> ev = EvCallback t) -> only_file_part evs.
Proof. intros H req r parts Hin. now specialize (H _ Hin). Qed.

Lemma count_uploads_callbacks evs t :
  (forall ev, In ev evs -> ev = EvCallback t) -> count_uploads evs = 0.
Proof.
  unfold count_uploads. induction evs as [|ev evs IH]; intros H; [reflexivity|].
  simpl. rewrite (H ev (or_introl eq_refl)). simpl. apply IH.
  intros ev' Hin. apply H. now right.
Qed.

Lemma login_events_only_file_part evs :
  (forall req r parts, In (EvFetch req r) evs -> body req <> FormBody parts) ->
  only_file_part evs.
Proof. intros H req r parts Hin Hbody. now destruct (H req r parts Hin). Qed.

Lemma count_uploads_none evs :
  (forall req r parts, In (EvFetch req r) evs -> body req <> FormBody parts) ->
  count_uploads evs = 0.
Proof.
  unfold count_uploads. induction evs as [|ev evs IH]; intros H; [reflexivity|].
  assert (IH' : length (List.filter is_upload_event evs) = 0).
  { apply IH. intros req r parts Hin. apply (H req r parts). now right. }
  simpl. destruct ev as [req r|t]; simpl; [|exact IH'].
  destruct (body req) as [|fields|parts] eqn:Hb; try exact IH'.
  now destruct (H req r parts (or_introl eq_refl)).
Qed.

(** The events of one private upload without key. *)
Lemma uploadFile_private_events buffer filename this w res this' w' :
  uploadFile buffer filename false None (this, w) = (res, (this', w')) ->
  exists evs,
    trace w' = trace w ++ evs
    /\ only_file_part evs
    /\ (forall v, res = Return v -> count_uploads evs = 1).
Proof.
  intros Hcall.
  destruct (mefsConfig this) as [cfg|] eqn:Hcfg.
  2:{ rewrite (uploadFile_unconfigured _ _ _ _ _ _ Hcfg) in Hcall.
      injection Hcall as <- <- <-. exists [].
      split; [now rewrite List.app_nil_r|].
      split; [apply only_file_part_nil|discriminate]. }
  destruct (uploadFile_run _ _ _ _ _ _ _ _ _ _ Hcfg Hcall)
    as (isG & evs & o & Hrun & Htr & Hres).
  exists evs. split; [assumption|].
  assert (Hup : forall r,
            only_file_part
              [EvFetch (upload_request cfg isG (auth_headers this') buffer
                          filename false None) r]).
  { intros r req r0 parts [[= <- <-]|[]] [= <-]. unfold upload_parts. simpl.
    eauto. }
  destruct Hrun as [r Htok|Htok Himpl|e evs Htok Hl|this1 evs Htok Hl Htok1
                   |this1 evs r Htok Hl Htok1|this1 evs Htok Hl Htok1 Himpl].
  - split; [apply Hup|intros v _; reflexivity].
  - split; [apply only_file_part_nil|].
    intros v ->. destruct Hres. discriminate.
  - split; [|intros v ->; destruct Hres; discriminate].
    apply login_events_only_file_part. intros req r parts Hin.
    exact (login_run_no_form _ _ _ _ _ _ _ parts Hl Hin).
  - split; [|intros v ->; destruct Hres; discriminate].
    apply login_events_only_file_part. intros req r parts Hin.
    exact (login_run_no_form _ _ _ _ _ _ _ parts Hl Hin).
  - split.
    + apply only_file_part_app; [|apply Hup].
      apply login_events_only_file_part. intros req r0 parts Hin.
      exact (login_run_no_form _ _ _ _ _ _ _ parts Hl Hin).
    + intros v _. rewrite count_uploads_app, (login_run_no_upload _ _ _ _ _ Hl).
      reflexivity.
  - split; [|intros v ->; destruct Hres; discriminate].
    apply login_events_only_file_part. intros req r parts Hin.
    exact (login_run_no_form _ _ _ _ _ _ _ parts Hl Hin).
Qed.

Lemma upload_attachments_step attached rest cidResults s :
  upload_attachments (attached :: rest) cidResults s
  = match upload_attachment attached s with
    | (Return cid, s1) => upload_attachments rest (cidResults ++ [cid]) s1
    | (Throw e, s1) => (Throw e, s1)
    end.
Proof.
  cbn [upload_attachments]. unfold bind at 1. rewrite catch_rethrow.
  reflexivity.
Qed.

Lemma upload_responses_step response rest cidResults s :
  upload_responses (response :: rest) cidResults s
  = if has_text response then
      match upload_response response s with
      | (Return cid, s1) => upload_responses rest (cidResults ++ [cid]) s1
      | (Throw e, s1) => (Throw e, s1)
      end
    else upload_responses rest cidResults s.
Proof.
  cbn [upload_responses]. unfold has_text.
  destruct (truthy_opt (content_text response)); [|reflexivity].
  unfold bind at 1. rewrite catch_rethrow. reflexivity.
Qed.

Lemma upload_attachment_events attached s res s' :
  upload_attachment attached s = (res, s') ->
  exists evs,
    trace (snd s') = trace (snd s) ++ evs
    /\ only_file_part evs
    /\ (forall v, res = Return v -> count_uploads evs = 1).
Proof.
  unfold upload_attachment, bind, read_file.
  destruct (fs_readFileSync (att_url attached) (ext (snd s))) as [fileContent|e].
  - destruct s as [this w]. destruct s' as [this' w']. intros Hcall.
    exact (uploadFile_private_events _ _ _ _ _ _ _ Hcall).
  - intros [= <- <-]. exists []. split; [now rewrite List.app_nil_r|].
    split; [apply only_file_part_nil|discriminate].
Qed.

Lemma upload_response_events response s res s' :
  upload_response response s = (res, s') ->
  exists evs,
    trace (snd s') = trace (snd s) ++ evs
    /\ only_file_part evs
    /\ (forall v, res = Return v -> count_uploads evs = 1).
Proof.
  unfold upload_response, bind, now.
  destruct s as [this w]. destruct s' as [this' w']. intros Hcall.
  exact (uploadFile_private_events _ _ _ _ _ _ _ Hcall).
Qed.

Lemma upload_attachments_events attachments cidResults s res s' :
  upload_attachments attachments cidResults s = (res, s') ->
  exists evs,
    trace (snd s') = trace (snd s) ++ evs
    /\ only_file_part evs
    /\ (forall out, res = Return out ->
        count_uploads evs = length attachments
        /\ length out = length cidResults + length attachments).
Proof.
  revert cidResults s. induction attachments as [|attached rest IH];
    intros cidResults s.
  - intros [= <- <-]. exists []. split; [now rewrite List.app_nil_r|].
    split; [apply only_file_part_nil|]. intros out [= <-].
    split; [reflexivity|simpl; lia].
  - rewrite upload_attachments_step.
    destruct (upload_attachment attached s) as [[cid|e] s1] eqn:Hone;
      destruct (upload_attachment_events _ _ _ _ Hone) as (evs1 & Htr1 & Hp1 & Hc1).
    + intros Hrest. destruct (IH _ _ Hrest) as (evs2 & Htr2 & Hp2 & Hc2).
      exists (evs1 ++ evs2). split; [|split].
      * rewrite Htr2, Htr1. now rewrite <- List.app_assoc.
      * now apply only_file_part_app.
      * intros out Hout. destruct (Hc2 out Hout) as [H1 H2].
        rewrite count_uploads_app, (Hc1 cid eq_refl), H1, H2.
        rewrite List.length_app. simpl. lia.
    + intros [= <- <-]. exists evs1. split; [assumption|].
      split; [assumption|discriminate].
Qed.

Lemma upload_responses_events responses cidResults s res s' :
  upload_responses responses cidResults s = (res, s') ->
  exists evs,
    trace (snd s') = trace (snd s) ++ evs
    /\ only_file_part evs
    /\ (forall out, res = Return out ->
        count_uploads evs = length (List.filter has_text responses)).
Proof.
  revert cidResults s. induction responses as [|response rest IH];
    intros cidResults s.
  - intros [= <- <-]. exists []. split; [now rewrite List.app_nil_r|].
    split; [apply only_file_part_nil|]. reflexivity.
  - rewrite upload_responses_step. cbn [List.filter].
    destruct (has_text response); [|apply IH].
    destruct (upload_response response s) as [[cid|e] s1] eqn:Hone;
      destruct (upload_response_events _ _ _ _ Hone) as (evs1 & Htr1 & Hp1 & Hc1).
    + intros Hrest. destruct (IH _ _ Hrest) as (evs2 & Htr2 & Hp2 & Hc2).
      exists (evs1 ++ evs2). split; [|split].
      * rewrite Htr2, Htr1. now rewrite <- List.app_assoc.
      * now apply only_file_part_app.
      * intros out Hout. rewrite count_uploads_app, (Hc1 cid eq_refl).
        rewrite (Hc2 out Hout). reflexivity.
    + intros [= <- <-]. exists evs1. split; [assumption|].
      split; [assumption|discriminate].
Qed.

(** The [try] block of the upload handler: what it sends, and how it ends
    when it returns. *)
Lemma upload_body_events attachments responses callback s res s' :
  upload_body attachments responses callback s = (res, s') ->
  exists evs,
    trace (snd s') = trace (snd s) ++ evs
    /\ only_file_part evs
    /\ (forall result, res = Return result ->
        success result = true
        /\ count_uploads evs
           = length (default [] attachments)
             + length (List.filter has_text (default [] responses))
        /\ exists w2, snd s' = emit callback (result_text result) w2).
Proof.
  unfold upload_body. unfold bind at 1.
  destruct (initializeStorage s) as [[[]|e] [this0 w0]] eqn:Hinit;
    destruct s as [this w];
    destruct (initializeStorage_events _ _ _ _ _ Hinit) as (evs0 & Htr0 & Hno0).
  2:{ intros [= <- <-]. exists evs0. split; [assumption|].
      split; [now apply login_events_only_file_part|discriminate]. }
  unfold bind at 1.
  destruct (upload_attachments (default [] attachments) [] (this0, w0))
    as [[uploaded|e] s1] eqn:Hatt;
    destruct (upload_attachments_events _ _ _ _ _ Hatt)
      as (evs1 & Htr1 & Hp1 & Hc1).
  2:{ intros [= <- <-]. exists (evs0 ++ evs1). split; [|split].
      - rewrite Htr1. simpl. rewrite Htr0. now rewrite <- List.app_assoc.
      - apply only_file_part_app; [now apply login_events_only_file_part|].
        assumption.
      - discriminate. }
  unfold bind at 1.
  destruct (upload_responses (default [] responses) uploaded s1)
    as [[cidResults|e] s2] eqn:Hresp;
    destruct (upload_responses_events _ _ _ _ _ Hresp)
      as (evs2 & Htr2 & Hp2 & Hc2).
  2:{ intros [= <- <-]. exists (evs0 ++ evs1 ++ evs2). split; [|split].
      - rewrite Htr2, Htr1. simpl. rewrite Htr0.
        now rewrite <- !List.app_assoc.
      - apply only_file_part_app; [now apply login_events_only_file_part|].
        now apply only_file_part_app.
      - discriminate. }
  unfold bind, do_callback, ret. intros [= <- <-]. cbn [fst snd].
  destruct (emit_events callback (uploaded_text cidResults) (snd s2))
    as (evs3 & Htr3 & Hev3).
  exists (evs0 ++ evs1 ++ evs2 ++ evs3). split; [|split].
  - rewrite Htr3, Htr2, Htr1. simpl. rewrite Htr0.
    now rewrite <- !List.app_assoc.
  - apply only_file_part_app; [now apply login_events_only_file_part|].
    apply only_file_part_app; [assumption|].
    apply only_file_part_app; [assumption|].
    now apply (only_file_part_callbacks _ (uploaded_text cidResults)).
  - intros result [= <-]. split; [reflexivity|]. split.
    + rewrite !count_uploads_app, (count_uploads_none _ Hno0).
      destruct (Hc1 uploaded eq_refl) as [-> _].
      rewrite (Hc2 cidResults eq_refl).
      rewrite (count_uploads_callbacks _ _ Hev3). simpl. lia.
    + exists (snd s2). reflexivity.
Qed.

Lemma upload_guard_false (l : list Attachment) :
  l <> [] ->
  match Some l with Some [] => true | _ => false end = false.
Proof. now destruct l. Qed.

(** The handler on a message whose guard does not fire, with the service
    at hand. *)
Lemma upload_handler_eq storageService message callback responses w :
  match content_attachments message with Some [] => true | _ => false end
  = false ->
  upload_handler (Some storageService) message callback responses w
  = match upload_body (content_attachments message) responses callback
            (storageService, emit callback "OK! Uploading file(s) to MEFS..." w)
    with
    | (Return result, (this, w')) => (result, (Some this, w'))
    | (Throw error, (this, w')) =>
        (failed "STORAGE_UPLOAD"
           "Sorry, failed to upload file(s) to MEFS. Please try again later."
           (message_of error),
         (Some this,
          emit callback
            "Sorry, failed to upload file(s) to MEFS. Please try again later."
            w'))
    end.
Proof. intros Hguard. unfold upload_handler. now rewrite Hguard. Qed.

(** X15. Every upload request the upload handler sends holds the file part
    and nothing else: no [public] field and no [key] field -- the action
    never makes a file public and never passes a key. *)
Theorem upload_handler_uploads_private service message callback responses w
    req r parts :
  let run := upload_handler service message callback responses w in
  In (EvFetch req r) (new_events w (snd (snd run))) ->
  body req = FormBody parts ->
  (exists data filename type, parts = [FilePart "file" data filename type])
  /\ ~ has_field "public" parts /\ ~ has_field "key" parts.
Proof.
  intros run Hin Hbody.
  assert (Hone : exists data filename type,
             parts = [FilePart "file" data filename type]).
  { revert Hin Hbody. unfold run. clear run.
    destruct (match content_attachments message with
              | Some [] => true | _ => false end) eqn:Hguard.
    { unfold upload_handler. rewrite Hguard. cbn [fst snd].
      match goal with
      | |- context [emit callback ?t w] =>
          destruct (emit_events callback t w) as (evs & Htr & Hev)
      end.
      rewrite (new_events_app _ _ _ Htr). intros Hin.
      now specialize (Hev _ Hin). }
    destruct (emit_events callback "OK! Uploading file(s) to MEFS..." w)
      as (evsA & HtrA & HevA).
    destruct service as [storageService|].
    2:{ unfold upload_handler. rewrite Hguard. cbn [fst snd].
        match goal with
        | |- context [emit callback ?t (emit callback ?t0 w)] =>
            destruct (emit_events callback t (emit callback t0 w))
              as (evs & Htr & Hev)
        end.
        rewrite HtrA, <- List.app_assoc in Htr.
        rewrite (new_events_app _ _ _ Htr). intros Hin.
        apply in_app_or in Hin as [Hin|Hin];
          [now specialize (HevA _ Hin)|now specialize (Hev _ Hin)]. }
    rewrite (upload_handler_eq _ _ _ _ _ Hguard).
    destruct (upload_body (content_attachments message) responses callback
                (storageService,
                 emit callback "OK! Uploading file(s) to MEFS..." w))
      as [[result|e] [this1 w1]] eqn:Hbody;
      destruct (upload_body_events _ _ _ _ _ _ Hbody) as (evs & Htr & Hp & _);
      cbn [fst snd] in *.
    - rewrite HtrA, <- List.app_assoc in Htr.
      rewrite (new_events_app _ _ _ Htr). intros Hin Hb.
      apply in_app_or in Hin as [Hin|Hin]; [now specialize (HevA _ Hin)|].
      exact (Hp req r parts Hin Hb).
    - match goal with
      | |- context [emit callback ?t w1] =>
          destruct (emit_events callback t w1) as (evs2 & Htr2 & Hev2)
      end.
      rewrite Htr, HtrA, <- !List.app_assoc in Htr2.
      rewrite (new_events_app _ _ _ Htr2). intros Hin Hb.
      apply in_app_or in Hin as [Hin|Hin]; [now specialize (HevA _ Hin)|].
      apply in_app_or in Hin as [Hin|Hin]; [exact (Hp req r parts Hin Hb)|].
      now specialize (Hev2 _ Hin). }
  split; [exact Hone|].
  destruct Hone as (data & filename & type & ->).
  split; intros [v [H|[]]]; discriminate H.
Qed.

(** X16. When the upload action succeeds it sent exactly one upload request
    for each attachment and one for each response that has a text. *)
Theorem upload_handler_uploads_each service message callback responses w :
  let run := upload_handler service message callback responses w in
  success (fst run) = true ->
  count_uploads (new_events w (snd (snd run)))
  = length (default [] (content_attachments message))
    + length (List.filter has_text (default [] responses)).
Proof.
  intros run. unfold run. clear run.
  destruct (match content_attachments message with
            | Some [] => true | _ => false end) eqn:Hguard.
  { unfold upload_handler. rewrite Hguard. discriminate. }
  destruct service as [storageService|].
  2:{ unfold upload_handler. rewrite Hguard. discriminate. }
  rewrite (upload_handler_eq _ _ _ _ _ Hguard).
  destruct (emit_events callback "OK! Uploading file(s) to MEFS..." w)
    as (evsA & HtrA & HevA).
  destruct (upload_body (content_attachments message) responses callback
              (storageService,
               emit callback "OK! Uploading file(s) to MEFS..." w))
    as [[result|e] [this1 w1]] eqn:Hbody; [|discriminate].
  destruct (upload_body_events _ _ _ _ _ _ Hbody) as (evs & Htr & _ & Hc).
  destruct (Hc result eq_refl) as (_ & Hcount & _).
  cbn [fst snd] in *. intros _.
  rewrite HtrA, <- List.app_assoc in Htr.
  rewrite (new_events_app _ _ _ Htr), count_uploads_app.
  rewrite (count_uploads_callbacks _ _ HevA). exact Hcount.
Qed.

Lemma upload_attachments_app done rest cidResults s :
  upload_attachments (done ++ rest) cidResults s
  = match upload_attachments done cidResults s with
    | (Return out, s1) => upload_attachments rest out s1
    | (Throw e, s1) => (Throw e, s1)
    end.
Proof.
  revert cidResults s. induction done as [|attached done IH];
    intros cidResults s; [reflexivity|].
  rewrite <- List.app_comm_cons, !upload_attachments_step.
  destruct (upload_attachment attached s) as [[cid|e] s1]; [apply IH|reflexivity].
Qed.

(** X17. The loop over the attachments stops at the first one that fails:
    when reading or uploading an attachment throws, the action fails with
    that error, the attachments after it and the responses are not tried,
    and the CIDs of the attachments already uploaded are not reported. *)
Theorem upload_handler_stops_at_failure storageService message callback
    responses w done attached rest this0 w0 uploaded s1 e this2 w2 :
  content_attachments message = Some (done ++ attached :: rest) ->
  initializeStorage
    (storageService, emit callback "OK! Uploading file(s) to MEFS..." w)
  = (Return tt, (this0, w0)) ->
  upload_attachments done [] (this0, w0) = (Return uploaded, s1) ->
  upload_attachment attached s1 = (Throw e, (this2, w2)) ->
  upload_handler (Some storageService) message callback responses w
  = (failed "STORAGE_UPLOAD"
       "Sorry, failed to upload file(s) to MEFS. Please try again later."
       (message_of e),
     (Some this2,
      emit callback
        "Sorry, failed to upload file(s) to MEFS. Please try again later."
        w2)).
Proof.
  intros Hatt Hinit Hdone Hfail.
  rewrite upload_handler_eq.
  2:{ rewrite Hatt. apply upload_guard_false. now destruct done. }
  unfold upload_body. unfold bind at 1. rewrite Hinit.
  unfold bind at 1. rewrite Hatt.
  change (default [] (Some (done ++ attached :: rest)))
    with (done ++ attached :: rest).
  rewrite upload_attachments_app, Hdone, upload_attachments_step, Hfail.
  reflexivity.
Qed.

(** X18. With a callback, the last thing either handler does is to call it
    with the very text of the result it returns. *)
Theorem handlers_call_back_with_result service message responses w :
  (let run := retrieve_handler service message true w in
   last (trace (snd (snd run))) = Some (EvCallback (result_text (fst run))))
  /\ (let run := upload_handler service message true responses w in
      last (trace (snd (snd run))) = Some (EvCallback (result_text (fst run)))).
Proof.
  split.
  - unfold retrieve_handler.
    destruct (length (getCIDsFromMessage message) =? 0)%nat;
      [cbn; apply last_snoc|].
    destruct service as [storageService|]; [|cbn; apply last_snoc].
    rewrite retrieve_body_eq.
    destruct (initializeStorage (storageService, w)) as [[[]|e] [this0 w0]];
      [|cbn; apply last_snoc].
    cbv zeta.
    destruct (attempt_all (getCIDsFromMessage message) (this0, w0))
      as [outcomes [this1 w1]]. cbn [fst snd].
    destruct (length (retrieved_of outcomes) =? 0)%nat; cbn; apply last_snoc.
  - destruct (match content_attachments message with
              | Some [] => true | _ => false end) eqn:Hguard.
    { unfold upload_handler. rewrite Hguard. cbn. apply last_snoc. }
    destruct service as [storageService|].
    2:{ unfold upload_handler. rewrite Hguard. cbn. apply last_snoc. }
    rewrite (upload_handler_eq _ _ _ _ _ Hguard).
    destruct (upload_body (content_attachments message) responses true
                (storageService,
                 emit true "OK! Uploading file(s) to MEFS..." w))
      as [[result|e] [this1 w1]] eqn:Hbody; [|cbn; apply last_snoc].
    destruct (upload_body_events _ _ _ _ _ _ Hbody) as (evs & _ & _ & Hc).
    destruct (Hc result eq_refl) as (_ & _ & w2 & Hw). cbn [fst snd] in *.
    rewrite Hw. cbn. apply last_snoc.
Qed.

End MoreUploads.

Section MorePlugin.
Context `{E : Env}.

(** ** [init] of the plugin *)

Lemma plugin_error_messages_not_empty config issues :
  plugin_error_messages config issues <> "".
Proof.
  unfold plugin_error_messages.
  match goal with
  | |- (if String.eqb ?t "" then _ else _) <> _ =>
      destruct (String.eqb_spec t ""); [discriminate|assumption]
  end.
Qed.

(** X19. [init] sets the environment all at once or not at all.  When it
    throws, [process.env] is untouched and the error is
    [Invalid plugin configuration: ...] with a text that is never empty.
    When it returns, the four variables hold the validated values -- the
    key is the string of 64 hex digits that was given, the chain id, an
    integer below 2^53 in size, is printed in decimal -- and every other
    variable is what it was. *)
Theorem plugin_init_sets_environment config process_env res env' :
  plugin_init config process_env = (res, env') ->
  match res with
  | Throw e =>
      env' = process_env
      /\ exists messages,
           e = Error ("Invalid plugin configuration: " +:+ messages)
           /\ messages <> ""
  | Return _ =>
      exists api key chain origin,
        zod_url api = true /\ zod_url origin = true /\ zod_int chain = true
        /\ is_hex64 key = true
        /\ config "MEFS_PRIVATE_KEY" = CfgString key
        /\ env' !! "MEFS_API_URL" = Some api
        /\ env' !! "MEFS_PRIVATE_KEY" = Some key
        /\ env' !! "MEFS_CHAIN_ID" = Some (Number_toString chain)
        /\ ((Z.abs chain < 2 ^ 53)%Z ->
            env' !! "MEFS_CHAIN_ID" = Some (pretty chain))
        /\ env' !! "MEFS_ORIGIN" = Some origin
        /\ forall name, ~ In name schema_fields ->
             env' !! name = process_env !! name
  end.
Proof.
  unfold plugin_init.
  assert (Hfail : forall (r : Completion unit) e',
            (r, e') = (Throw (Error ("Invalid plugin configuration: "
                                     +:+ plugin_error_messages config
                                           (plugin_issues config))),
                       process_env) ->
            match r with
            | Throw e =>
                e' = process_env
                /\ exists messages,
                     e = Error ("Invalid plugin configuration: " +:+ messages)
                     /\ messages <> ""
            | Return _ => False
            end).
  { intros r e' [= -> ->]. split; [reflexivity|]. eexists. split; [reflexivity|].
    apply plugin_error_messages_not_empty. }
  destruct (parse_url_field "https://api.mefs.io:10000/produce"
              (config "MEFS_API_URL")) as [c1|api] eqn:Hapi.
  { intros H. symmetry in H. apply Hfail in H. now destruct res. }
  destruct (parse_key_field (config "MEFS_PRIVATE_KEY")) as [c2|key] eqn:Hkey.
  { intros H. symmetry in H. apply Hfail in H. now destruct res. }
  destruct (parse_chain_field (config "MEFS_CHAIN_ID")) as [c3|chain] eqn:Hchain.
  { intros H. symmetry in H. apply Hfail in H. now destruct res. }
  destruct (parse_url_field "https://memo.io" (config "MEFS_ORIGIN"))
    as [c4|origin] eqn:Horigin.
  { intros H. symmetry in H. apply Hfail in H. now destruct res. }
  intros [= <- <-]. exists api, key, chain, origin.
  assert (Hurl : forall d v u, parse_url_field d v = inr u -> zod_url u = true).
  { intros d v u. unfold parse_url_field. destruct v as [|s|n]; try discriminate.
    - destruct (zod_url d) eqn:H; [|discriminate]. now intros [= <-].
    - destruct (zod_url s) eqn:H; [|discriminate]. now intros [= <-]. }
  split; [exact (Hurl _ _ _ Hapi)|]. split; [exact (Hurl _ _ _ Horigin)|].
  split.
  { unfold parse_chain_field in Hchain.
    destruct (config "MEFS_CHAIN_ID") as [|s|n]; try discriminate.
    - destruct (zod_int 985) eqn:H; [|discriminate]. now injection Hchain as <-.
    - destruct (zod_int n) eqn:H; [|discriminate]. now injection Hchain as <-. }
  unfold parse_key_field in Hkey.
  destruct (config "MEFS_PRIVATE_KEY") as [|s|n]; try discriminate.
  destruct (is_hex64 s) eqn:Hhex; [|discriminate]. injection Hkey as <-.
  split; [assumption|]. split; [reflexivity|].
  split; [now rewrite !lookup_insert_ne, lookup_insert_eq by discriminate|].
  split; [now rewrite !lookup_insert_ne, lookup_insert_eq by discriminate|].
  split; [now rewrite !lookup_insert_ne, lookup_insert_eq by discriminate|].
  split.
  { intros Hsmall. rewrite !lookup_insert_ne, lookup_insert_eq by discriminate.
    unfold Number_toString.
    now rewrite (proj2 (Z.ltb_lt _ _) Hsmall). }
  split; [now rewrite lookup_insert_eq|].
  intros name Hname. unfold schema_fields in Hname. simpl in Hname.
  rewrite !lookup_insert_ne; [reflexivity|..]; intros <-; apply Hname; auto.
Qed.

(** X20. [init] takes the chain id as a number only: a configuration whose
    [MEFS_CHAIN_ID] is a string -- the form an environment variable has --
    is refused, whatever the other fields are, and [process.env] is left as
    it was. *)
Theorem plugin_init_refuses_string_chain_id config process_env s :
  config "MEFS_CHAIN_ID" = CfgString s ->
  In ("MEFS_CHAIN_ID", invalid_type) (plugin_issues config)
  /\ exists messages,
       plugin_init config process_env
       = (Throw (Error ("Invalid plugin configuration: " +:+ messages)),
          process_env).
Proof.
  intros Hchain. split.
  - unfold plugin_issues. rewrite Hchain. simpl.
    apply in_or_app. right. apply in_or_app. right. now left.
  - unfold plugin_init. rewrite Hchain.
    change (parse_chain_field (CfgString s)) with (@inl ZodCode Z invalid_type).
    destruct (parse_url_field "https://api.mefs.io:10000/produce"
                (config "MEFS_API_URL"));
      destruct (parse_key_field (config "MEFS_PRIVATE_KEY"));
      destruct (parse_url_field "https://memo.io" (config "MEFS_ORIGIN"));
      eexists; reflexivity.
Qed.

End MorePlugin.

(** * The added properties on the demonstration store *)

Module DemoMoreFacts.
Import Demo DemoMore.
#[local] Existing Instance env.

Lemma validateStorageClientConfig_defaults_witness :
  truthy_opt (getSetting (settings_key_only key_a) "MEFS_API_URL") = false
  /\ validateStorageClientConfig (settings_key_only key_a)
     = Return {| MEFS_API_URL := "https://api.mefs.io:10000/produce";
                 MEFS_WALLET_ADDRESS := "0xA11CE";
                 MEFS_PRIVATE_KEY := key_a;
                 MEFS_CHAIN_ID := 985;
                 MEFS_ORIGIN := "https://memo.io" |}
  /\ 985%Z = 985%Z.
Proof.
  assert (Hval : validateStorageClientConfig (settings_key_only key_a)
                 = Return {| MEFS_API_URL := "https://api.mefs.io:10000/produce";
                             MEFS_WALLET_ADDRESS := "0xA11CE";
                             MEFS_PRIVATE_KEY := key_a;
                             MEFS_CHAIN_ID := 985;
                             MEFS_ORIGIN := "https://memo.io" |})
    by (vm_compute; reflexivity).
  split; [reflexivity|]. split; [exact Hval|].
  exact (proj1 (proj2 (validateStorageClientConfig_defaults
                         (settings_key_only key_a) _ eq_refl eq_refl eq_refl
                         Hval))).
Defined.

Lemma privateKeyToAddress_prefix_insensitive_witness :
  key_a <> ""
  /\ String.prefix "0x" key_a = false
  /\ privateKeyToAddress ("0x" +:+ key_a) = privateKeyToAddress key_a.
Proof.
  assert (Hne : key_a <> "") by discriminate.
  split; [exact Hne|]. split; [reflexivity|].
  exact (privateKeyToAddress_prefix_insensitive key_a Hne eq_refl).
Defined.

Lemma loginToMEFS_stores_reply_witness :
  let run := loginToMEFS (configured, world store0) in
  fst run = Return tt
  /\ exists cfg cr signature lr fields,
       mefsConfig configured = Some cfg
       /\ new_events (world store0) (snd (snd run))
          = [EvFetch (challenge_request cfg) (Return cr);
             EvFetch (login_request cfg (text cr) signature) (Return lr)]
       /\ ok cr = true /\ ok lr = true
       /\ Wallet_signMessage (MEFS_PRIVATE_KEY cfg) (text cr) = Return signature
       /\ body (login_request cfg (text cr) signature)
          = JsonBody [("message", text cr); ("signature", signature)]
       /\ json lr = JsonObject fields
       /\ fst (snd run)
          = set_tokens (get_field "accessToken" fields)
              (get_field "refreshToken" fields) configured.
Proof.
  intros run.
  assert (Hrun : loginToMEFS (configured, world store0)
                 = (Return tt, (fst (snd run), snd (snd run))))
    by (vm_compute; reflexivity).
  split; [vm_compute; reflexivity|].
  exact (loginToMEFS_stores_reply _ _ _ _ Hrun).
Defined.

Lemma initializeStorage_outcomes_witness :
  let run := initializeStorage (fresh, world store_forbidden) in
  fst run = Throw (Error "Failed to login: 403 login")
  /\ accessToken (fst (snd run)) = accessToken fresh
  /\ refreshToken (fst (snd run)) = refreshToken fresh
  /\ mefsConfig (fst (snd run)) = Some config.
Proof.
  intros run.
  assert (Hrun : initializeStorage (fresh, world store_forbidden)
                 = (Throw (Error "Failed to login: 403 login"),
                    (fst (snd run), snd (snd run))))
    by (vm_compute; reflexivity).
  split; [vm_compute; reflexivity|].
  destruct (initializeStorage_outcomes _ _ _ _ _ Hrun) as (_ & Ha & Hr & _).
  split; [exact Ha|]. split; [exact Hr|]. vm_compute. reflexivity.
Defined.

Lemma uploadFile_returns_Mid_witness :
  let run := uploadFile hi "hi.txt" false None (logged_in, world store0) in
  fst run = Return (JStr "bafyHI")
  /\ exists cfg isGlobalFormData response fields before,
       mefsConfig (fst (snd run)) = Some cfg
       /\ truthy (accessToken (fst (snd run))) = true
       /\ new_events (world store0) (snd (snd run))
          = before
            ++ [EvFetch (upload_request cfg isGlobalFormData
                           (auth_headers (fst (snd run))) hi "hi.txt" false None)
                  (Return response)]
       /\ ok response = true
       /\ json response = JsonObject fields
       /\ JStr "bafyHI" = get_field "Mid" fields.
Proof.
  intros run.
  assert (Hrun : uploadFile hi "hi.txt" false None (logged_in, world store0)
                 = (Return (JStr "bafyHI"), (fst (snd run), snd (snd run))))
    by (vm_compute; reflexivity).
  split; [vm_compute; reflexivity|].
  exact (uploadFile_returns_Mid _ _ _ _ _ _ _ _ _ Hrun).
Defined.

Lemma retrieveFile_returns_body_witness :
  let run := retrieveFile "bafyHI" (Some "k") (logged_in, world store_hi) in
  fst run = Return hi
  /\ exists cfg req response before,
       mefsConfig (fst (snd run)) = Some cfg
       /\ truthy (accessToken (fst (snd run))) = true
       /\ new_events (world store_hi) (snd (snd run))
          = before ++ [EvFetch req (Return response)]
       /\ req = retrieve_request cfg (auth_headers (fst (snd run))) "bafyHI"
                  (Some "k")
       /\ method req = "GET" /\ body req = NoBody
       /\ input (url req) = MEFS_API_URL cfg +:+ "/mefs/" +:+ "bafyHI"
       /\ params (url req) = [("key", "k")]
       /\ ok response = true
       /\ hi = arrayBuffer response.
Proof.
  intros run.
  assert (Hrun : retrieveFile "bafyHI" (Some "k") (logged_in, world store_hi)
                 = (Return hi, (fst (snd run), snd (snd run))))
    by (vm_compute; reflexivity).
  split; [vm_compute; reflexivity|].
  exact (retrieveFile_returns_body _ _ _ _ _ _ _ Hrun).
Defined.

Lemma retrieve_handler_requests_witness :
  let message := text_message "get bafyHI and bafyNO" in
  let run := retrieve_handler (Some logged_in) message true (world store_hi) in
  let req := retrieve_request config (auth_headers logged_in) "bafyNO" None in
  let r := Return (reply 404 "not found" NotJson []) in
  In (EvFetch req r) (new_events (world store_hi) (snd (snd run)))
  /\ exists this' cfg,
       fst (snd run) = Some this'
       /\ mefsConfig this' = Some cfg
       /\ retrieve_handler_request cfg (getCIDsFromMessage message) req.
Proof.
  intros message run req r.
  assert (Hin : In (EvFetch req r)
                  (new_events (world store_hi) (snd (snd run))))
    by (vm_compute; right; left; reflexivity).
  split; [exact Hin|].
  exact (retrieve_handler_requests (Some logged_in) message true
           (world store_hi) req r Hin).
Defined.

Lemma upload_handler_uploads_private_witness :
  let run := upload_handler (Some logged_in) silent true
               (Some [response "hello"]) (world store0) in
  let req := upload_request config true (auth_headers logged_in)
               (list_byte_of_string "hello") "response_1700000000000.txt"
               false None in
  let r := Return (reply 200 "" (JsonObject [("Mid", JStr "bafyhello")]) []) in
  let parts := [FilePart "file" (list_byte_of_string "hello")
                  "response_1700000000000.txt"
                  (Some "application/octet-stream")] in
  In (EvFetch req r) (new_events (world store0) (snd (snd run)))
  /\ body req = FormBody parts
  /\ ~ has_field "public" parts /\ ~ has_field "key" parts.
Proof.
  intros run req r parts.
  assert (Hin : In (EvFetch req r) (new_events (world store0) (snd (snd run))))
    by (vm_compute; right; left; reflexivity).
  split; [exact Hin|]. split; [reflexivity|].
  exact (proj2 (upload_handler_uploads_private (Some logged_in) silent true
                  (Some [response "hello"]) (world store0) req r parts Hin
                  eq_refl)).
Defined.

Lemma upload_handler_uploads_each_witness :
  let run := upload_handler (Some logged_in) silent true
               (Some [response "hello"; silent; response "again"])
               (world store0) in
  success (fst run) = true
  /\ count_uploads (new_events (world store0) (snd (snd run))) = 2.
Proof.
  intros run.
  assert (Hok : success (fst run) = true) by (vm_compute; reflexivity).
  split; [exact Hok|].
  exact (upload_handler_uploads_each (Some logged_in) silent true
           (Some [response "hello"; silent; response "again"]) (world store0)
           Hok).
Defined.

Lemma plugin_init_sets_environment_witness :
  let run := plugin_init good_config ({[ "HOME" := "/root" ]}) in
  fst run = Return tt
  /\ snd run !! "MEFS_CHAIN_ID" = Some "985"
  /\ snd run !! "HOME" = Some "/root".
Proof.
  intros run.
  assert (Hrun : plugin_init good_config ({[ "HOME" := "/root" ]})
                 = (Return tt, snd run)) by (vm_compute; reflexivity).
  split; [vm_compute; reflexivity|].
  destruct (plugin_init_sets_environment _ _ _ _ Hrun)
    as (api & key & chain & origin & _ & _ & _ & _ & _ & _ & _ & _ & _ & _
        & Hother).
  split; [vm_compute; reflexivity|].
  rewrite Hother; [apply lookup_singleton_eq|].
  unfold schema_fields. simpl.
  intros [H|[H|[H|[H|[]]]]]; discriminate H.
Defined.

Lemma plugin_init_refuses_string_chain_id_witness :
  env_config "MEFS_CHAIN_ID" = CfgString "985"
  /\ In ("MEFS_CHAIN_ID", invalid_type) (plugin_issues env_config)
  /\ exists messages,
       plugin_init env_config ({[ "HOME" := "/root" ]})
       = (Throw (Error ("Invalid plugin configuration: " +:+ messages)),
          {[ "HOME" := "/root" ]}).
Proof.
  split; [reflexivity|].
  exact (plugin_init_refuses_string_chain_id env_config
           ({[ "HOME" := "/root" ]}) "985" eq_refl).
Defined.

End DemoMoreFacts.

Module DemoStrictFacts.
Import Demo DemoMore.
#[local] Existing Instance env2.

Lemma validateStorageClientConfig_wallet_failure_witness :
  schema_issues (raw_config_of (settings zero_key)) = []
  /\ Wallet_address
       ("0x" +:+ default "" (getSetting (settings zero_key) "MEFS_PRIVATE_KEY"))
     = Throw (Error "invalid private key")
  /\ validateStorageClientConfig (settings zero_key)
     = Throw (Error ("Failed to convert private key to address: "
                     +:+ "Failed to convert private key to address: "
                     +:+ "invalid private key")).
Proof.
  assert (H1 : schema_issues (raw_config_of (settings zero_key)) = [])
    by (vm_compute; reflexivity).
  assert (H2 : Wallet_address
                 ("0x" +:+ default ""
                             (getSetting (settings zero_key) "MEFS_PRIVATE_KEY"))
               = Throw (Error "invalid private key"))
    by (vm_compute; reflexivity).
  split; [exact H1|]. split; [exact H2|].
  exact (validateStorageClientConfig_wallet_failure (settings zero_key) _ H1 H2).
Defined.

Lemma upload_handler_stops_at_failure_witness :
  let w1 := emit true "OK! Uploading file(s) to MEFS..." (world2 store0) in
  let first := upload_attachments [attachment "/data/hi.txt"] []
                 (logged_in, w1) in
  let second := upload_attachment (attachment "/data/missing.txt") (snd first) in
  fst first = Return [JStr "bafyHI"]
  /\ fst second = Throw (Error "ENOENT: no such file or directory")
  /\ upload_handler (Some logged_in) three_files true None (world2 store0)
     = (failed "STORAGE_UPLOAD"
          "Sorry, failed to upload file(s) to MEFS. Please try again later."
          "ENOENT: no such file or directory",
        (Some (fst (snd second)),
         emit true
           "Sorry, failed to upload file(s) to MEFS. Please try again later."
           (snd (snd second)))).
Proof.
  intros w1 first second.
  assert (Hinit : initializeStorage (logged_in, w1)
                  = (Return tt, (logged_in, w1))) by (vm_compute; reflexivity).
  assert (Hfirst : upload_attachments [attachment "/data/hi.txt"] []
                     (logged_in, w1)
                   = (Return [JStr "bafyHI"], snd first))
    by (vm_compute; reflexivity).
  assert (Hsecond : upload_attachment (attachment "/data/missing.txt")
                      (snd first)
                    = (Throw (Error "ENOENT: no such file or directory"),
                       (fst (snd second), snd (snd second))))
    by (vm_compute; reflexivity).
  split; [vm_compute; reflexivity|]. split; [vm_compute; reflexivity|].
  exact (upload_handler_stops_at_failure logged_in three_files true None
           (world2 store0) [attachment "/data/hi.txt"]
           (attachment "/data/missing.txt") [attachment "/data/hi.txt"]
           logged_in w1 [JStr "bafyHI"] (snd first)
           (Error "ENOENT: no such file or directory") _ _
           eq_refl Hinit Hfirst Hsecond).
Defined.

End DemoStrictFacts.
